(** * Voice-command dispatcher: a shallow embedding of [dispatcher.py]

    The development follows the source file class by class:
    [StateManager], [CommandRegistry], [ExecutionEngine], [AIParser] and
    [VoiceAssistantDispatcher].  Scores are IEEE binary64 numbers, as Python
    floats are, and are modelled by Rocq's primitive floats; the dictionary
    of commands keeps Python's insertion order; exceptions are values of an
    error monad; the operating system (child processes, the clock, the
    state file) is an explicit world that the functions thread through. *)

From Stdlib Require Import ZArith Lia Bool List String Ascii DecimalString.
From Stdlib Require Import Permutation Sorted.
From Stdlib Require Import Floats.
Import ListNotations.

#[local] Set Warnings "-inexact-float".
#[local] Open Scope string_scope.
#[local] Open Scope list_scope.

(* ================================================================== *)
(** ** Python strings

    A [str] is a sequence of characters; the model uses [string], whose
    characters are the code points 0..255 (Latin-1).  Every operation
    below acts on whole characters, as the Python ones do. *)
(* ================================================================== *)

Module PyStr.

(** [c.lower()] on one character of the Latin-1 range: A-Z and the
    accented capitals U+00C0..U+00DE (the multiplication sign U+00D7
    apart) move 32 places up; every other character is left as it is. *)
Definition lower_char (c : ascii) : ascii :=
  let n := nat_of_ascii c in
  if ((65 <=? n) && (n <=? 90))%nat
     || ((192 <=? n) && (n <=? 222) && negb (n =? 215))%nat
  then ascii_of_nat (n + 32)
  else c.

(** [s.lower()] *)
Fixpoint lower (s : string) : string :=
  match s with
  | EmptyString => EmptyString
  | String c s' => String (lower_char c) (lower s')
  end.

(** [s.startswith(p)] *)
Fixpoint startswith (s p : string) : bool :=
  match p, s with
  | EmptyString, _ => true
  | String _ _, EmptyString => false
  | String b p', String a s' => Ascii.eqb a b && startswith s' p'
  end.

(** [sub in s]: [sub] occurs in [s] as a contiguous run of characters. *)
Fixpoint contains (sub s : string) : bool :=
  match s with
  | EmptyString => startswith s sub
  | String _ s' => startswith s sub || contains sub s'
  end.

(** [s[:n]] for [n >= 0] *)
Fixpoint take (n : nat) (s : string) : string :=
  match n, s with
  | O, _ => EmptyString
  | S _, EmptyString => EmptyString
  | S n', String c s' => String c (take n' s')
  end.

Fixpoint rev_append (s acc : string) : string :=
  match s with
  | EmptyString => acc
  | String c s' => rev_append s' (String c acc)
  end.

Definition rev (s : string) : string := rev_append s EmptyString.

(** [s.endswith(suffix)] *)
Definition endswith (s suffix : string) : bool :=
  startswith (rev s) (rev suffix).

(** [c.isspace()] in the Latin-1 range: U+0009..U+000D, U+001C..U+0020,
    U+0085 and U+00A0. *)
Definition isspace (c : ascii) : bool :=
  let n := nat_of_ascii c in
  (((9 <=? n) && (n <=? 13)) || ((28 <=? n) && (n <=? 32))
   || (n =? 133) || (n =? 160))%nat.

Fixpoint lstrip (s : string) : string :=
  match s with
  | EmptyString => EmptyString
  | String c s' => if isspace c then lstrip s' else s
  end.

Definition rstrip (s : string) : string := rev (lstrip (rev s)).

(** [s.strip()] *)
Definition strip (s : string) : string := rstrip (lstrip s).

(** [s.split()] with no separator: the maximal runs of characters that
    are not white space, in order.  [word] is the run being read. *)
Fixpoint split_from (word : option string) (s : string) : list string :=
  match s with
  | EmptyString =>
      match word with Some w => [rev w] | None => [] end
  | String c s' =>
      if isspace c then
        match word with
        | Some w => rev w :: split_from None s'
        | None => split_from None s'
        end
      else
        match word with
        | Some w => split_from (Some (String c w)) s'
        | None => split_from (Some (String c EmptyString)) s'
        end
  end.

Definition split (s : string) : list string := split_from None s.

(** [sep.join(parts)] *)
Fixpoint join (sep : string) (parts : list string) : string :=
  match parts with
  | [] => EmptyString
  | [p] => p
  | p :: rest => (p ++ sep ++ join sep rest)%string
  end.

(** Truthiness of a string: [bool(s)] *)
Definition truthy (s : string) : bool :=
  match s with EmptyString => false | String _ _ => true end.

End PyStr.

(* ================================================================== *)
(** ** Python lists and insertion-ordered dictionaries *)
(* ================================================================== *)

Module PyList.

(** [l[-n:]] for [n > 0]: the last [n] elements, the whole list when it
    is shorter. *)
Definition last_n {A} (n : nat) (l : list A) : list A :=
  skipn (List.length l - n) l.

End PyList.

(** A [dict] with [str] keys.  Python dictionaries iterate in insertion
    order, and assigning to a key that is present replaces its value in
    place, so the model is an association list with these two rules. *)
Module PyDict.

Definition dict (V : Type) : Type := list (string * V).

Definition empty {V} : dict V := [].

(** [d[k] = v] *)
Fixpoint set {V} (k : string) (v : V) (d : dict V) : dict V :=
  match d with
  | [] => [(k, v)]
  | (k', v') :: d' =>
      if String.eqb k' k then (k', v) :: d' else (k', v') :: set k v d'
  end.

(** [d.get(k)] *)
Fixpoint get {V} (k : string) (d : dict V) : option V :=
  match d with
  | [] => None
  | (k', v') :: d' => if String.eqb k' k then Some v' else get k d'
  end.

(** [d.keys()] and [d.values()], in iteration order *)
Definition keys {V} (d : dict V) : list string := map fst d.
Definition values {V} (d : dict V) : list V := map snd d.

End PyDict.

(* ================================================================== *)
(** ** Exceptions

    Every exception of the model is an instance of Python's [Exception]
    class.  (Cancellation and interpreter shutdown, which are
    [BaseException]s delivered from outside, are not modelled.) *)
(* ================================================================== *)

Inductive ExcType : Type :=
  | FileNotFoundError | PermissionError | OSError
  | ValueError | KeyError | TypeError | AttributeError
  | UnicodeDecodeError | YAMLError.

(** [exc_msg] is [str(e)]. *)
Record PyExc : Type := mkExc { exc_type : ExcType; exc_msg : string }.

Inductive exn (A : Type) : Type :=
  | Ok (a : A)
  | Raise (e : PyExc).
Arguments Ok {A} a.
Arguments Raise {A} e.

Definition bind {A B} (m : exn A) (f : A -> exn B) : exn B :=
  match m with
  | Ok a => f a
  | Raise e => Raise e
  end.

Notation "x <- m ;; k" := (bind m (fun x => k))
  (at level 61, m at next level, right associativity).

(** [d[k]] on a mapping read from a document: [KeyError] when absent. *)
Definition subscript {A} (field : option A) (k : string) : exn A :=
  match field with
  | Some a => Ok a
  | None => Raise (mkExc KeyError ("'" ++ k ++ "'")%string)
  end.

(** [d.get(k, default)] *)
Definition get_default {A} (field : option A) (default : A) : A :=
  match field with
  | Some a => a
  | None => default
  end.

Fixpoint map_exn {A B} (f : A -> exn B) (l : list A) : exn (list B) :=
  match l with
  | [] => Ok []
  | a :: l' => b <- f a ;; bs <- map_exn f l' ;; Ok (b :: bs)
  end.

(* ================================================================== *)
(** ** The enumerations

    Each [Enum] class is an inductive type with its [value] strings and
    the lookup by value, [Cls(v)], which raises [ValueError] on a string
    that is no member's value. *)
(* ================================================================== *)

Definition not_a_valid (v cls : string) : PyExc :=
  mkExc ValueError ("'" ++ v ++ "' is not a valid " ++ cls)%string.

Module ExecutionEnvironment.

Inductive t : Type := PYTHON | AUTOHOTKEY | JAVA | NODEJS | SYSTEM.

Definition value (e : t) : string :=
  match e with
  | PYTHON => "python"
  | AUTOHOTKEY => "ahk"
  | JAVA => "java"
  | NODEJS => "nodejs"
  | SYSTEM => "system"
  end.

Definition members : list t := [PYTHON; AUTOHOTKEY; JAVA; NODEJS; SYSTEM].

Definition of_value (v : string) : exn t :=
  match find (fun e => String.eqb (value e) v) members with
  | Some e => Ok e
  | None => Raise (not_a_valid v "ExecutionEnvironment")
  end.

End ExecutionEnvironment.

Module AssistantMode.

Inductive t : Type := GENERAL | CODING | STUDY | STREAMING.

Definition value (m : t) : string :=
  match m with
  | GENERAL => "general"
  | CODING => "coding"
  | STUDY => "study"
  | STREAMING => "streaming"
  end.

Definition members : list t := [GENERAL; CODING; STUDY; STREAMING].

Definition of_value (v : string) : exn t :=
  match find (fun m => String.eqb (value m) v) members with
  | Some m => Ok m
  | None => Raise (not_a_valid v "AssistantMode")
  end.

Definition eqb (a b : t) : bool :=
  match a, b with
  | GENERAL, GENERAL | CODING, CODING | STUDY, STUDY | STREAMING, STREAMING => true
  | _, _ => false
  end.

(** [m in modes] *)
Definition mem (m : t) (modes : list t) : bool := existsb (eqb m) modes.

End AssistantMode.

Module CommandCategory.

Inductive t : Type := UTILITY | AUDIO | CODING | PRODUCTIVITY | KNOWLEDGE | SYSTEM.

Definition value (c : t) : string :=
  match c with
  | UTILITY => "utility"
  | AUDIO => "audio"
  | CODING => "coding"
  | PRODUCTIVITY => "productivity"
  | KNOWLEDGE => "knowledge"
  | SYSTEM => "system"
  end.

Definition members : list t :=
  [UTILITY; AUDIO; CODING; PRODUCTIVITY; KNOWLEDGE; SYSTEM].

Definition of_value (v : string) : exn t :=
  match find (fun c => String.eqb (value c) v) members with
  | Some c => Ok c
  | None => Raise (not_a_valid v "CommandCategory")
  end.

End CommandCategory.

(* ================================================================== *)
(** ** The data classes *)
(* ================================================================== *)

(** [CommandResult].  [execution_time] is kept as the exact number of
    microseconds that elapsed; the source stores [total_seconds()] of the
    same interval, that number divided by 10^6 as a float. *)
Module CommandResult.

Record t : Type := mk {
  success : bool;
  output : string;
  error : option string;
  execution_time : Z;
  metadata : option (PyDict.dict string)
}.

(** [CommandResult(success, output)] and [CommandResult(success, output,
    error)]: the remaining fields take their defaults. *)
Definition make (success : bool) (output : string) (error : option string) : t :=
  mk success output error 0%Z None.

Definition with_execution_time (r : t) (us : Z) : t :=
  mk (success r) (output r) (error r) us (metadata r).

End CommandResult.

(** The [environment] field of a [Command].  A dataclass does not check
    its fields when an object is built, so besides the members of
    [ExecutionEnvironment] the field can hold any other object; [Other s]
    is such an object, [s] being its [str()]. *)
Inductive environment_field : Type :=
  | Env (e : ExecutionEnvironment.t)
  | Other (shown : string).

(** [Command].  [args] and [modes] are lists; the default [None] of the
    data class is read by the code only through its truth value, which
    is that of the empty list. *)
Module Command.

Record t : Type := mk {
  key : string;
  name : string;
  description : string;
  keywords : list string;
  category : CommandCategory.t;
  environment : environment_field;
  script_path : string;
  args : list string;
  modes : list AssistantMode.t;
  requires_confirmation : bool;
  ai_parsing : bool;
  metadata : PyDict.dict string
}.

Definition with_requires_confirmation (b : bool) (c : t) : t :=
  mk (key c) (name c) (description c) (keywords c) (category c)
     (environment c) (script_path c) (args c) (modes c) b (ai_parsing c)
     (metadata c).

End Command.

(** One element of [state["last_commands"]]. *)
Module HistoryEntry.

Record t : Type := mk {
  timestamp : string;
  command : string;
  input : string;
  success : bool;
  output : option string
}.

End HistoryEntry.

(** The session state document, the dictionary [StateManager.state] and
    the JSON object of the state file.  A key can be absent from a
    document read from disk, hence the options. *)
Module StateDoc.

Record t : Type := mk {
  current_mode : option string;
  last_commands : option (list HistoryEntry.t);
  user_preferences : option (PyDict.dict string);
  aliases : option (PyDict.dict string);
  session_start : option string
}.

Definition with_current_mode (v : string) (d : t) : t :=
  mk (Some v) (last_commands d) (user_preferences d) (aliases d) (session_start d).

Definition with_last_commands (v : list HistoryEntry.t) (d : t) : t :=
  mk (current_mode d) (Some v) (user_preferences d) (aliases d) (session_start d).

Definition with_aliases (v : PyDict.dict string) (d : t) : t :=
  mk (current_mode d) (last_commands d) (user_preferences d) (Some v) (session_start d).

End StateDoc.

(* ================================================================== *)
(** ** The world outside the interpreter *)
(* ================================================================== *)

(** What the state file holds. *)
Inductive file_content : Type :=
  | NoFile
  | NotJson
  | Json (doc : StateDoc.t).

(** A child process that ran to its end: its exit status and what
    [stdout.decode()] and [stderr.decode()] give, each a text or a
    [UnicodeDecodeError]. *)
Record Completed : Type := mkCompleted {
  returncode : Z;
  stdout_decoded : exn string;
  stderr_decoded : exn string
}.

(** The mutable store a dispatch works on: the dictionary held by the
    [StateManager], the state file, the argument vectors handed to
    [create_subprocess_exec] so far (oldest first) and the number of
    times the clock has been read. *)
Record World : Type := mkWorld {
  state : StateDoc.t;
  state_file : file_content;
  exec_calls : list (list string);
  clock_reads : nat
}.

Definition with_state (d : StateDoc.t) (w : World) : World :=
  mkWorld d (state_file w) (exec_calls w) (clock_reads w).

Definition with_state_file (f : file_content) (w : World) : World :=
  mkWorld (state w) f (exec_calls w) (clock_reads w).

(* ================================================================== *)
(** ** CommandRegistry *)
(* ================================================================== *)

(** One record of the registry document, as [yaml.safe_load] returns it:
    a mapping in which any key can be missing. *)
Module RawCommand.

Record t : Type := mk {
  key : option string;
  name : option string;
  description : option string;
  keywords : option (list string);
  category : option string;
  environment : option string;
  script_path : option string;
  args : option (list string);
  modes : option (list string);
  requires_confirmation : option bool;
  ai_parsing : option bool;
  metadata : option (PyDict.dict string)
}.

End RawCommand.

(** What opening and parsing the registry file gives: no file, a
    document that is not YAML, or a mapping with or without the
    [commands] key. *)
Inductive registry_file : Type :=
  | RegistryMissing
  | RegistryMalformed (msg : string)
  | RegistryData (commands : option (list RawCommand.t)).

Module CommandRegistry.

(** The [Command(...)] call of [_load_commands]: the keyword arguments
    are evaluated in the order they are written, and the first one that
    raises ends the call. *)
Definition build_command (cmd_data : RawCommand.t) : exn Command.t :=
  key <- subscript (RawCommand.key cmd_data) "key" ;;
  name <- subscript (RawCommand.name cmd_data) "name" ;;
  description <- subscript (RawCommand.description cmd_data) "description" ;;
  keywords <- subscript (RawCommand.keywords cmd_data) "keywords" ;;
  category_value <- subscript (RawCommand.category cmd_data) "category" ;;
  category <- CommandCategory.of_value category_value ;;
  environment_value <- subscript (RawCommand.environment cmd_data) "environment" ;;
  environment <- ExecutionEnvironment.of_value environment_value ;;
  script_path <- subscript (RawCommand.script_path cmd_data) "script_path" ;;
  let args := get_default (RawCommand.args cmd_data) [] in
  modes <- map_exn AssistantMode.of_value (get_default (RawCommand.modes cmd_data) []) ;;
  let requires_confirmation :=
    get_default (RawCommand.requires_confirmation cmd_data) false in
  let ai_parsing := get_default (RawCommand.ai_parsing cmd_data) false in
  let metadata := get_default (RawCommand.metadata cmd_data) PyDict.empty in
  Ok (Command.mk key name description keywords category (Env environment)
        script_path args modes requires_confirmation ai_parsing metadata).

(** The [for cmd_data in ...] loop: each command is stored under its key
    in [self.commands]. *)
Fixpoint load_records (records : list RawCommand.t)
    (commands : PyDict.dict Command.t) : exn (PyDict.dict Command.t) :=
  match records with
  | [] => Ok commands
  | cmd_data :: rest =>
      cmd <- build_command cmd_data ;;
      load_records rest (PyDict.set (Command.key cmd) cmd commands)
  end.

Definition raw (key name description : string) (keywords : list string)
    (category environment script_path : string) (ai_parsing : option bool)
    (modes : list string) : RawCommand.t :=
  RawCommand.mk (Some key) (Some name) (Some description) (Some keywords)
    (Some category) (Some environment) (Some script_path) None (Some modes)
    None ai_parsing None.

(** The document [_create_default_registry] writes. *)
Definition default_commands : list RawCommand.t :=
  [ raw "voicemeeter_control" "Voicemeeter Audio Control"
      "Control Voicemeeter audio routing and levels"
      ["patch"; "mute"; "unmute"; "volume"; "audio"; "strip"; "bus"]
      "audio" "python" "scripts/audio/voicemeeter_control.py" (Some true)
      ["general"; "streaming"];
    raw "app_launcher" "Application Launcher"
      "Launch or close applications"
      ["open"; "launch"; "start"; "close"; "kill"; "app"]
      "utility" "python" "scripts/utility/app_launcher.py" None
      ["general"; "coding"; "study"] ].

(** [_load_commands], started on the empty [self.commands].  Only
    [FileNotFoundError] is caught: the default document is then written
    and loaded in its place.  Any other exception leaves the method. *)
Definition _load_commands (file : registry_file) : exn (PyDict.dict Command.t) :=
  match file with
  | RegistryData commands => load_records (get_default commands []) PyDict.empty
  | RegistryMalformed msg => Raise (mkExc YAMLError msg)
  | RegistryMissing => load_records default_commands PyDict.empty
  end.

(** The body of [for keyword in cmd.keywords]. *)
Definition score_keyword (user_input_lower : string) (score : float)
    (keyword : string) : float :=
  let k := PyStr.lower keyword in
  if PyStr.contains k user_input_lower then
    if String.eqb k user_input_lower then (score + 1.0)%float
    else if PyStr.startswith user_input_lower k then (score + 0.8)%float
    else (score + 0.5)%float
  else score.

(** The score a command accumulates, from [score = 0.0]. *)
Definition score_of (user_input_lower : string) (cmd : Command.t) : float :=
  fold_left (score_keyword user_input_lower) (Command.keywords cmd) 0%float.

(** [cmd.modes and current_mode not in cmd.modes]: the command is
    skipped. *)
Definition skipped (current_mode : AssistantMode.t) (cmd : Command.t) : bool :=
  match Command.modes cmd with
  | [] => false
  | modes => negb (AssistantMode.mem current_mode modes)
  end.

(** The [for cmd in self.commands.values()] loop, which appends
    [(cmd, score)] to [matches] when [score > 0]. *)
Fixpoint scan (user_input_lower : string) (current_mode : AssistantMode.t)
    (cmds : list Command.t) : list (Command.t * float) :=
  match cmds with
  | [] => []
  | cmd :: rest =>
      if skipped current_mode cmd then scan user_input_lower current_mode rest
      else
        let score := score_of user_input_lower cmd in
        if (0 <? score)%float
        then (cmd, score) :: scan user_input_lower current_mode rest
        else scan user_input_lower current_mode rest
  end.

(** [matches.sort(key=lambda x: x[1], reverse=True)].  Python's sort is
    stable, also with [reverse=True], and compares the keys with [<]
    only; this is the stable insertion sort into descending order. *)
Fixpoint insert_by_score (x : Command.t * float)
    (sorted : list (Command.t * float)) : list (Command.t * float) :=
  match sorted with
  | [] => [x]
  | y :: rest =>
      if (snd x <? snd y)%float then y :: insert_by_score x rest
      else x :: y :: rest
  end.

Fixpoint sort_by_score (matches : list (Command.t * float))
    : list (Command.t * float) :=
  match matches with
  | [] => []
  | x :: rest => insert_by_score x (sort_by_score rest)
  end.

Definition find_matches (commands : PyDict.dict Command.t)
    (user_input : string) (current_mode : AssistantMode.t)
    : list (Command.t * float) :=
  let user_input_lower := PyStr.lower user_input in
  sort_by_score (scan user_input_lower current_mode (PyDict.values commands)).

End CommandRegistry.

(* ================================================================== *)
(** ** Slices and numbers *)
(* ================================================================== *)

Module PySeq.

(** [l[start:]], for any integer [start]: a negative one counts from the
    end, and an index outside the list is brought back to its nearest
    end. *)
Definition slice_from {A} (start : Z) (l : list A) : list A :=
  let n := Z.of_nat (List.length l) in
  let first := if (start <? 0)%Z then Z.max (n + start) 0 else Z.min start n in
  skipn (Z.to_nat first) l.

(** [l[:n]] for [n >= 0] *)
Definition slice_to {A} (n : nat) (l : list A) : list A := firstn n l.

End PySeq.

(** A number that is an [int] or a [float]. *)
Inductive py_number : Type :=
  | PyInt (n : Z)
  | PyFloat (x : float).

(** [a / b] on two [int]s that are natural numbers: the binary64 number
    nearest to the quotient.  The two conversions are exact below 2^53,
    far above the length of any list, and the division rounds once. *)
Definition true_div (a b : nat) : float :=
  (of_uint63 (Uint63.of_Z (Z.of_nat a)) / of_uint63 (Uint63.of_Z (Z.of_nat b)))%float.

(** The dictionary [get_stats] returns. *)
Module Stats.

Record t : Type := mk {
  total_commands : nat;
  successful_commands : nat;
  success_rate : py_number;
  current_mode : string;
  session_start : option string
}.

End Stats.

(* ================================================================== *)
(** ** The stateful classes

    The behaviour of the operating system and of the library calls whose
    result the code only passes on is a parameter of the model. *)
(* ================================================================== *)

Module Dispatcher.

Section World.

(** [clock n] is what the [n]-th call of [datetime.now()] returns, in
    microseconds; [isoformat] is [datetime.isoformat]. *)
Variable clock : nat -> Z.
Variable isoformat : Z -> string.

(** [os_exec n argv] is what happens when [asyncio.create_subprocess_exec]
    is called with [argv] after [n] earlier calls and the child is
    awaited: an exception (no such program, permission denied, ...) or a
    completed process. *)
Variable os_exec : nat -> list string -> exn Completed.

(** [json.dumps] on a dictionary of parsed arguments. *)
Variable json_dumps : PyDict.dict string -> exn string.

Definition datetime_now (w : World) : Z * World :=
  (clock (clock_reads w),
   mkWorld (state w) (state_file w) (exec_calls w) (S (clock_reads w))).

(** *** StateManager *)

(** The dictionary [_load_state] returns when the file is missing or is
    not JSON. *)
Definition fresh_state (now : Z) : StateDoc.t :=
  StateDoc.mk (Some (AssistantMode.value AssistantMode.GENERAL)) (Some [])
    (Some PyDict.empty) (Some PyDict.empty) (Some (isoformat now)).

(** [_load_state]; [now] is the clock reading that dates a fresh
    document. *)
Definition _load_state (file : file_content) (now : Z) : StateDoc.t :=
  match file with
  | Json doc => doc
  | NoFile | NotJson => fresh_state now
  end.

(** [save_state]: the file is rewritten with the whole dictionary.  The
    write itself is taken to succeed. *)
Definition save_state (w : World) : World :=
  with_state_file (Json (state w)) w.

(** [set("current_mode", value)] and [set("aliases", value)] *)
Definition set_current_mode (value : string) (w : World) : World :=
  save_state (with_state (StateDoc.with_current_mode value (state w)) w).

Definition set_aliases (value : PyDict.dict string) (w : World) : World :=
  save_state (with_state (StateDoc.with_aliases value (state w)) w).

(** [result.output[:200] if result.output else None] *)
Definition stored_output (output : string) : option string :=
  if PyStr.truthy output then Some (PyStr.take 200 output) else None.

Definition add_to_history (command_key input_text : string)
    (result : CommandResult.t) (w : World) : World :=
  let history := get_default (StateDoc.last_commands (state w)) [] in
  let '(now, w) := datetime_now w in
  let history :=
    history ++ [HistoryEntry.mk (isoformat now) command_key input_text
                  (CommandResult.success result)
                  (stored_output (CommandResult.output result))] in
  save_state
    (with_state (StateDoc.with_last_commands (PyList.last_n 50 history) (state w)) w).

(** *** ExecutionEngine *)

(** The four paths the constructor resolves. *)
Record ExecutionEngine : Type := mkEngine {
  python_path : string;
  ahk_path : string;
  java_path : string;
  node_path : string
}.

(** The body of the [try] block that the five [_execute_*] methods
    share: spawn the child, wait for it, decode and strip its streams. *)
Definition run_child (args : list string) (w : World)
    : exn CommandResult.t * World :=
  let n := List.length (exec_calls w) in
  let w := mkWorld (state w) (state_file w) (exec_calls w ++ [args]) (clock_reads w) in
  (process <- os_exec n args ;;
   if (returncode process =? 0)%Z then
     out <- stdout_decoded process ;;
     Ok (CommandResult.make true (PyStr.strip out) None)
   else
     out <- stdout_decoded process ;;
     err <- stderr_decoded process ;;
     Ok (CommandResult.make false (PyStr.strip out) (Some (PyStr.strip err))),
   w).

(** [except Exception as e: ... CommandResult(False, "", str(e))] *)
Definition except_Exception (r : exn CommandResult.t) : CommandResult.t :=
  match r with
  | Ok result => result
  | Raise e => CommandResult.make false EmptyString (Some (exc_msg e))
  end.

Definition try_run_child (args : list string) (w : World)
    : CommandResult.t * World :=
  let '(r, w) := run_child args w in (except_Exception r, w).

(** [if parsed_args:] a dictionary that is neither [None] nor empty *)
Definition truthy_args (parsed_args : option (PyDict.dict string)) : bool :=
  match parsed_args with
  | Some (_ :: _) => true
  | _ => false
  end.

(** In [_execute_python] the argument vector is built before the [try]
    block, so an exception of [json.dumps] leaves the method. *)
Definition _execute_python (engine : ExecutionEngine) (command : Command.t)
    (parsed_args : option (PyDict.dict string)) (w : World)
    : exn CommandResult.t * World :=
  let args := [python_path engine; Command.script_path command] in
  let args := args ++ Command.args command in
  let args :=
    if truthy_args parsed_args then
      encoded <- json_dumps (get_default parsed_args PyDict.empty) ;;
      Ok (args ++ ["--parsed-args"; encoded])
    else Ok args in
  match args with
  | Raise e => (Raise e, w)
  | Ok args => let '(result, w) := try_run_child args w in (Ok result, w)
  end.

Definition _execute_ahk (engine : ExecutionEngine) (command : Command.t)
    (parsed_args : option (PyDict.dict string)) (w : World)
    : exn CommandResult.t * World :=
  let args := [ahk_path engine; Command.script_path command] in
  let args := args ++ Command.args command in
  let '(result, w) := try_run_child args w in (Ok result, w).

Definition _execute_java (engine : ExecutionEngine) (command : Command.t)
    (parsed_args : option (PyDict.dict string)) (w : World)
    : exn CommandResult.t * World :=
  let args :=
    if PyStr.endswith (Command.script_path command) ".jar"
    then [java_path engine; "-jar"; Command.script_path command]
    else [java_path engine; Command.script_path command] in
  let args := args ++ Command.args command in
  let '(result, w) := try_run_child args w in (Ok result, w).

Definition _execute_nodejs (engine : ExecutionEngine) (command : Command.t)
    (parsed_args : option (PyDict.dict string)) (w : World)
    : exn CommandResult.t * World :=
  let args := [node_path engine; Command.script_path command] in
  let args := args ++ Command.args command in
  let '(result, w) := try_run_child args w in (Ok result, w).

Definition _execute_system (engine : ExecutionEngine) (command : Command.t)
    (parsed_args : option (PyDict.dict string)) (w : World)
    : exn CommandResult.t * World :=
  let args := PyStr.split (Command.script_path command) ++ Command.args command in
  let '(result, w) := try_run_child args w in (Ok result, w).

(** The [if ... elif ... else] chain inside the [try] of
    [execute_command]. *)
Definition run_environment (engine : ExecutionEngine) (command : Command.t)
    (parsed_args : option (PyDict.dict string)) (w : World)
    : exn CommandResult.t * World :=
  match Command.environment command with
  | Env ExecutionEnvironment.PYTHON => _execute_python engine command parsed_args w
  | Env ExecutionEnvironment.AUTOHOTKEY => _execute_ahk engine command parsed_args w
  | Env ExecutionEnvironment.JAVA => _execute_java engine command parsed_args w
  | Env ExecutionEnvironment.NODEJS => _execute_nodejs engine command parsed_args w
  | Env ExecutionEnvironment.SYSTEM => _execute_system engine command parsed_args w
  | Other shown =>
      (Ok (CommandResult.make false EmptyString
             (Some ("Unsupported execution environment: " ++ shown)%string)), w)
  end.

Definition execute_command (engine : ExecutionEngine) (command : Command.t)
    (parsed_args : option (PyDict.dict string)) (w : World)
    : CommandResult.t * World :=
  let '(start_time, w) := datetime_now w in
  let '(r, w) := run_environment engine command parsed_args w in
  let result := except_Exception r in
  let '(end_time, w) := datetime_now w in
  (CommandResult.with_execution_time result (end_time - start_time)%Z, w).

(** *** AIParser *)

Definition parse_command (user_input : string) (command : Command.t)
    : PyDict.dict string :=
  PyDict.set "command_key" (Command.key command)
    (PyDict.set "raw_input" user_input PyDict.empty).

Definition clarify_command (user_input : string)
    (possible_commands : list Command.t) : string :=
  if (1 <? List.length possible_commands)%nat then
    let cmd_names := map Command.name possible_commands in
    ("I found multiple possible commands: " ++ PyStr.join ", " cmd_names
       ++ ". Which one did you mean?")%string
  else "I'm not sure what you mean. Could you be more specific?".

(** *** VoiceAssistantDispatcher *)

Record VoiceAssistantDispatcher : Type := mkDispatcher {
  command_registry : PyDict.dict Command.t;
  execution_engine : ExecutionEngine
}.

(** The [current_mode] property *)
Definition current_mode (w : World) : exn AssistantMode.t :=
  AssistantMode.of_value
    (get_default (StateDoc.current_mode (state w))
       (AssistantMode.value AssistantMode.GENERAL)).

Definition set_mode (mode : AssistantMode.t) (w : World) : World :=
  set_current_mode (AssistantMode.value mode) w.

Definition no_match : CommandResult.t :=
  CommandResult.make false "No matching commands found"
    (Some "Try saying 'help' or be more specific about what you want to do.").

(** [len(matches) > 1 and abs(matches[0][1] - matches[1][1]) < 0.3] *)
Definition needs_clarification (matches : list (Command.t * float)) : bool :=
  match matches with
  | (_, score0) :: (_, score1) :: _ => (abs (score0 - score1) <? 0.3)%float
  | _ => false
  end.

Definition dispatch (self : VoiceAssistantDispatcher) (user_input : string)
    (w : World) : exn (CommandResult.t * World) :=
  mode <- current_mode w ;;
  let matches :=
    CommandRegistry.find_matches (command_registry self) user_input mode in
  match matches with
  | [] => Ok (no_match, w)
  | (command, confidence) :: _ =>
      if needs_clarification matches then
        let clarification :=
          clarify_command user_input (map fst (firstn 3 matches)) in
        Ok (CommandResult.make false clarification
              (Some "Command needs clarification"), w)
      else
        let parsed_args :=
          if Command.ai_parsing command
          then Some (parse_command user_input command)
          else None in
        let '(result, w) :=
          execute_command (execution_engine self) command parsed_args w in
        let w := add_to_history (Command.key command) user_input result w in
        Ok (result, w)
  end.

Definition get_available_commands (self : VoiceAssistantDispatcher)
    (mode : option AssistantMode.t) (w : World) : exn (list Command.t) :=
  mode <- match mode with
          | None => current_mode w
          | Some m => Ok m
          end ;;
  Ok (filter (fun cmd =>
                match Command.modes cmd with
                | [] => true
                | modes => AssistantMode.mem mode modes
                end)
             (PyDict.values (command_registry self))).

Definition add_alias (alias command_key : string) (w : World) : World :=
  let aliases := get_default (StateDoc.aliases (state w)) PyDict.empty in
  set_aliases (PyDict.set alias command_key aliases) w.

(** [get_command_history(limit)]; a call without argument passes 10. *)
Definition get_command_history (limit : Z) (w : World) : list HistoryEntry.t :=
  PySeq.slice_from (- limit) (get_default (StateDoc.last_commands (state w)) []).

(** [get_stats]: the entries of the dictionary are evaluated in the
    order they are written, and reading the current mode can raise. *)
Definition get_stats (w : World) : exn Stats.t :=
  let history := get_default (StateDoc.last_commands (state w)) [] in
  let total_commands := List.length history in
  let successful_commands := List.length (filter HistoryEntry.success history) in
  let success_rate :=
    if (0 <? total_commands)%nat
    then PyFloat (true_div successful_commands total_commands)
    else PyInt 0 in
  mode <- current_mode w ;;
  Ok (Stats.mk total_commands successful_commands success_rate
        (AssistantMode.value mode) (StateDoc.session_start (state w))).

(** *** The constructor of ExecutionEngine *)

(** [subprocess_run argv] is what [subprocess.run(argv,
    capture_output=True)] does: the exit status of the program, or the
    exception of a program that cannot be started.  [path_exists] is
    [os.path.exists]. *)
Variable subprocess_run : list string -> exn Z.
Variable path_exists : string -> bool.

(** The [for path in ...] loop of [_find_python_executable].  With
    [check=True] a status other than 0 raises [CalledProcessError], which
    the loop catches as it does [FileNotFoundError]; any other exception
    leaves the method. *)
Fixpoint find_python_in (paths : list string) : exn string :=
  match paths with
  | [] => Ok "python"
  | path :: rest =>
      match subprocess_run [path; "--version"] with
      | Ok status => if (status =? 0)%Z then Ok path else find_python_in rest
      | Raise e =>
          match exc_type e with
          | FileNotFoundError => find_python_in rest
          | _ => Raise e
          end
      end
  end.

Definition _find_python_executable : exn string :=
  find_python_in ["python"; "python3"; "py"].

(** [_command_exists]: the command is run, without [check], so that only
    [FileNotFoundError] is ever caught. *)
Definition _command_exists (command : string) : exn bool :=
  match subprocess_run [command] with
  | Ok _ => Ok true
  | Raise e =>
      match exc_type e with
      | FileNotFoundError => Ok false
      | _ => Raise e
      end
  end.

(** The [for path in common_paths] loop of [_find_ahk_executable]; [or]
    does not run the command when the path exists. *)
Fixpoint find_ahk_in (paths : list string) : exn string :=
  match paths with
  | [] => Ok "autohotkey.exe"
  | path :: rest =>
      if path_exists path then Ok path
      else
        found <- _command_exists path ;;
        if found then Ok path else find_ahk_in rest
  end.

Definition ahk_common_paths : list string :=
  [ "C:\Program Files\AutoHotkey\AutoHotkey.exe";
    "C:\Program Files (x86)\AutoHotkey\AutoHotkey.exe";
    "autohotkey.exe";
    "ahk.exe" ].

Definition _find_ahk_executable : exn string := find_ahk_in ahk_common_paths.

Definition _find_java_executable : string := "java".

Definition _find_node_executable : string := "node".

(** [ExecutionEngine()] *)
Definition new_engine : exn ExecutionEngine :=
  python <- _find_python_executable ;;
  ahk <- _find_ahk_executable ;;
  Ok (mkEngine python ahk _find_java_executable _find_node_executable).

End World.

End Dispatcher.

Import Dispatcher.

(* ================================================================== *)
(** * The text front end: class [VoiceAssistant] of [main.py]

    A method returns, with its result, the texts it prints: one text for
    each call of [print], in order.  Printing is taken to succeed, and
    what goes to the log only is left out. *)
(* ================================================================== *)

Module Assistant.

(** [c.upper()] on a character of the ASCII range *)
Definition upper_char (c : ascii) : ascii :=
  let n := nat_of_ascii c in
  if ((97 <=? n) && (n <=? 122))%nat then ascii_of_nat (n - 32) else c.

(** [s.upper()], for a string of ASCII characters, as the values of the
    categories are *)
Fixpoint upper (s : string) : string :=
  match s with
  | EmptyString => EmptyString
  | String c s' => String (upper_char c) (upper s')
  end.

(** [s * n] *)
Fixpoint times (s : string) (n : nat) : string :=
  match n with
  | O => EmptyString
  | S n' => (s ++ times s n')%string
  end.

Definition newline : string := String (ascii_of_nat 10) EmptyString.

(** [str(n)] for a natural number, and [str(v)] for a text or [None], as
    an f-string formats them *)
Definition str_of_nat (n : nat) : string := NilZero.string_of_uint (Nat.to_uint n).

Definition str_of_optional (v : option string) : string :=
  match v with
  | Some text => text
  | None => "None"
  end.

(** The loop of [show_help] that fills [by_category]: a category enters
    the dictionary when its first command is met, and each command is
    appended to the list of its category. *)
Definition group_by_category (commands : list Command.t)
    : PyDict.dict (list Command.t) :=
  fold_left
    (fun by_category cmd =>
       let category := CommandCategory.value (Command.category cmd) in
       let by_category :=
         match PyDict.get category by_category with
         | None => PyDict.set category [] by_category
         | Some _ => by_category
         end in
       PyDict.set category
         (get_default (PyDict.get category by_category) [] ++ [cmd]) by_category)
    commands PyDict.empty.

Section Console.

Variable clock : nat -> Z.
Variable isoformat : Z -> string.
Variable os_exec : nat -> list string -> exn Completed.
Variable json_dumps : PyDict.dict string -> exn string.

(** The pictographs the messages start with.  They lie outside the range
    of characters the strings of this model are made of, and no code
    looks into them: each is a text that is given. *)
Variable speaker : string.
Variable check_mark : string.
Variable cross_mark : string.
Variable clipboard : string.
Variable bar_chart : string.
Variable bullet : string.

(** [format(x, ".1%")], the rate as a percentage with one decimal *)
Variable format_percent : py_number -> string.

Definition handle_mode_switch (text : string) (w : World) : World * list string :=
  let text_lower := PyStr.lower text in
  if PyStr.contains "coding" text_lower then
    (set_mode AssistantMode.CODING w, [(speaker ++ " Switched to coding mode")%string])
  else if PyStr.contains "study" text_lower then
    (set_mode AssistantMode.STUDY w, [(speaker ++ " Switched to study mode")%string])
  else if PyStr.contains "streaming" text_lower then
    (set_mode AssistantMode.STREAMING w,
     [(speaker ++ " Switched to streaming mode")%string])
  else if PyStr.contains "general" text_lower then
    (set_mode AssistantMode.GENERAL w, [(speaker ++ " Switched to general mode")%string])
  else
    (w, [(speaker ++ " Available modes: coding, study, streaming, general")%string]).

(** The line of one command in the help text *)
Definition help_line (cmd : Command.t) : string :=
  let keywords := PyStr.join ", " (PySeq.slice_to 3 (Command.keywords cmd)) in
  ("  " ++ bullet ++ " " ++ Command.name cmd ++ ": " ++ keywords)%string.

(** [show_help]: what it prints, and how it ends.  The current mode is
    read twice, for the list of commands and for the last lines. *)
Definition show_help (self : VoiceAssistantDispatcher) (w : World)
    : list string * exn unit :=
  match get_available_commands self None w with
  | Raise e => ([], Raise e)
  | Ok commands =>
      let by_category := group_by_category commands in
      let printed :=
        [ (newline ++ clipboard ++ " Available Commands:")%string; times "=" 50 ]
        ++ flat_map
             (fun item =>
                (newline ++ upper (fst item) ++ ":")%string
                :: map help_line (snd item))
             by_category in
      match current_mode w with
      | Raise e => (printed, Raise e)
      | Ok mode =>
          (printed
           ++ [ (newline ++ "Current mode: " ++ AssistantMode.value mode)%string;
                "Say 'switch to [mode] mode' to change modes" ],
           Ok tt)
      end
  end.

(** The line of one command in the status text *)
Definition recent_line (cmd : HistoryEntry.t) : string :=
  let status := if HistoryEntry.success cmd then check_mark else cross_mark in
  ("  " ++ status ++ " " ++ HistoryEntry.command cmd)%string.

Definition show_status (w : World) : list string * exn unit :=
  match get_stats w with
  | Raise e => ([], Raise e)
  | Ok stats =>
      let printed :=
        [ (newline ++ bar_chart ++ " Assistant Status:")%string;
          times "=" 30;
          ("Current Mode: " ++ Stats.current_mode stats)%string;
          ("Commands Executed: " ++ str_of_nat (Stats.total_commands stats))%string;
          ("Success Rate: " ++ format_percent (Stats.success_rate stats))%string;
          ("Session Start: " ++ str_of_optional (Stats.session_start stats))%string ] in
      let history := get_command_history 5 w in
      match history with
      | [] => (printed, Ok tt)
      | _ =>
          (printed
           ++ (newline ++ "Recent Commands:")%string
              :: map recent_line (PySeq.slice_from (-3) history),
           Ok tt)
      end
  end.

(** The [except Exception] clause of [process_text_input], for a method
    that returns nothing *)
Definition apology (e : PyExc) : string :=
  (cross_mark ++ " Sorry, something went wrong: " ++ exc_msg e)%string.

Definition except_apology (r : list string * exn unit) : list string :=
  match r with
  | (printed, Ok _) => printed
  | (printed, Raise e) => printed ++ [apology e]
  end.

Definition process_text_input (self : VoiceAssistantDispatcher) (text : string)
    (w : World) : World * list string :=
  if PyStr.startswith (PyStr.lower text) "switch to "
     && PyStr.contains "mode" (PyStr.lower text)
  then handle_mode_switch text w
  else if existsb (String.eqb (PyStr.lower text)) ["help"; "what can you do"]
  then (w, except_apology (show_help self w))
  else if String.eqb (PyStr.lower text) "status"
  then (w, except_apology (show_status w))
  else
    match dispatch clock isoformat os_exec json_dumps self text w with
    | Raise e => (w, [apology e])
    | Ok (result, w) =>
        if CommandResult.success result then
          let response :=
            if PyStr.truthy (CommandResult.output result)
            then (check_mark ++ " " ++ CommandResult.output result)%string
            else (check_mark ++ " Done.")%string in
          (w, [(speaker ++ " " ++ response)%string])
        else
          let response :=
            (cross_mark ++ " "
               ++ (if PyStr.truthy (CommandResult.output result)
                   then CommandResult.output result
                   else "Command failed."))%string in
          let details :=
            match CommandResult.error result with
            | Some error =>
                if PyStr.truthy error
                then [("   Error details: " ++ error)%string]
                else []
            | None => []
            end in
          (w, details ++ [(speaker ++ " " ++ response)%string])
    end.

End Console.

End Assistant.

(* ================================================================== *)
(** * The vocabulary of the specification

    The notions the properties below are stated with.  Each one follows
    the words of the specification; the properties relate them to the
    functions of the model. *)
(* ================================================================== *)

Module Spec.

(** ** Scores *)

(** A binary64 number that is neither a NaN nor negative: a sum of
    positive terms, as every score is. *)
Definition sf_nonneg (x : spec_float) : bool :=
  match x with
  | S754_zero false | S754_infinity false | S754_finite false _ _ => true
  | _ => false
  end.

Definition nonneg (x : float) : Prop := sf_nonneg (Prim2SF x) = true.

(** A binary64 number that is strictly positive (infinity included). *)
Definition sf_positive (x : spec_float) : bool :=
  match x with
  | S754_infinity false | S754_finite false _ _ => true
  | _ => false
  end.

Definition positive (x : float) : Prop := sf_positive (Prim2SF x) = true.

(** A keyword that occurs in the lower-cased input. *)
Definition hits (text keyword : string) : bool :=
  PyStr.contains (PyStr.lower keyword) text.

(** What one keyword contributes to a score, and the score as the sum
    of the contributions of the keywords, in their order. *)
Definition contribution (text keyword : string) : float :=
  let k := PyStr.lower keyword in
  if String.eqb k text then 1.0%float
  else if PyStr.startswith text k then 0.8%float
  else if PyStr.contains k text then 0.5%float
  else 0%float.

Definition accumulated_score (text : string) (cmd : Command.t) : float :=
  fold_left (fun sum keyword => (sum + contribution text keyword)%float)
    (Command.keywords cmd) 0%float.

(** ** Candidates *)

(** A command is offered in a mode when its mode list is empty or
    contains the mode. *)
Definition offered_in (mode : AssistantMode.t) (cmd : Command.t) : Prop :=
  Command.modes cmd = [] \/ In mode (Command.modes cmd).

Definition offered_inb (mode : AssistantMode.t) (cmd : Command.t) : bool :=
  match Command.modes cmd with
  | [] => true
  | modes => AssistantMode.mem mode modes
  end.

(** Candidates in non-increasing order of score. *)
Definition by_score_desc (l : list (Command.t * float)) : Prop :=
  StronglySorted (fun p q => (snd q <=? snd p)%float = true) l.

(** The candidates whose score equals [v]. *)
Definition tied_at (v : float) (l : list (Command.t * float))
    : list (Command.t * float) :=
  filter (fun p => (snd p =? v)%float) l.

(** The candidates of the specification, in catalog order. *)
Definition eligible (commands : PyDict.dict Command.t) (text : string)
    (mode : AssistantMode.t) : list (Command.t * float) :=
  map (fun cmd => (cmd, accumulated_score text cmd))
    (filter (fun cmd => offered_inb mode cmd
                        && (0 <? accumulated_score text cmd)%float)
            (PyDict.values commands)).

(** ** The registry document *)

(** The commands of a list that carry the key [k], the last one first. *)
Definition last_with_key (k : string) (cmds : list Command.t) : option Command.t :=
  find (fun cmd => String.eqb (Command.key cmd) k) (rev cmds).

(** A string that is the value of no member of an enumeration. *)
Definition unknown_category (v : string) : Prop :=
  forall c, CommandCategory.value c <> v.
Definition unknown_environment (v : string) : Prop :=
  forall e, ExecutionEnvironment.value e <> v.
Definition unknown_mode (v : string) : Prop :=
  forall m, AssistantMode.value m <> v.

(** A record that names an unknown category, environment or mode. *)
Definition names_unknown_value (r : RawCommand.t) : Prop :=
  (exists v, RawCommand.category r = Some v /\ unknown_category v)
  \/ (exists v, RawCommand.environment r = Some v /\ unknown_environment v)
  \/ (exists vs v, RawCommand.modes r = Some vs /\ In v vs /\ unknown_mode v).

(** The dictionary after the commands of a list have been stored under
    their keys, one after the other. *)
Definition store_all (cmds : list Command.t) (commands : PyDict.dict Command.t)
    : PyDict.dict Command.t :=
  fold_left (fun d cmd => PyDict.set (Command.key cmd) cmd d) cmds commands.

(** ** The runtime launcher *)

(** The argument vector of the specification for a command of each
    environment; for the native-script environment the encoded
    arguments are appended, and encoding them can fail. *)
Definition launch_args (json_dumps : PyDict.dict string -> exn string)
    (engine : ExecutionEngine) (e : ExecutionEnvironment.t)
    (command : Command.t) (parsed_args : option (PyDict.dict string))
    : exn (list string) :=
  let script := Command.script_path command in
  let declared := Command.args command in
  match e with
  | ExecutionEnvironment.PYTHON =>
      match parsed_args with
      | Some (kv :: rest) =>
          encoded <- json_dumps (kv :: rest) ;;
          Ok ([python_path engine; script] ++ declared ++ ["--parsed-args"; encoded])
      | _ => Ok ([python_path engine; script] ++ declared)
      end
  | ExecutionEnvironment.AUTOHOTKEY => Ok ([ahk_path engine; script] ++ declared)
  | ExecutionEnvironment.JAVA =>
      Ok ((if PyStr.endswith script ".jar"
           then [java_path engine; "-jar"; script]
           else [java_path engine; script]) ++ declared)
  | ExecutionEnvironment.NODEJS => Ok ([node_path engine; script] ++ declared)
  | ExecutionEnvironment.SYSTEM => Ok (PyStr.split script ++ declared)
  end.

(** The outcome of the specification for a child that was started with
    [argv] as the [n]-th one. *)
Definition child_outcome (os_exec : nat -> list string -> exn Completed)
    (n : nat) (argv : list string) : CommandResult.t :=
  let failure e := CommandResult.make false EmptyString (Some (exc_msg e)) in
  match os_exec n argv with
  | Raise e => failure e
  | Ok process =>
      match stdout_decoded process with
      | Raise e => failure e
      | Ok out =>
          if (returncode process =? 0)%Z
          then CommandResult.make true (PyStr.strip out) None
          else match stderr_decoded process with
               | Raise e => failure e
               | Ok err =>
                   CommandResult.make false (PyStr.strip out) (Some (PyStr.strip err))
               end
      end
  end.

(** The world after one more call of [create_subprocess_exec]. *)
Definition log_call (args : list string) (w : World) : World :=
  mkWorld (state w) (state_file w) (exec_calls w ++ [args]) (clock_reads w).

(** ** The history *)

(** The history entry of the specification for one recorded outcome. *)
Definition entry_of (isoformat : Z -> string) (now : Z)
    (command_key input_text : string) (result : CommandResult.t) : HistoryEntry.t :=
  HistoryEntry.mk (isoformat now) command_key input_text
    (CommandResult.success result)
    (if PyStr.truthy (CommandResult.output result)
     then Some (PyStr.take 200 (CommandResult.output result))
     else None).

(** The entries of a run of recorded outcomes, the first of which reads
    the clock for the [n]-th time. *)
Fixpoint entries_from (clock : nat -> Z) (isoformat : Z -> string) (n : nat)
    (records : list (string * string * CommandResult.t)) : list HistoryEntry.t :=
  match records with
  | [] => []
  | (command_key, input_text, result) :: rest =>
      entry_of isoformat (clock n) command_key input_text result
      :: entries_from clock isoformat (S n) rest
  end.

(** The history list a world holds, [state.get("last_commands", [])]. *)
Definition history (w : World) : list HistoryEntry.t :=
  get_default (StateDoc.last_commands (state w)) [].

(** Recording a run of outcomes, one [add_to_history] after another. *)
Definition record_all (clock : nat -> Z) (isoformat : Z -> string)
    (records : list (string * string * CommandResult.t)) (w : World) : World :=
  fold_left (fun w r => add_to_history clock isoformat (fst (fst r)) (snd (fst r)) (snd r) w)
    records w.

(** ** The confirmation flag *)

(** The catalog in which every command [cmd] has its
    [requires_confirmation] flag set to [flag cmd], and nothing else is
    changed. *)
Definition reflag (flag : Command.t -> bool) (commands : PyDict.dict Command.t)
    : PyDict.dict Command.t :=
  map (fun kv => (fst kv, Command.with_requires_confirmation (flag (snd kv)) (snd kv)))
    commands.

(** The same change on one candidate of a match list. *)
Definition reflag_candidate (flag : Command.t -> bool) (p : Command.t * float)
    : Command.t * float :=
  (Command.with_requires_confirmation (flag (fst p)) (fst p), snd p).

(** ** Further notions *)

(** The keys of a list in the order of their first appearance. *)
Fixpoint first_appearances (keys : list string) : list string :=
  match keys with
  | [] => []
  | k :: rest =>
      k :: filter (fun k' => negb (String.eqb k' k)) (first_appearances rest)
  end.

(** Every command of a dictionary is stored under its own key. *)
Definition stored_under_own_key (commands : PyDict.dict Command.t) : Prop :=
  forall k cmd, In (k, cmd) commands -> Command.key cmd = k.

(** The file holds what the [StateManager] holds. *)
Definition in_sync (w : World) : Prop := state_file w = Json (state w).

(** The outcome of a dispatch, with an alias added to the world it
    leaves. *)
Definition keep_alias (alias command_key : string)
    (x : exn (CommandResult.t * World)) : exn (CommandResult.t * World) :=
  match x with
  | Ok (r, w) => Ok (r, add_alias alias command_key w)
  | Raise e => Raise e
  end.

(** What is expected of the rate [successful / total]: it lies between 0
    and 1, is 1 exactly when every command succeeded and 0 exactly when
    none did. *)
Definition rate_in_range (total successful : nat) : bool :=
  let x := true_div successful total in
  (0 <=? x)%float && (x <=? 1)%float
  && Bool.eqb (x =? 1)%float (successful =? total)%nat
  && Bool.eqb (x =? 0)%float (successful =? 0)%nat.

(** ** The texts the front end treats itself *)

(** A text that asks for another mode, for the help or for the status. *)
Definition is_switch (text : string) : bool :=
  PyStr.startswith (PyStr.lower text) "switch to "
  && PyStr.contains "mode" (PyStr.lower text).

Definition asks_help (text : string) : bool :=
  String.eqb (PyStr.lower text) "help"
  || String.eqb (PyStr.lower text) "what can you do".

Definition asks_status (text : string) : bool :=
  String.eqb (PyStr.lower text) "status".

Definition is_special (text : string) : bool :=
  is_switch text || asks_help text || asks_status text.

(** The mode a text names: the first, in the order the front end tries
    them, whose value occurs in the lower-cased text. *)
Definition switch_order : list AssistantMode.t :=
  [AssistantMode.CODING; AssistantMode.STUDY; AssistantMode.STREAMING;
   AssistantMode.GENERAL].

Definition named_mode (text : string) : option AssistantMode.t :=
  find (fun mode => PyStr.contains (AssistantMode.value mode) (PyStr.lower text))
    switch_order.

(** The text [switch to <mode> mode]. *)
Definition switch_text (mode : AssistantMode.t) : string :=
  ("switch to " ++ AssistantMode.value mode ++ " mode")%string.

(** The commands of a list that are of one category, in their order. *)
Definition of_category (category : string) (commands : list Command.t)
    : list Command.t :=
  filter (fun cmd => String.eqb (CommandCategory.value (Command.category cmd)) category)
    commands.

(** ** Looking for the interpreters *)

(** [x] is the first element of [l] that has [P], every element before it
    having [Q]. *)
Definition first_such {A} (P Q : A -> Prop) (l : list A) (x : A) : Prop :=
  exists before after, l = before ++ x :: after /\ Forall Q before /\ P x.

(** [path --version] runs and exits with status 0. *)
Definition answers (subprocess_run : list string -> exn Z) (path : string) : Prop :=
  subprocess_run [path; "--version"] = Ok 0%Z.

(** [path --version] exits with another status, or there is no such
    program. *)
Definition declines (subprocess_run : list string -> exn Z) (path : string) : Prop :=
  (exists status, subprocess_run [path; "--version"] = Ok status /\ status <> 0%Z)
  \/ (exists e, subprocess_run [path; "--version"] = Raise e
                /\ exc_type e = FileNotFoundError).

(** Starting [argv] raises [e], which is no [FileNotFoundError]. *)
Definition breaks (subprocess_run : list string -> exn Z) (e : PyExc)
    (argv : list string) : Prop :=
  subprocess_run argv = Raise e /\ exc_type e <> FileNotFoundError.

(** [path] is a file, or a program that can be started, whatever its exit
    status. *)
Definition present (subprocess_run : list string -> exn Z)
    (path_exists : string -> bool) (path : string) : Prop :=
  path_exists path = true
  \/ (path_exists path = false /\ exists status, subprocess_run [path] = Ok status).

(** [path] is no file and no program. *)
Definition missing (subprocess_run : list string -> exn Z)
    (path_exists : string -> bool) (path : string) : Prop :=
  path_exists path = false
  /\ exists e, subprocess_run [path] = Raise e /\ exc_type e = FileNotFoundError.

End Spec.

Import Spec.

(* ================================================================== *)
(** ** Sample surroundings, for running the model on concrete inputs *)
(* ================================================================== *)

Module Sample.

(** The clock advances by a millisecond between two readings. *)
Definition clock (n : nat) : Z := (1000 * Z.of_nat n)%Z.

(** A stand-in for [isoformat]: the microsecond count in decimal. *)
Definition isoformat (now : Z) : string :=
  ("us:" ++ NilZero.string_of_int (Z.to_int now))%string.

(** Every program exists and prints its arguments, the program name and
    the script apart, on one line; [false] as a program fails with
    status 1, and [missing] cannot be started. *)
Definition os_exec (n : nat) (argv : list string) : exn Completed :=
  match argv with
  | "missing" :: _ =>
      Raise (mkExc FileNotFoundError "[Errno 2] No such file or directory: 'missing'")
  | "false" :: _ => Ok (mkCompleted 1 (Ok EmptyString) (Ok "failed "))
  | _ => Ok (mkCompleted 0 (Ok (PyStr.join " " (skipn 2 argv) ++ " ")%string)
               (Ok EmptyString))
  end.

Definition json_dumps (d : PyDict.dict string) : exn string :=
  match d with
  | ("unserializable", _) :: _ =>
      Raise (mkExc TypeError "Object of type set is not JSON serializable")
  | _ => Ok (PyStr.join "," (map (fun kv => (fst kv ++ "=" ++ snd kv)%string) d))
  end.

Definition engine : ExecutionEngine := mkEngine "python" "autohotkey.exe" "java" "node".

Definition world : World :=
  mkWorld (StateDoc.mk (Some "general") (Some []) (Some []) (Some []) (Some "start"))
    NoFile [] 0.

Definition command (key : string) (keywords : list string)
    (environment : environment_field) (script_path : string)
    (modes : list AssistantMode.t) : Command.t :=
  Command.mk key key EmptyString keywords CommandCategory.UTILITY environment
    script_path [] modes false false PyDict.empty.

End Sample.

(** Registry documents and a catalog to run the model on. *)

Definition record_with_unknown_category : RawCommand.t :=
  CommandRegistry.raw "timer" "Timer" "Start a timer" ["timer"] "gaming" "python"
    "scripts/timer.py" None [].

Definition records_with_repeated_key : list RawCommand.t :=
  [ CommandRegistry.raw "timer" "Timer" "Start a timer" ["timer"] "utility"
      "python" "scripts/timer.py" None [];
    CommandRegistry.raw "notes" "Notes" "Take a note" ["note"] "productivity"
      "nodejs" "scripts/notes.js" None ["study"];
    CommandRegistry.raw "timer" "Egg timer" "Boil an egg" ["egg"] "utility"
      "system" "sleep 180" None [] ].

Module Demo.

Definition music : Command.t :=
  Sample.command "music" ["play"; "music"] (Env ExecutionEnvironment.PYTHON)
    "scripts/music.py" [].

Definition video : Command.t :=
  Sample.command "video" ["play"] (Env ExecutionEnvironment.NODEJS)
    "scripts/video.js" [].

Definition build : Command.t :=
  Command.with_requires_confirmation true
    (Sample.command "build" ["build"] (Env ExecutionEnvironment.SYSTEM)
       "make all" [AssistantMode.CODING]).

Definition broken : Command.t :=
  Sample.command "broken" ["broken"] (Env ExecutionEnvironment.SYSTEM)
    "missing --now" [].

Definition registry : PyDict.dict Command.t :=
  PyDict.set "broken" broken
    (PyDict.set "build" build
       (PyDict.set "video" video (PyDict.set "music" music PyDict.empty))).

Definition dispatcher : VoiceAssistantDispatcher :=
  mkDispatcher registry Sample.engine.

Definition coding_world : World := set_mode AssistantMode.CODING Sample.world.

Definition dispatch : string -> World -> exn (CommandResult.t * World) :=
  Dispatcher.dispatch Sample.clock Sample.isoformat Sample.os_exec Sample.json_dumps
    dispatcher.

(** The [n]-th of a run of outcomes to record; its input tells them apart. *)
Definition outcome (n : nat) : string * string * CommandResult.t :=
  ("music", Sample.isoformat (Z.of_nat n), CommandResult.make true "ok" None).

End Demo.

(** Further inputs: a command that has the empty keyword, a state
    document with a mode that does not exist, and what loading and
    dispatching give on the samples above. *)
Module Cases.

Definition always : Command.t :=
  Sample.command "always" ["chime"; EmptyString] (Env ExecutionEnvironment.SYSTEM)
    "chime" [].

Definition registry : PyDict.dict Command.t :=
  PyDict.set "always" always Demo.registry.

Definition notes_record : RawCommand.t :=
  CommandRegistry.raw "notes" "Notes" "Take a note" ["note"] "productivity"
    "nodejs" "scripts/notes.js" None ["study"].

Definition notes : Command.t :=
  match CommandRegistry.build_command notes_record with
  | Ok cmd => cmd
  | Raise _ => Demo.music
  end.

Definition built : list Command.t :=
  match map_exn CommandRegistry.build_command records_with_repeated_key with
  | Ok cmds => cmds
  | Raise _ => []
  end.

Definition catalog : PyDict.dict Command.t :=
  match CommandRegistry._load_commands (RegistryData (Some records_with_repeated_key)) with
  | Ok commands => commands
  | Raise _ => PyDict.empty
  end.

Definition corrupted : World :=
  mkWorld (StateDoc.mk (Some "gaming") (Some []) (Some []) (Some []) (Some "start"))
    NoFile [] 0.

(** The result and the world of [dispatch("play music")]. *)
Definition played : CommandResult.t * World :=
  match Demo.dispatch "play music" Sample.world with
  | Ok p => p
  | Raise _ => (no_match, Sample.world)
  end.

(** The world after a second dispatch, of a command that fails. *)
Definition played_and_failed : World :=
  match Demo.dispatch "broken" (snd played) with
  | Ok p => snd p
  | Raise _ => Sample.world
  end.

(** The front end on the sample surroundings, with words in the place
    of the pictographs. *)
Definition format_percent (x : py_number) : string :=
  match x with
  | PyInt _ => "(int)%"
  | PyFloat _ => "(float)%"
  end.

Definition process_text_input : string -> World -> World * list string :=
  Assistant.process_text_input Sample.clock Sample.isoformat Sample.os_exec
    Sample.json_dumps "(speaker)" "(done)" "(failed)" "(list)" "(chart)" "*"
    format_percent Demo.dispatcher.

End Cases.

(* ================================================================== *)
(** * Properties *)
(* ================================================================== *)

(** ** Binary64 numbers that are sums of positive terms

    A score starts at [0.0] and only ever has one of three positive
    constants added to it.  Such a number is never a NaN and never
    negative; on these numbers [<] is a strict weak order, which is what
    a sort needs. *)

Lemma shr_1_nonneg mrs : (0 <= shr_m mrs)%Z -> (0 <= shr_m (shr_1 mrs))%Z.
Proof.
  destruct mrs as [m r s]; simpl.
  destruct m as [|p|p]; simpl; try lia; destruct p; simpl; lia.
Qed.

Lemma iter_shr_1_nonneg n : forall mrs,
  (0 <= shr_m mrs)%Z -> (0 <= shr_m (iter_pos shr_1 n mrs))%Z.
Proof.
  induction n as [n IH|n IH|]; intros mrs H; simpl.
  - apply IH, IH, shr_1_nonneg, H.
  - apply IH, IH, H.
  - apply shr_1_nonneg, H.
Qed.

Lemma shr_fexp_nonneg m e l :
  (0 <= m)%Z -> (0 <= shr_m (fst (shr_fexp prec emax m e l)))%Z.
Proof.
  intros H. unfold shr_fexp, shr.
  assert (H0 : (0 <= shr_m (shr_record_of_loc m l))%Z).
  { destruct l as [|[]]; simpl; exact H. }
  destruct (fexp prec emax (Zdigits2 m + e) - e)%Z; simpl; auto.
  apply iter_shr_1_nonneg, H0.
Qed.

Lemma round_nearest_even_nonneg m l :
  (0 <= m)%Z -> (0 <= round_nearest_even m l)%Z.
Proof.
  intros H. destruct l as [|[]]; simpl; try lia.
  destruct (Z.even m); lia.
Qed.

Lemma binary_round_aux_nonneg m e l :
  (0 <= m)%Z -> sf_nonneg (binary_round_aux prec emax false m e l) = true.
Proof.
  intros H. unfold binary_round_aux.
  pose proof (shr_fexp_nonneg m e l H) as H1.
  destruct (shr_fexp prec emax m e l) as [mrs' e']; simpl in H1.
  pose proof (shr_fexp_nonneg _ e' loc_Exact
                (round_nearest_even_nonneg _ (loc_of_shr_record mrs') H1)) as H2.
  destruct (shr_fexp prec emax
              (round_nearest_even (shr_m mrs') (loc_of_shr_record mrs')) e' loc_Exact)
    as [mrs'' e'']; simpl in H2.
  destruct (shr_m mrs'') as [|p|p]; try reflexivity.
  - destruct (e'' <=? emax - prec)%Z; reflexivity.
  - lia.
Qed.

Lemma SF64add_nonneg x y :
  sf_nonneg x = true -> sf_nonneg y = true -> sf_nonneg (SF64add x y) = true.
Proof.
  destruct x as [[]|[]| |[] mx ex]; try discriminate;
  destruct y as [[]|[]| |[] my ey]; try discriminate; intros _ _; try reflexivity.
  unfold SF64add, SFadd, binary_normalize; simpl cond_Zopp.
  set (a := fst (shl_align mx ex (Z.min ex ey))).
  set (b := fst (shl_align my ey (Z.min ex ey))).
  change (Z.pos a + Z.pos b)%Z with (Z.pos (a + b)).
  unfold binary_round.
  destruct (shl_align (a + b) (Z.min ex ey) _) as [mz ez].
  apply binary_round_aux_nonneg. lia.
Qed.

Lemma SF64add_zero_r x :
  sf_nonneg x = true -> SF64add x (S754_zero false) = x.
Proof. destruct x as [[]|[]| |[] m e]; try discriminate; reflexivity. Qed.

Lemma shr_1_div2 mrs : (0 <= shr_m mrs)%Z -> shr_m (shr_1 mrs) = (shr_m mrs / 2)%Z.
Proof.
  destruct mrs as [m r s]; simpl. intros H.
  destruct m as [|p|p]; [reflexivity| |lia].
  destruct p as [p|p|]; simpl shr_m.
  - rewrite Pos2Z.inj_xI. apply Z.div_unique with (r := 1%Z); lia.
  - rewrite Pos2Z.inj_xO. apply Z.div_unique with (r := 0%Z); lia.
  - reflexivity.
Qed.

Lemma iter_shr_1_div n : forall mrs,
  (0 <= shr_m mrs)%Z ->
  shr_m (iter_pos shr_1 n mrs) = (shr_m mrs / 2 ^ Z.pos n)%Z.
Proof.
  induction n as [n IH|n IH|]; intros mrs H; simpl iter_pos.
  - rewrite IH by (apply iter_shr_1_nonneg, shr_1_nonneg, H).
    rewrite IH by (apply shr_1_nonneg, H).
    rewrite shr_1_div2 by exact H.
    rewrite !Z.div_div by lia.
    f_equal. rewrite Pos2Z.inj_xI, Z.pow_add_r, Z.pow_mul_r by lia.
    change (2 ^ 2)%Z with 4%Z. change (2 ^ 1)%Z with 2%Z.
    replace (4 ^ Z.pos n)%Z with (2 ^ Z.pos n * 2 ^ Z.pos n)%Z; [lia|].
    rewrite <- Z.pow_add_r by lia. replace (Z.pos n + Z.pos n)%Z with (2 * Z.pos n)%Z by lia.
    rewrite Z.pow_mul_r by lia. reflexivity.
  - rewrite IH by (apply iter_shr_1_nonneg, H).
    rewrite IH by exact H.
    rewrite Z.div_div by lia.
    f_equal. rewrite Pos2Z.inj_xO.
    rewrite <- Z.pow_add_r by lia. f_equal. lia.
  - rewrite shr_1_div2 by exact H. reflexivity.
Qed.

Lemma digits2_pos_lower m : (2 ^ (Z.pos (digits2_pos m) - 1) <= Z.pos m)%Z.
Proof.
  induction m as [m IH|m IH|]; simpl digits2_pos.
  - rewrite Pos2Z.inj_succ. replace (Z.succ (Z.pos (digits2_pos m)) - 1)%Z
      with (Z.succ (Z.pos (digits2_pos m) - 1)) by lia.
    rewrite Z.pow_succ_r by lia. lia.
  - rewrite Pos2Z.inj_succ. replace (Z.succ (Z.pos (digits2_pos m)) - 1)%Z
      with (Z.succ (Z.pos (digits2_pos m) - 1)) by lia.
    rewrite Z.pow_succ_r by lia. lia.
  - simpl. lia.
Qed.

Lemma shr_fexp_positive m e l :
  (emin <= e)%Z ->
  (0 < shr_m (fst (shr_fexp prec emax (Z.pos m) e l)))%Z
  /\ (emin <= snd (shr_fexp prec emax (Z.pos m) e l))%Z.
Proof.
  intros He. unfold shr_fexp, shr.
  assert (H0 : shr_m (shr_record_of_loc (Z.pos m) l) = Z.pos m).
  { destruct l as [|[]]; reflexivity. }
  destruct (fexp prec emax (Zdigits2 (Z.pos m) + e) - e)%Z as [|n|n] eqn:En;
    simpl fst; simpl snd; try (rewrite H0; split; lia).
  rewrite iter_shr_1_div by (rewrite H0; lia). rewrite H0.
  unfold fexp in En. simpl Zdigits2 in En.
  assert (Hn : (Z.pos n <= Z.pos (digits2_pos m) - 1)%Z).
  { unfold prec in *. lia. }
  split; [|lia].
  apply Z.div_str_pos. split; [apply Z.pow_pos_nonneg; lia|].
  etransitivity; [|apply digits2_pos_lower].
  apply Z.pow_le_mono_r; lia.
Qed.

Lemma round_nearest_even_lower m l : (m <= round_nearest_even m l)%Z.
Proof. destruct l as [|[]]; simpl; try lia. destruct (Z.even m); lia. Qed.

Lemma binary_round_aux_positive m e l :
  (emin <= e)%Z ->
  sf_positive (binary_round_aux prec emax false (Z.pos m) e l) = true.
Proof.
  intros He. unfold binary_round_aux.
  destruct (shr_fexp_positive m e l He) as [H1 H1'].
  destruct (shr_fexp prec emax (Z.pos m) e l) as [mrs' e']; simpl in H1, H1'.
  pose proof (round_nearest_even_lower (shr_m mrs') (loc_of_shr_record mrs')) as Hr.
  destruct (round_nearest_even (shr_m mrs') (loc_of_shr_record mrs')) as [|m2|m2];
    try lia.
  destruct (shr_fexp_positive m2 e' loc_Exact H1') as [H2 _].
  destruct (shr_fexp prec emax (Z.pos m2) e' loc_Exact) as [mrs'' e'']; simpl in H2.
  destruct (shr_m mrs'') as [|p|p]; try lia.
  destruct (e'' <=? emax - prec)%Z; reflexivity.
Qed.

Lemma valid_exponent s m e :
  valid_binary (S754_finite s m e) = true -> (emin <= e)%Z.
Proof.
  unfold SpecFloat.valid_binary, bounded, canonical_mantissa. intros H.
  apply andb_true_iff in H. destruct H as [H _]. apply Z.eqb_eq in H.
  unfold fexp in H. lia.
Qed.

Lemma SF64add_positive x y :
  valid_binary x = true -> valid_binary y = true ->
  sf_nonneg x = true -> sf_positive y = true -> sf_positive (SF64add x y) = true.
Proof.
  intros Vx Vy.
  destruct x as [[]|[]| |[] mx ex]; try discriminate;
  destruct y as [[]|[]| |[] my ey]; try discriminate; intros _ _; try reflexivity.
  apply valid_exponent in Vx, Vy.
  unfold SF64add, SFadd, binary_normalize; simpl cond_Zopp.
  set (a := fst (shl_align mx ex (Z.min ex ey))).
  set (b := fst (shl_align my ey (Z.min ex ey))).
  change (Z.pos a + Z.pos b)%Z with (Z.pos (a + b)).
  unfold binary_round, shl_align.
  destruct (fexp prec emax (Z.pos (digits2_pos (a + b)) + Z.min ex ey) - Z.min ex ey)%Z
    eqn:E; apply binary_round_aux_positive; unfold fexp in *; lia.
Qed.

Lemma SFltb_zero_positive x :
  sf_nonneg x = true -> SFltb (S754_zero false) x = sf_positive x.
Proof. destruct x as [[]|[]| |[] m e]; try discriminate; reflexivity. Qed.

Lemma SFltb_nonneg_irrefl x : sf_nonneg x = true -> SFltb x x = false.
Proof.
  destruct x as [[]|[]| |[] m e]; try discriminate; intros _; try reflexivity.
  unfold SFltb, SFcompare. rewrite Z.compare_refl.
  change (Pos.compare_cont Eq m m) with (Pos.compare m m).
  rewrite Pos.compare_refl. reflexivity.
Qed.

Lemma SFleb_nonneg x y :
  sf_nonneg x = true -> sf_nonneg y = true -> SFleb y x = negb (SFltb x y).
Proof.
  destruct x as [[]|[]| |[] mx ex]; try discriminate;
  destruct y as [[]|[]| |[] my ey]; try discriminate; intros _ _; try reflexivity.
  unfold SFleb, SFltb, SFcompare.
  change (Pos.compare_cont Eq ?a ?b) with (Pos.compare a b).
  rewrite (Z.compare_antisym ex ey), (Pos.compare_antisym mx my).
  destruct (ex ?= ey)%Z; simpl; try reflexivity.
  destruct (mx ?= my)%positive; reflexivity.
Qed.

Lemma SFltb_nonneg_negtrans x y z :
  sf_nonneg x = true -> sf_nonneg y = true -> sf_nonneg z = true ->
  SFltb x y = false -> SFltb y z = false -> SFltb x z = false.
Proof.
  destruct x as [[]|[]| |[] mx ex]; try discriminate;
  destruct y as [[]|[]| |[] my ey]; try discriminate;
  destruct z as [[]|[]| |[] mz ez]; try discriminate; intros _ _ _;
  try reflexivity; try discriminate.
  unfold SFltb, SFcompare.
  change (Pos.compare_cont Eq ?a ?b) with (Pos.compare a b).
  destruct (Z.compare_spec ex ey), (Z.compare_spec ey ez), (Z.compare_spec ex ez);
    try discriminate; try reflexivity; try lia;
  destruct (Pos.compare_spec mx my), (Pos.compare_spec my mz), (Pos.compare_spec mx mz);
    try discriminate; try reflexivity; try lia.
Qed.

Lemma SFltb_nonneg_asym x y :
  sf_nonneg x = true -> sf_nonneg y = true ->
  SFltb x y = true -> SFltb y x = false.
Proof.
  intros Hx Hy H. pose proof (SFleb_nonneg y x Hy Hx) as L.
  destruct (SFltb y x); [|reflexivity].
  revert H L. unfold SFleb, SFltb. destruct (SFcompare x y) as [[]|]; discriminate.
Qed.

Lemma SFeqb_nonneg_tie v x y :
  sf_nonneg x = true -> sf_nonneg y = true ->
  SFeqb x v = true -> SFeqb y v = true -> SFltb x y = false.
Proof.
  destruct x as [[]|[]| |[] mx ex]; try discriminate;
  destruct y as [[]|[]| |[] my ey]; try discriminate; intros _ _;
  destruct v as [[]|[]| |[] mv ev]; try discriminate; try reflexivity.
  unfold SFeqb, SFltb, SFcompare.
  change (Pos.compare_cont Eq ?a ?b) with (Pos.compare a b).
  destruct (Z.compare_spec ex ev); try discriminate.
  destruct (Z.compare_spec ey ev); try discriminate.
  destruct (Pos.compare_spec mx mv); try discriminate.
  destruct (Pos.compare_spec my mv); try discriminate.
  intros _ _. subst. rewrite Z.compare_refl, Pos.compare_refl. reflexivity.
Qed.

Lemma nonneg_add x y : nonneg x -> nonneg y -> nonneg (x + y)%float.
Proof. unfold nonneg. rewrite add_spec. apply SF64add_nonneg. Qed.

Lemma add_zero_r x : nonneg x -> (x + 0)%float = x.
Proof.
  intros H. apply Prim2SF_inj. rewrite add_spec.
  change (Prim2SF 0) with (S754_zero false). apply SF64add_zero_r, H.
Qed.

Lemma ltb_irrefl x : nonneg x -> (x <? x)%float = false.
Proof. rewrite ltb_spec. apply SFltb_nonneg_irrefl. Qed.

Lemma leb_ltb x y : nonneg x -> nonneg y -> (y <=? x)%float = negb (x <? y)%float.
Proof. rewrite leb_spec, ltb_spec. apply SFleb_nonneg. Qed.

Lemma ltb_negtrans x y z :
  nonneg x -> nonneg y -> nonneg z ->
  (x <? y)%float = false -> (y <? z)%float = false -> (x <? z)%float = false.
Proof. rewrite !ltb_spec. apply SFltb_nonneg_negtrans. Qed.

Lemma ltb_asym x y :
  nonneg x -> nonneg y -> (x <? y)%float = true -> (y <? x)%float = false.
Proof. rewrite !ltb_spec. apply SFltb_nonneg_asym. Qed.

Lemma eqb_tie v x y :
  nonneg x -> nonneg y ->
  (x =? v)%float = true -> (y =? v)%float = true -> (x <? y)%float = false.
Proof. rewrite !eqb_spec, ltb_spec. apply SFeqb_nonneg_tie. Qed.

Lemma nonneg_zero : nonneg 0%float.
Proof. reflexivity. Qed.

Lemma positive_nonneg x : positive x -> nonneg x.
Proof.
  unfold positive, nonneg. destruct (Prim2SF x) as [[]|[]| |[] m e]; auto.
Qed.

Lemma positive_add x c : nonneg x -> positive c -> positive (x + c)%float.
Proof.
  unfold nonneg, positive. rewrite add_spec.
  apply SF64add_positive; apply Prim2SF_valid.
Qed.

Lemma ltb_zero_positive x : nonneg x -> (0 <? x)%float = sf_positive (Prim2SF x).
Proof.
  intros H. rewrite ltb_spec. change (Prim2SF 0) with (S754_zero false).
  apply SFltb_zero_positive, H.
Qed.

(** ** The matcher *)

Lemma startswith_refl s : PyStr.startswith s s = true.
Proof.
  induction s as [|c s IH]; simpl; auto.
  rewrite Ascii.eqb_refl. exact IH.
Qed.

Lemma contains_of_startswith s k :
  PyStr.startswith s k = true -> PyStr.contains k s = true.
Proof. intros H. destruct s; cbn [PyStr.contains]; rewrite H; reflexivity. Qed.

Lemma contains_of_eqb s k : String.eqb k s = true -> PyStr.contains k s = true.
Proof.
  intros H. apply String.eqb_eq in H. subst k.
  apply contains_of_startswith, startswith_refl.
Qed.

Lemma mem_In m l : AssistantMode.mem m l = true <-> In m l.
Proof.
  unfold AssistantMode.mem. rewrite existsb_exists. split.
  - intros [x [Hin Heq]]. destruct m, x; try discriminate; exact Hin.
  - intros Hin. exists m. split; [exact Hin | destruct m; reflexivity].
Qed.

Lemma offered_inb_spec mode cmd : offered_inb mode cmd = true <-> offered_in mode cmd.
Proof.
  unfold offered_inb, offered_in.
  destruct (Command.modes cmd) as [|m ms] eqn:E.
  - split; auto.
  - rewrite mem_In. split; [auto | intros [H|H]; [discriminate | exact H]].
Qed.

Lemma skipped_offered mode cmd :
  CommandRegistry.skipped mode cmd = negb (offered_inb mode cmd).
Proof.
  unfold CommandRegistry.skipped, offered_inb.
  destruct (Command.modes cmd); reflexivity.
Qed.

Lemma score_keyword_sum text score keyword :
  nonneg score ->
  CommandRegistry.score_keyword text score keyword
  = (score + contribution text keyword)%float.
Proof.
  intros H. unfold CommandRegistry.score_keyword, contribution. cbv zeta.
  destruct (String.eqb (PyStr.lower keyword) text) eqn:Eeq.
  - rewrite (contains_of_eqb _ _ Eeq). reflexivity.
  - destruct (PyStr.startswith text (PyStr.lower keyword)) eqn:Est.
    + rewrite (contains_of_startswith _ _ Est). reflexivity.
    + destruct (PyStr.contains (PyStr.lower keyword) text);
        [reflexivity | symmetry; apply add_zero_r, H].
Qed.

Lemma nonneg_contribution text keyword : nonneg (contribution text keyword).
Proof.
  unfold contribution. cbv zeta.
  destruct (String.eqb _ _); [reflexivity|].
  destruct (PyStr.startswith _ _); [reflexivity|].
  destruct (PyStr.contains _ _); reflexivity.
Qed.

Lemma fold_score_keyword text keywords : forall score,
  nonneg score ->
  fold_left (CommandRegistry.score_keyword text) keywords score
  = fold_left (fun sum keyword => (sum + contribution text keyword)%float)
      keywords score
  /\ nonneg (fold_left (CommandRegistry.score_keyword text) keywords score).
Proof.
  induction keywords as [|k ks IH]; intros score H; simpl.
  - split; [reflexivity | exact H].
  - rewrite (score_keyword_sum _ _ _ H).
    apply IH, nonneg_add; [exact H | apply nonneg_contribution].
Qed.

Lemma score_of_accumulated text cmd :
  CommandRegistry.score_of text cmd = accumulated_score text cmd.
Proof. apply fold_score_keyword, nonneg_zero. Qed.

Lemma nonneg_score_of text cmd : nonneg (CommandRegistry.score_of text cmd).
Proof. apply fold_score_keyword, nonneg_zero. Qed.

Lemma scan_expected text mode cmds :
  CommandRegistry.scan text mode cmds
  = map (fun cmd => (cmd, accumulated_score text cmd))
      (filter (fun cmd => offered_inb mode cmd
                          && (0 <? accumulated_score text cmd)%float) cmds).
Proof.
  induction cmds as [|cmd rest IH]; simpl; [reflexivity|].
  rewrite skipped_offered, score_of_accumulated.
  destruct (offered_inb mode cmd); simpl; [|exact IH].
  destruct (0 <? accumulated_score text cmd)%float; simpl; rewrite IH; reflexivity.
Qed.

Lemma scan_nonneg text mode cmds :
  Forall (fun p => nonneg (snd p)) (CommandRegistry.scan text mode cmds).
Proof.
  induction cmds as [|cmd rest IH]; simpl; [constructor|].
  destruct (CommandRegistry.skipped mode cmd); [exact IH|].
  destruct (0 <? _)%float; [|exact IH].
  constructor; [apply nonneg_score_of | exact IH].
Qed.

(** A score is strictly positive exactly when one keyword at least
    occurs in the input: the sum of positive binary64 terms never rounds
    to zero. *)
Lemma score_keyword_hit text score keyword :
  nonneg score ->
  if hits text keyword
  then positive (CommandRegistry.score_keyword text score keyword)
  else CommandRegistry.score_keyword text score keyword = score.
Proof.
  intros H. unfold hits, CommandRegistry.score_keyword. cbv zeta.
  destruct (PyStr.contains (PyStr.lower keyword) text); [|reflexivity].
  destruct (String.eqb _ _); [apply positive_add; [exact H | reflexivity]|].
  destruct (PyStr.startswith _ _); apply positive_add; solve [exact H | reflexivity].
Qed.

Lemma fold_score_keyword_hit text keywords : forall score,
  nonneg score ->
  let total := fold_left (CommandRegistry.score_keyword text) keywords score in
  (positive score -> positive total)
  /\ (if existsb (hits text) keywords then positive total else total = score).
Proof.
  induction keywords as [|k ks IH]; intros score H; cbv zeta; cbn [fold_left existsb].
  - split; [auto | reflexivity].
  - pose proof (score_keyword_hit text score k H) as Hk.
    assert (Hnn : nonneg (CommandRegistry.score_keyword text score k)).
    { destruct (hits text k); [apply positive_nonneg, Hk | rewrite Hk; exact H]. }
    destruct (IH _ Hnn) as [Hpos Hrest]. split.
    + intros Hs. apply Hpos.
      destruct (hits text k); [exact Hk | rewrite Hk; exact Hs].
    + destruct (hits text k); cbn [orb]; [apply Hpos, Hk|].
      rewrite Hk in Hrest |- *. exact Hrest.
Qed.

Lemma score_positive_iff_hit text cmd :
  (0 <? CommandRegistry.score_of text cmd)%float
  = existsb (hits text) (Command.keywords cmd).
Proof.
  rewrite (ltb_zero_positive _ (nonneg_score_of text cmd)).
  unfold CommandRegistry.score_of.
  destruct (fold_score_keyword_hit text (Command.keywords cmd) _ nonneg_zero) as [_ H].
  destruct (existsb (hits text) (Command.keywords cmd)); [exact H|].
  rewrite H. reflexivity.
Qed.

(** *** The sort *)

Lemma insert_by_score_perm x l :
  Permutation (CommandRegistry.insert_by_score x l) (x :: l).
Proof.
  induction l as [|y l IH]; simpl; [reflexivity|].
  destruct (snd x <? snd y)%float; [|reflexivity].
  rewrite IH. apply perm_swap.
Qed.

Lemma sort_by_score_perm l : Permutation (CommandRegistry.sort_by_score l) l.
Proof.
  induction l as [|x l IH]; simpl; [reflexivity|].
  rewrite insert_by_score_perm, IH. reflexivity.
Qed.

Lemma insert_by_score_sorted x l :
  nonneg (snd x) -> Forall (fun p => nonneg (snd p)) l ->
  by_score_desc l -> by_score_desc (CommandRegistry.insert_by_score x l).
Proof.
  unfold by_score_desc. intros Hx Hl Hs.
  induction l as [|y l IH]; simpl.
  - repeat constructor.
  - inversion Hl as [|? ? Hy Hl']; subst.
    inversion Hs as [|? ? Hs' Hall]; subst.
    destruct (snd x <? snd y)%float eqn:E.
    + constructor; [apply IH; assumption|].
      apply (Permutation_Forall (x := x :: l));
        [symmetry; apply insert_by_score_perm|].
      constructor; [|exact Hall].
      rewrite (leb_ltb _ _ Hy Hx), (ltb_asym _ _ Hx Hy E). reflexivity.
    + constructor; [exact Hs|].
      constructor; [rewrite (leb_ltb _ _ Hx Hy), E; reflexivity|].
      rewrite Forall_forall in Hall, Hl' |- *. intros z Hz.
      specialize (Hall z Hz). specialize (Hl' z Hz). simpl in Hl'.
      rewrite (leb_ltb _ _ Hy Hl') in Hall.
      rewrite (leb_ltb _ _ Hx Hl').
      apply negb_true_iff in Hall. apply negb_true_iff.
      exact (ltb_negtrans _ _ _ Hx Hy Hl' E Hall).
Qed.

Lemma sort_by_score_nonneg l :
  Forall (fun p => nonneg (snd p)) l ->
  Forall (fun p => nonneg (snd p)) (CommandRegistry.sort_by_score l).
Proof.
  apply Permutation_Forall. symmetry. apply sort_by_score_perm.
Qed.

Lemma sort_by_score_sorted l :
  Forall (fun p => nonneg (snd p)) l -> by_score_desc (CommandRegistry.sort_by_score l).
Proof.
  induction l as [|x l IH]; intros H; simpl.
  - constructor.
  - inversion H; subst.
    apply insert_by_score_sorted; auto using sort_by_score_nonneg.
Qed.

Lemma insert_by_score_stable v x l :
  nonneg (snd x) -> Forall (fun p => nonneg (snd p)) l ->
  tied_at v (CommandRegistry.insert_by_score x l) = tied_at v (x :: l).
Proof.
  unfold tied_at. intros Hx Hl.
  induction l as [|y l IH]; [reflexivity|].
  inversion Hl as [|? ? Hy Hl']; subst. cbn [CommandRegistry.insert_by_score].
  destruct (snd x <? snd y)%float eqn:E; [|reflexivity].
  cbn [filter]. rewrite (IH Hl'). cbn [filter].
  destruct (snd x =? v)%float eqn:Ex, (snd y =? v)%float eqn:Ey; try reflexivity.
  exfalso. pose proof (eqb_tie v _ _ Hx Hy Ex Ey) as T.
  congruence.
Qed.

Lemma sort_by_score_stable v l :
  Forall (fun p => nonneg (snd p)) l ->
  tied_at v (CommandRegistry.sort_by_score l) = tied_at v l.
Proof.
  induction l as [|x l IH]; intros H; [reflexivity|].
  inversion H; subst. cbn [CommandRegistry.sort_by_score].
  rewrite insert_by_score_stable; auto using sort_by_score_nonneg.
  unfold tied_at in *. cbn [filter]. rewrite IH by assumption. reflexivity.
Qed.

(** The three properties pin the result down: a list that is a
    permutation of the candidates, in non-increasing order of score and
    with ties in their original order is the list the model computes,
    whichever stable sort produced it. *)
Lemma eqb_of_leb x y :
  nonneg x -> nonneg y ->
  (x <=? y)%float = true -> (y <=? x)%float = true -> (x =? y)%float = true.
Proof.
  unfold nonneg. rewrite !leb_spec, eqb_spec.
  generalize (Prim2SF x) (Prim2SF y). clear. intros a b Ha Hb.
  destruct a as [[]|[]| |[] ma ea]; try discriminate;
  destruct b as [[]|[]| |[] mb eb]; try discriminate; try reflexivity;
    try discriminate.
  unfold SFleb, SFeqb, SFcompare.
  change (Pos.compare_cont Eq ?p ?q) with (Pos.compare p q).
  rewrite (Z.compare_antisym ea eb), (Pos.compare_antisym ma mb).
  destruct (ea ?= eb)%Z; simpl; try discriminate; try reflexivity.
  destruct (ma ?= mb)%positive; simpl; try discriminate; reflexivity.
Qed.

Lemma eqb_refl_nonneg x : nonneg x -> (x =? x)%float = true.
Proof.
  intros H. apply eqb_of_leb; try exact H;
    rewrite (leb_ltb _ _ H H), (ltb_irrefl _ H); reflexivity.
Qed.

Lemma stable_sort_unique (r1 : list (Command.t * float)) : forall r2,
  Forall (fun p => nonneg (snd p)) r1 ->
  Permutation r1 r2 -> by_score_desc r1 -> by_score_desc r2 ->
  (forall v, tied_at v r1 = tied_at v r2) ->
  r1 = r2.
Proof.
  unfold by_score_desc.
  induction r1 as [|x r1 IH]; intros r2 Hnn Hperm Hs1 Hs2 Htie.
  - apply Permutation_nil in Hperm. subst. reflexivity.
  - destruct r2 as [|y r2];
      [apply Permutation_sym, Permutation_nil in Hperm; discriminate|].
    inversion Hnn as [|? ? Hx Hnn1]; subst.
    inversion Hs1 as [|? ? Hs1' Hall1]; subst.
    inversion Hs2 as [|? ? Hs2' Hall2]; subst.
    assert (Hnn2 : Forall (fun p => nonneg (snd p)) (y :: r2)).
    { eapply Permutation_Forall; [exact Hperm | exact Hnn]. }
    inversion Hnn2 as [|? ? Hy Hnn2']; subst.
    assert (Hyx : (snd y <=? snd x)%float = true).
    { assert (Hin : In y (x :: r1)).
      { eapply Permutation_in; [symmetry; exact Hperm | left; reflexivity]. }
      destruct Hin as [->|Hin].
      - rewrite (leb_ltb _ _ Hx Hx), (ltb_irrefl _ Hx). reflexivity.
      - rewrite Forall_forall in Hall1. exact (Hall1 y Hin). }
    assert (Hxy : (snd x <=? snd y)%float = true).
    { assert (Hin : In x (y :: r2)).
      { eapply Permutation_in; [exact Hperm | left; reflexivity]. }
      destruct Hin as [->|Hin].
      - rewrite (leb_ltb _ _ Hy Hy), (ltb_irrefl _ Hy). reflexivity.
      - rewrite Forall_forall in Hall2. exact (Hall2 x Hin). }
    assert (Heq : x = y).
    { pose proof (Htie (snd x)) as T. unfold tied_at in T. cbn [filter] in T.
      rewrite (eqb_refl_nonneg _ Hx) in T.
      rewrite (eqb_of_leb _ _ Hy Hx Hyx Hxy) in T. congruence. }
    subst y. f_equal. apply IH; try assumption.
    + eapply Permutation_cons_inv. exact Hperm.
    + intros v. pose proof (Htie v) as T. unfold tied_at in *. cbn [filter] in T.
      destruct (snd x =? v)%float; congruence.
Qed.

Lemma In_eligible commands text mode cmd score :
  In (cmd, score) (eligible commands text mode)
  <-> In cmd (PyDict.values commands) /\ offered_in mode cmd
      /\ score = accumulated_score text cmd /\ (0 <? score)%float = true.
Proof.
  unfold eligible. rewrite in_map_iff. split.
  - intros [c [Heq Hin]]. inversion Heq; subst.
    apply filter_In in Hin. destruct Hin as [Hin Hb].
    apply andb_true_iff in Hb. destruct Hb as [Hm Hs].
    rewrite offered_inb_spec in Hm. auto.
  - intros [Hin [Hm [Hs Hp]]]. subst score. exists cmd. split; [reflexivity|].
    apply filter_In. split; [exact Hin|].
    apply andb_true_iff. rewrite offered_inb_spec. auto.
Qed.

Lemma find_matches_eligible commands user_input mode :
  CommandRegistry.find_matches commands user_input mode
  = CommandRegistry.sort_by_score (eligible commands (PyStr.lower user_input) mode).
Proof.
  unfold CommandRegistry.find_matches, eligible. cbv zeta.
  rewrite scan_expected. reflexivity.
Qed.

Lemma eligible_nonneg commands text mode :
  Forall (fun p => nonneg (snd p)) (eligible commands text mode).
Proof. unfold eligible. rewrite <- scan_expected. apply scan_nonneg. Qed.

Lemma In_find_matches commands user_input mode cmd score :
  In (cmd, score) (CommandRegistry.find_matches commands user_input mode)
  <-> In cmd (PyDict.values commands) /\ offered_in mode cmd
      /\ score = accumulated_score (PyStr.lower user_input) cmd
      /\ (0 <? score)%float = true.
Proof.
  rewrite <- In_eligible, find_matches_eligible.
  split; apply Permutation_in;
    [apply sort_by_score_perm | symmetry; apply sort_by_score_perm].
Qed.

Lemma find_matches_determined commands user_input mode r :
  let candidates := eligible commands (PyStr.lower user_input) mode in
  Permutation r candidates -> by_score_desc r ->
  (forall v, tied_at v r = tied_at v candidates) ->
  r = CommandRegistry.find_matches commands user_input mode.
Proof.
  intros candidates Hperm Hsorted Htie. symmetry.
  pose proof (eligible_nonneg commands (PyStr.lower user_input) mode) as Hnn.
  fold candidates in Hnn. rewrite find_matches_eligible. fold candidates.
  apply stable_sort_unique.
  - apply sort_by_score_nonneg, Hnn.
  - rewrite sort_by_score_perm. symmetry. exact Hperm.
  - apply sort_by_score_sorted, Hnn.
  - exact Hsorted.
  - intros v. rewrite sort_by_score_stable by exact Hnn. symmetry. apply Htie.
Qed.

(** No candidate at all: no command offered in the mode has a keyword
    that occurs in the input. *)
Lemma find_matches_nil_iff commands user_input mode :
  CommandRegistry.find_matches commands user_input mode = []
  <-> forall cmd, In cmd (PyDict.values commands) -> offered_in mode cmd ->
                  existsb (hits (PyStr.lower user_input)) (Command.keywords cmd) = false.
Proof.
  split.
  - intros Hnil cmd Hin Hoff.
    destruct (existsb _ _) eqn:E; [|reflexivity]. exfalso.
    rewrite <- score_positive_iff_hit in E.
    assert (H : In (cmd, CommandRegistry.score_of (PyStr.lower user_input) cmd)
                   (CommandRegistry.find_matches commands user_input mode)).
    { apply In_find_matches. rewrite <- score_of_accumulated. auto. }
    rewrite Hnil in H. destruct H.
  - intros H.
    destruct (CommandRegistry.find_matches commands user_input mode)
      as [|[cmd score] rest] eqn:E; [reflexivity|]. exfalso.
    assert (Hin : In (cmd, score)
                    (CommandRegistry.find_matches commands user_input mode)).
    { rewrite E. left. reflexivity. }
    apply In_find_matches in Hin. destruct Hin as [Hin [Hoff [Hs Hpos]]].
    subst score. rewrite <- score_of_accumulated, score_positive_iff_hit in Hpos.
    rewrite (H cmd Hin Hoff) in Hpos. discriminate.
Qed.

(** C1.  For every catalog, input text and mode, [find_matches] returns
    exactly the commands of the catalog that are offered in the mode
    (their mode list is empty or contains it) and whose score is strictly
    positive, each paired with its score: the sum, taken in binary64
    arithmetic in the order of the keywords, of 1.0, 0.8, 0.5 or 0 as the
    lower-cased keyword equals, starts, occurs elsewhere in or does not
    occur in the lower-cased input.  The result is in non-increasing
    order of score, and candidates of equal score keep their catalog
    order. *)
Theorem find_matches_spec :
  forall (commands : PyDict.dict Command.t) (user_input : string)
         (mode : AssistantMode.t),
    let text := PyStr.lower user_input in
    let found := CommandRegistry.find_matches commands user_input mode in
    (forall cmd score,
        In (cmd, score) found
        <-> In cmd (PyDict.values commands) /\ offered_in mode cmd
            /\ score = accumulated_score text cmd /\ (0 <? score)%float = true)
    /\ Permutation found (eligible commands text mode)
    /\ by_score_desc found
    /\ (forall v, tied_at v found = tied_at v (eligible commands text mode)).
Proof.
  intros commands user_input mode text found.
  unfold found, text. rewrite find_matches_eligible.
  pose proof (eligible_nonneg commands (PyStr.lower user_input) mode) as Hnn.
  split; [|split; [|split]].
  - intros cmd score. rewrite <- find_matches_eligible. apply In_find_matches.
  - apply sort_by_score_perm.
  - apply sort_by_score_sorted, Hnn.
  - intros v. apply sort_by_score_stable, Hnn.
Qed.

Example find_matches_default_registry :
  match CommandRegistry._load_commands RegistryMissing with
  | Ok commands =>
      map (fun p => (Command.key (fst p), snd p))
        (CommandRegistry.find_matches commands "Open audio app" AssistantMode.GENERAL)
      = [("app_launcher", 1.3%float); ("voicemeeter_control", 0.5%float)]
  | Raise _ => False
  end.
Proof. vm_compute. reflexivity. Qed.

(** ** Loading the registry *)

Lemma category_of_unknown v :
  unknown_category v ->
  CommandCategory.of_value v = Raise (not_a_valid v "CommandCategory").
Proof.
  intros H. unfold CommandCategory.of_value.
  destruct (find _ _) as [c|] eqn:E; [|reflexivity].
  apply find_some in E. destruct E as [_ E]. apply String.eqb_eq in E.
  destruct (H c E).
Qed.

Lemma environment_of_unknown v :
  unknown_environment v ->
  ExecutionEnvironment.of_value v = Raise (not_a_valid v "ExecutionEnvironment").
Proof.
  intros H. unfold ExecutionEnvironment.of_value.
  destruct (find _ _) as [c|] eqn:E; [|reflexivity].
  apply find_some in E. destruct E as [_ E]. apply String.eqb_eq in E.
  destruct (H c E).
Qed.

Lemma mode_of_unknown v :
  unknown_mode v -> AssistantMode.of_value v = Raise (not_a_valid v "AssistantMode").
Proof.
  intros H. unfold AssistantMode.of_value.
  destruct (find _ _) as [c|] eqn:E; [|reflexivity].
  apply find_some in E. destruct E as [_ E]. apply String.eqb_eq in E.
  destruct (H c E).
Qed.

Lemma map_exn_raises {A B} (f : A -> exn B) l a e :
  In a l -> f a = Raise e -> exists e', map_exn f l = Raise e'.
Proof.
  induction l as [|x l IH]; intros Hin Hf; [destruct Hin|].
  simpl. destruct Hin as [->|Hin].
  - rewrite Hf. simpl. eauto.
  - destruct (f x); simpl; [|eauto].
    destruct (IH Hin Hf) as [e' ->]. simpl. eauto.
Qed.

Lemma build_command_rejects r :
  names_unknown_value r -> exists e, CommandRegistry.build_command r = Raise e.
Proof.
  intros H. unfold CommandRegistry.build_command.
  destruct (RawCommand.key r); simpl; [|eauto].
  destruct (RawCommand.name r); simpl; [|eauto].
  destruct (RawCommand.description r); simpl; [|eauto].
  destruct (RawCommand.keywords r); simpl; [|eauto].
  destruct (RawCommand.category r) as [cv|] eqn:Ec; simpl; [|eauto].
  destruct (CommandCategory.of_value cv) as [c|] eqn:Ecv; simpl; [|eauto].
  destruct (RawCommand.environment r) as [ev|] eqn:Ee; simpl; [|eauto].
  destruct (ExecutionEnvironment.of_value ev) as [e|] eqn:Eev; simpl; [|eauto].
  destruct (RawCommand.script_path r); simpl; [|eauto].
  destruct H as [[v [Hv Hu]]|[[v [Hv Hu]]|[vs [v [Hv [Hin Hu]]]]]].
  - assert (cv = v) by congruence. subst cv.
    rewrite (category_of_unknown _ Hu) in Ecv. discriminate.
  - assert (ev = v) by congruence. subst ev.
    rewrite (environment_of_unknown _ Hu) in Eev. discriminate.
  - rewrite Hv. simpl.
    destruct (map_exn_raises AssistantMode.of_value vs v _ Hin (mode_of_unknown _ Hu))
      as [e' ->].
    simpl. eauto.
Qed.

Lemma load_records_raises records : forall commands r e,
  In r records -> CommandRegistry.build_command r = Raise e ->
  exists e', CommandRegistry.load_records records commands = Raise e'.
Proof.
  induction records as [|x records IH]; intros commands r e Hin Hr; [destruct Hin|].
  simpl. destruct Hin as [->|Hin].
  - rewrite Hr. simpl. eauto.
  - destruct (CommandRegistry.build_command x); simpl; [|eauto].
    eapply IH; eauto.
Qed.

(** C9.  When a record of the registry document names a category, an
    environment or a mode that is no member of its enumeration, that
    record is rejected (building the command raises) and loading the
    document fails. *)
Theorem load_rejects_unknown_enum_value :
  forall (records : list RawCommand.t) (r : RawCommand.t),
    In r records ->
    names_unknown_value r ->
    (exists e, CommandRegistry.build_command r = Raise e)
    /\ (exists e, CommandRegistry._load_commands (RegistryData (Some records)) = Raise e).
Proof.
  intros records r Hin Hbad.
  destruct (build_command_rejects r Hbad) as [e He].
  split; [eauto|].
  simpl. eapply load_records_raises; eauto.
Qed.

Lemma load_rejects_unknown_enum_value_witness :
  (exists e, CommandRegistry.build_command record_with_unknown_category = Raise e)
  /\ (exists e, CommandRegistry._load_commands
                  (RegistryData (Some (CommandRegistry.default_commands
                                         ++ [record_with_unknown_category]))) = Raise e).
Proof.
  apply (load_rejects_unknown_enum_value
           (CommandRegistry.default_commands ++ [record_with_unknown_category])
           record_with_unknown_category).
  - simpl. auto.
  - left. exists "gaming". split; [reflexivity|].
    intros c; destruct c; discriminate.
Defined.

Example unknown_category_message :
  CommandRegistry._load_commands (RegistryData (Some [record_with_unknown_category]))
  = Raise (mkExc ValueError "'gaming' is not a valid CommandCategory").
Proof. reflexivity. Qed.

(** *** Assignment to a dictionary *)

Section DictFacts.

Context {V : Type}.
Implicit Types (d : PyDict.dict V) (k : string) (v : V).

Lemma keys_set k v d :
  PyDict.keys (PyDict.set k v d)
  = if existsb (String.eqb k) (PyDict.keys d) then PyDict.keys d
    else PyDict.keys d ++ [k].
Proof.
  unfold PyDict.keys.
  induction d as [|[k' v'] d IH]; simpl; [reflexivity|].
  rewrite (String.eqb_sym k k').
  destruct (String.eqb k' k); simpl; [reflexivity|].
  rewrite IH. destruct (existsb _ _); reflexivity.
Qed.

Lemma NoDup_keys_set k v d :
  NoDup (PyDict.keys d) -> NoDup (PyDict.keys (PyDict.set k v d)).
Proof.
  intros H. rewrite keys_set.
  destruct (existsb (String.eqb k) (PyDict.keys d)) eqn:E; [exact H|].
  apply NoDup_app; [exact H | repeat constructor; intros [] |].
  intros x Hx [<-|[]].
  assert (T : existsb (String.eqb k) (PyDict.keys d) = true).
  { apply existsb_exists. exists k. split; [exact Hx | apply String.eqb_refl]. }
  congruence.
Qed.

Lemma get_set k k' v d :
  PyDict.get k' (PyDict.set k v d)
  = if String.eqb k k' then Some v else PyDict.get k' d.
Proof.
  induction d as [|[k0 v0] d IH]; simpl.
  - reflexivity.
  - destruct (String.eqb k0 k) eqn:E0; simpl.
    + apply String.eqb_eq in E0. subst k0.
      destruct (String.eqb k k'); reflexivity.
    + destruct (String.eqb k0 k') eqn:E1; [|exact IH].
      apply String.eqb_eq in E1. subst k0. rewrite String.eqb_sym, E0. reflexivity.
Qed.

End DictFacts.

Lemma load_records_store records : forall commands cmds,
  map_exn CommandRegistry.build_command records = Ok cmds ->
  CommandRegistry.load_records records commands = Ok (store_all cmds commands).
Proof.
  induction records as [|r records IH]; intros commands cmds H; simpl in *.
  - inversion H; subst. reflexivity.
  - destruct (CommandRegistry.build_command r) as [cmd|]; simpl in *; [|discriminate].
    destruct (map_exn CommandRegistry.build_command records) as [rest|] eqn:E;
      simpl in *; [|discriminate].
    inversion H; subst. simpl. apply IH. reflexivity.
Qed.

Lemma NoDup_keys_store_all cmds : forall commands,
  NoDup (PyDict.keys commands) -> NoDup (PyDict.keys (store_all cmds commands)).
Proof.
  induction cmds as [|cmd cmds IH]; intros commands H; simpl; [exact H|].
  apply IH, NoDup_keys_set, H.
Qed.

Lemma find_last {A} (p : A -> bool) l x :
  find p (l ++ [x])
  = match find p l with
    | Some y => Some y
    | None => if p x then Some x else None
    end.
Proof.
  induction l as [|y l IH]; simpl; [reflexivity|].
  destruct (p y); [reflexivity | exact IH].
Qed.

Lemma get_store_all k cmds : forall commands,
  PyDict.get k (store_all cmds commands)
  = match last_with_key k cmds with
    | Some cmd => Some cmd
    | None => PyDict.get k commands
    end.
Proof.
  unfold last_with_key.
  induction cmds as [|cmd cmds IH]; intros commands; simpl; [reflexivity|].
  rewrite IH, find_last, get_set.
  destruct (find _ (rev cmds)); [reflexivity|].
  destruct (String.eqb (Command.key cmd) k); reflexivity.
Qed.

Lemma In_keys_store_all k cmds : forall commands,
  In k (PyDict.keys (store_all cmds commands))
  <-> In k (map Command.key cmds) \/ In k (PyDict.keys commands).
Proof.
  induction cmds as [|cmd cmds IH]; intros commands; simpl; [tauto|].
  rewrite IH, keys_set.
  destruct (existsb (String.eqb (Command.key cmd)) (PyDict.keys commands)) eqn:E.
  - apply existsb_exists in E. destruct E as [x [Hx E]].
    apply String.eqb_eq in E. subst x. intuition (subst; auto).
  - rewrite in_app_iff. simpl. tauto.
Qed.

(** C10.  A registry document whose records are all well formed loads
    without error even when several records carry the same key: the
    catalog then holds each key once, and looking a key up gives the
    command of the last record that carries it. *)
Theorem load_last_record_wins :
  forall (records : list RawCommand.t) (cmds : list Command.t),
    map_exn CommandRegistry.build_command records = Ok cmds ->
    exists commands,
      CommandRegistry._load_commands (RegistryData (Some records)) = Ok commands
      /\ NoDup (PyDict.keys commands)
      /\ (forall k, In k (PyDict.keys commands) <-> In k (map Command.key cmds))
      /\ (forall k, PyDict.get k commands = last_with_key k cmds).
Proof.
  intros records cmds H. exists (store_all cmds PyDict.empty).
  split; [|split; [|split]].
  - simpl. apply load_records_store, H.
  - apply NoDup_keys_store_all. constructor.
  - intros k. rewrite In_keys_store_all. simpl. tauto.
  - intros k. rewrite get_store_all. simpl.
    destruct (last_with_key k cmds); reflexivity.
Qed.

Lemma load_last_record_wins_witness :
  exists commands,
    CommandRegistry._load_commands (RegistryData (Some records_with_repeated_key))
    = Ok commands
    /\ PyDict.keys commands = ["timer"; "notes"]
    /\ option_map Command.name (PyDict.get "timer" commands) = Some "Egg timer".
Proof.
  destruct (load_last_record_wins records_with_repeated_key _ eq_refl)
    as [commands [Hload [_ [_ Hget]]]].
  exists commands. split; [exact Hload|].
  rewrite Hget. simpl in Hload. inversion Hload. split; reflexivity.
Defined.

Lemma not_offered mode cmd :
  Command.modes cmd <> [] -> ~ In mode (Command.modes cmd) ->
  offered_inb mode cmd = false.
Proof.
  intros Hne Hnot. destruct (offered_inb mode cmd) eqn:E; [|reflexivity].
  apply offered_inb_spec in E. destruct E; contradiction.
Qed.

(** ** The stateful classes *)

Lemma last_n_app_last_n {A} n (l l2 : list A) :
  PyList.last_n n (PyList.last_n n l ++ l2) = PyList.last_n n (l ++ l2).
Proof.
  unfold PyList.last_n.
  rewrite !skipn_app, !length_app, !length_skipn, skipn_skipn.
  f_equal; f_equal; lia.
Qed.

Lemma last_n_length {A} n (l : list A) : List.length (PyList.last_n n l) <= n.
Proof. unfold PyList.last_n. rewrite length_skipn. lia. Qed.

Lemma last_n_snoc {A} n (l : list A) x :
  PyList.last_n (S n) (l ++ [x]) = PyList.last_n n l ++ [x].
Proof.
  unfold PyList.last_n. rewrite skipn_app, length_app. simpl.
  replace (List.length l + 1 - S n) with (List.length l - n) by lia.
  replace (List.length l - n - List.length l) with 0 by lia. reflexivity.
Qed.

Lemma take_length n : forall s, String.length (PyStr.take n s) <= n.
Proof.
  induction n as [|n IH]; intros s; simpl; [lia|].
  destruct s; simpl; [lia|]. specialize (IH s). lia.
Qed.

Lemma take_length_long n : forall s,
  n <= String.length s -> String.length (PyStr.take n s) = n.
Proof.
  induction n as [|n IH]; intros s H; simpl; [reflexivity|].
  destruct s; simpl in *; [lia|]. rewrite IH; lia.
Qed.

Lemma take_prefix n : forall s, PyStr.startswith s (PyStr.take n s) = true.
Proof.
  induction n as [|n IH]; intros s; simpl.
  - destruct s; reflexivity.
  - destruct s; simpl; [reflexivity|]. rewrite Ascii.eqb_refl. apply IH.
Qed.

Section DispatcherFacts.

Variable clock : nat -> Z.
Variable isoformat : Z -> string.
Variable os_exec : nat -> list string -> exn Completed.
Variable json_dumps : PyDict.dict string -> exn string.

Abbreviation add_to_history := (add_to_history clock isoformat).
Abbreviation execute_command := (execute_command clock os_exec json_dumps).
Abbreviation run_environment := (run_environment os_exec json_dumps).
Abbreviation dispatch := (dispatch clock isoformat os_exec json_dumps).
Abbreviation record_all := (record_all clock isoformat).

(** *** The history *)

Lemma add_to_history_state command_key input_text result w :
  let w' := add_to_history command_key input_text result w in
  StateDoc.last_commands (state w')
  = Some (PyList.last_n 50
            (history w ++ [entry_of isoformat (clock (clock_reads w))
                             command_key input_text result]))
  /\ state_file w' = Json (state w')
  /\ clock_reads w' = S (clock_reads w)
  /\ exec_calls w' = exec_calls w.
Proof. cbv zeta. repeat split. Qed.

Lemma record_all_history records : forall w,
  let w' := record_all records w in
  PyList.last_n 50 (history w')
  = PyList.last_n 50
      (history w ++ entries_from clock isoformat (clock_reads w) records).
Proof.
  induction records as [|[[k i] r] records IH]; intros w; cbv zeta in *; simpl.
  - rewrite app_nil_r. reflexivity.
  - rewrite IH.
    destruct (add_to_history_state k i r w) as [Hh [_ [Hc _]]].
    unfold history at 1. rewrite Hh, Hc. simpl get_default.
    rewrite last_n_app_last_n, <- app_assoc. reflexivity.
Qed.

Lemma record_all_snoc records r w :
  record_all (records ++ [r]) w
  = add_to_history (fst (fst r)) (snd (fst r)) (snd r) (record_all records w).
Proof. unfold Spec.record_all. rewrite fold_left_app. reflexivity. Qed.

Lemma record_all_bounded records w :
  records <> [] ->
  exists h, StateDoc.last_commands (state (record_all records w)) = Some h
            /\ List.length h <= 50
            /\ state_file (record_all records w) = Json (state (record_all records w)).
Proof.
  intros Hne. destruct (exists_last Hne) as [front [r ->]].
  rewrite record_all_snoc.
  destruct (add_to_history_state (fst (fst r)) (snd (fst r)) (snd r)
              (record_all front w)) as [Hh [Hf _]].
  eexists. split; [exact Hh|]. split; [apply last_n_length | exact Hf].
Qed.

(** C4.  Whatever list the history holds at first (none, or one of any
    length), after one or more outcomes have been recorded the stored
    history is the last 50 elements of the first list followed by the
    new entries in the order they were recorded; so it has at most 50
    elements, the oldest are the ones dropped, and the state file holds
    the same document. *)
Theorem history_keeps_last_50 :
  forall (r : string * string * CommandResult.t)
         (records : list (string * string * CommandResult.t)) (w : World),
    let w' := record_all (r :: records) w in
    StateDoc.last_commands (state w')
    = Some (PyList.last_n 50
              (history w
               ++ entries_from clock isoformat (clock_reads w) (r :: records)))
    /\ List.length (history w') <= 50
    /\ state_file w' = Json (state w').
Proof.
  intros r records w w'.
  assert (Hne : r :: records <> []) by discriminate.
  destruct (record_all_bounded (r :: records) w Hne) as [h [Hh [Hlen Hfile]]].
  fold w' in Hh, Hfile.
  pose proof (record_all_history (r :: records) w) as Hall.
  cbv zeta in Hall. fold w' in Hall.
  assert (Hhist : history w' = h) by (unfold history; rewrite Hh; reflexivity).
  rewrite Hhist in Hall.
  assert (Hfix : PyList.last_n 50 h = h).
  { unfold PyList.last_n. replace (List.length h - 50) with 0 by lia. reflexivity. }
  rewrite Hfix in Hall.
  split; [rewrite Hh, Hall; reflexivity|].
  split; [rewrite Hhist; exact Hlen | exact Hfile].
Qed.

(** C7.  The entry that [add_to_history] stores for an outcome is the
    last element of the stored history; it carries the command key and
    the whole input.  Its stored output has at most 200 characters and
    is the outcome's output cut to its first 200 characters, a prefix of
    it; when the output is longer than 200 characters the stored one has
    exactly 200.  (Nothing is stored for an empty output: the field is
    [None] then, and only then.) *)
Theorem stored_output_at_most_200 :
  forall (command_key input_text : string) (result : CommandResult.t) (w : World),
    exists older entry,
      StateDoc.last_commands
        (state (add_to_history command_key input_text result w))
      = Some (older ++ [entry])
      /\ HistoryEntry.command entry = command_key
      /\ HistoryEntry.input entry = input_text
      /\ (forall stored,
             HistoryEntry.output entry = Some stored ->
             String.length stored <= 200
             /\ stored = PyStr.take 200 (CommandResult.output result)
             /\ PyStr.startswith (CommandResult.output result) stored = true)
      /\ (200 < String.length (CommandResult.output result) ->
          exists stored, HistoryEntry.output entry = Some stored
                         /\ String.length stored = 200)
      /\ (HistoryEntry.output entry = None
          <-> CommandResult.output result = EmptyString).
Proof.
  intros command_key input_text result w.
  destruct (add_to_history_state command_key input_text result w) as [Hh _].
  rewrite (last_n_snoc 49) in Hh.
  eexists; eexists. split; [exact Hh|].
  split; [reflexivity|]. split; [reflexivity|].
  unfold entry_of; cbn [HistoryEntry.output].
  destruct (CommandResult.output result) as [|c s] eqn:E; cbn [PyStr.truthy].
  - split; [discriminate|]. split; [simpl; lia | tauto].
  - split; [|split].
    + intros stored Hs.
      assert (Hx : stored = PyStr.take 200 (String c s)) by congruence.
      rewrite Hx.
      split; [apply take_length|]. split; [reflexivity | apply take_prefix].
    + intros Hlong. eexists. split; [reflexivity|].
      apply take_length_long. lia.
    + split; discriminate.
Qed.

(** *** The runtime launcher *)

Lemma try_run_child_outcome args w :
  try_run_child os_exec args w
  = (child_outcome os_exec (List.length (exec_calls w)) args, log_call args w).
Proof.
  unfold try_run_child, run_child, child_outcome, log_call.
  destruct (os_exec _ args) as [p|e]; simpl; [|reflexivity].
  destruct (returncode p =? 0)%Z.
  - destruct (stdout_decoded p); reflexivity.
  - destruct (stdout_decoded p); simpl; [|reflexivity].
    destruct (stderr_decoded p); reflexivity.
Qed.

Lemma run_environment_launch engine e command parsed_args w :
  Command.environment command = Env e ->
  run_environment engine command parsed_args w
  = match launch_args json_dumps engine e command parsed_args with
    | Raise ex => (Raise ex, w)
    | Ok argv =>
        (Ok (child_outcome os_exec (List.length (exec_calls w)) argv),
         log_call argv w)
    end.
Proof.
  intros He. unfold Dispatcher.run_environment. rewrite He.
  destruct e; cbn [launch_args];
    unfold _execute_python, _execute_ahk, _execute_java, _execute_nodejs,
           _execute_system;
    try (rewrite try_run_child_outcome; reflexivity).
  destruct parsed_args as [[|kv rest]|]; cbn [truthy_args get_default];
    try (rewrite try_run_child_outcome; reflexivity).
  destruct (json_dumps (kv :: rest)); cbn [bind]; [|reflexivity].
  rewrite try_run_child_outcome, <- app_assoc. reflexivity.
Qed.

Lemma child_outcome_error n argv :
  let r := child_outcome os_exec n argv in
  CommandResult.success r = false -> exists msg, CommandResult.error r = Some msg.
Proof.
  unfold child_outcome.
  destruct (os_exec n argv) as [p|e]; simpl; [|eauto].
  destruct (stdout_decoded p); simpl; [|eauto].
  destruct (returncode p =? 0)%Z; simpl; [discriminate|].
  destruct (stderr_decoded p); simpl; eauto.
Qed.

(** What [execute_command] returns, in one equation: the outcome comes
    from the environment, the argument vector and the child, and the
    world is the one entered with two more clock readings and, when a
    child was started, one more call. *)
Lemma execute_command_unfolded engine command parsed_args w :
  execute_command engine command parsed_args w
  = let elapsed := (clock (S (clock_reads w)) - clock (clock_reads w))%Z in
    let after calls :=
      mkWorld (state w) (state_file w) calls (S (S (clock_reads w))) in
    match Command.environment command with
    | Other shown =>
        (CommandResult.with_execution_time
           (CommandResult.make false EmptyString
              (Some ("Unsupported execution environment: " ++ shown)%string))
           elapsed,
         after (exec_calls w))
    | Env e =>
        match launch_args json_dumps engine e command parsed_args with
        | Raise ex =>
            (CommandResult.with_execution_time
               (CommandResult.make false EmptyString (Some (exc_msg ex))) elapsed,
             after (exec_calls w))
        | Ok argv =>
            (CommandResult.with_execution_time
               (child_outcome os_exec (List.length (exec_calls w)) argv) elapsed,
             after (exec_calls w ++ [argv]))
        end
    end.
Proof.
  unfold Dispatcher.execute_command.
  set (w0 := snd (datetime_now clock w)).
  change (datetime_now clock w) with (clock (clock_reads w), w0).
  cbv iota beta zeta.
  destruct (Command.environment command) as [e|shown] eqn:Henv.
  - rewrite (run_environment_launch engine e command parsed_args w0 Henv).
    destruct (launch_args json_dumps engine e command parsed_args); reflexivity.
  - unfold Dispatcher.run_environment. rewrite Henv. reflexivity.
Qed.

(** What the outcome of a child that ran to its end depends on: the exit
    status and whether the two streams decode, in the order the code
    reads them. *)
Lemma child_outcome_completed n argv process :
  os_exec n argv = Ok process ->
  let r := child_outcome os_exec n argv in
  (returncode process <> 0%Z -> CommandResult.success r = false)
  /\ (forall e,
        stdout_decoded process = Raise e ->
        CommandResult.success r = false
        /\ CommandResult.output r = EmptyString
        /\ CommandResult.error r = Some (exc_msg e))
  /\ (forall out e,
        stdout_decoded process = Ok out ->
        returncode process <> 0%Z ->
        stderr_decoded process = Raise e ->
        CommandResult.success r = false
        /\ CommandResult.output r = EmptyString
        /\ CommandResult.error r = Some (exc_msg e))
  /\ (forall out err,
        stdout_decoded process = Ok out ->
        returncode process <> 0%Z ->
        stderr_decoded process = Ok err ->
        CommandResult.success r = false
        /\ CommandResult.output r = PyStr.strip out
        /\ CommandResult.error r = Some (PyStr.strip err))
  /\ (CommandResult.success r = true
      <-> returncode process = 0%Z /\ exists out, stdout_decoded process = Ok out).
Proof.
  intros Hos. cbv zeta. unfold child_outcome. rewrite Hos.
  destruct (stdout_decoded process) as [out|e1];
    [destruct (Z.eqb_spec (returncode process) 0) as [Hz|Hnz];
     [|destruct (stderr_decoded process) as [err|e2]]|];
    cbn; (split; [|split; [|split; [|split]]]);
    try solve [ intros; congruence
              | intros; repeat split; congruence
              | intros; exfalso; congruence ].
  - split; [|reflexivity]. intros _. split; [exact Hz | eauto].
  - split; [discriminate|]. intros [Hz _]. contradiction.
  - split; [discriminate|]. intros [Hz _]. contradiction.
  - split; [discriminate|]. intros [_ [out H]]. discriminate H.
Qed.

(** C3.  [execute_command] returns a [CommandResult] whatever the
    command, the arguments and the behaviour of the operating system, and
    every failure is an outcome with [success = False] and its [error]
    field set.  The only exception that leaves the branch taken for the
    environment is the one of encoding the arguments, and the [except]
    clause turns it into the outcome [(False, "", str(e))] with no child
    started.  An environment outside the enumeration gives a failure and
    no child; a child that cannot be started gives a failure with the
    exception text.  For a child that ran to its end: an exit status
    other than 0 gives a failure whether or not its streams decode; a
    stream that does not decode gives a failure with the text of the
    decoding error, also after exit status 0; the outcome is a success
    exactly when the status is 0 and the standard output decodes. *)
Theorem execute_command_never_raises :
  forall (engine : ExecutionEngine) (command : Command.t)
         (parsed_args : option (PyDict.dict string)) (w : World),
    exists result w',
      execute_command engine command parsed_args w = (result, w')
      /\ (forall e w1,
             run_environment engine command parsed_args (snd (datetime_now clock w))
             = (Raise e, w1) ->
             CommandResult.success result = false
             /\ CommandResult.output result = EmptyString
             /\ CommandResult.error result = Some (exc_msg e))
      /\ (forall shown,
             Command.environment command = Other shown ->
             CommandResult.success result = false
             /\ CommandResult.error result
                = Some ("Unsupported execution environment: " ++ shown)%string
             /\ exec_calls w' = exec_calls w)
      /\ (forall env argv e,
             Command.environment command = Env env ->
             launch_args json_dumps engine env command parsed_args = Ok argv ->
             os_exec (List.length (exec_calls w)) argv = Raise e ->
             CommandResult.success result = false
             /\ CommandResult.output result = EmptyString
             /\ CommandResult.error result = Some (exc_msg e))
      /\ (forall env argv process out err,
             Command.environment command = Env env ->
             launch_args json_dumps engine env command parsed_args = Ok argv ->
             os_exec (List.length (exec_calls w)) argv = Ok process ->
             returncode process <> 0%Z ->
             stdout_decoded process = Ok out ->
             stderr_decoded process = Ok err ->
             CommandResult.success result = false
             /\ CommandResult.output result = PyStr.strip out
             /\ CommandResult.error result = Some (PyStr.strip err))
      /\ (CommandResult.success result = false ->
          exists msg, CommandResult.error result = Some msg)
      /\ (forall env ex,
             Command.environment command = Env env ->
             launch_args json_dumps engine env command parsed_args = Raise ex ->
             fst (run_environment engine command parsed_args
                    (snd (datetime_now clock w))) = Raise ex
             /\ CommandResult.success result = false
             /\ CommandResult.output result = EmptyString
             /\ CommandResult.error result = Some (exc_msg ex)
             /\ exec_calls w' = exec_calls w)
      /\ (forall e w1,
             run_environment engine command parsed_args (snd (datetime_now clock w))
             = (Raise e, w1) ->
             exists env,
               Command.environment command = Env env
               /\ launch_args json_dumps engine env command parsed_args = Raise e)
      /\ (forall env argv process,
             Command.environment command = Env env ->
             launch_args json_dumps engine env command parsed_args = Ok argv ->
             os_exec (List.length (exec_calls w)) argv = Ok process ->
             exec_calls w' = exec_calls w ++ [argv]
             /\ (returncode process <> 0%Z -> CommandResult.success result = false)
             /\ (forall e,
                   stdout_decoded process = Raise e ->
                   CommandResult.success result = false
                   /\ CommandResult.output result = EmptyString
                   /\ CommandResult.error result = Some (exc_msg e))
             /\ (forall out e,
                   stdout_decoded process = Ok out ->
                   returncode process <> 0%Z ->
                   stderr_decoded process = Raise e ->
                   CommandResult.success result = false
                   /\ CommandResult.output result = EmptyString
                   /\ CommandResult.error result = Some (exc_msg e))
             /\ (CommandResult.success result = true
                 <-> returncode process = 0%Z
                     /\ exists out, stdout_decoded process = Ok out)).
Proof.
  intros engine command parsed_args w.
  rewrite execute_command_unfolded. cbv zeta.
  set (w0 := snd (datetime_now clock w)).
  assert (Hcalls : exec_calls w0 = exec_calls w) by reflexivity.
  destruct (Command.environment command) as [env|shown] eqn:Henv.
  - pose proof (run_environment_launch engine env command parsed_args w0 Henv) as Hrun.
    destruct (launch_args json_dumps engine env command parsed_args)
      as [argv|ex] eqn:Hargs;
      eexists; eexists;
      refine (conj eq_refl
                (conj _ (conj _ (conj _ (conj _ (conj _ (conj _ (conj _ _)))))))).
    + intros e w1 H. rewrite Hrun in H. discriminate H.
    + intros shown H. discriminate H.
    + intros env' argv' e He Ha Hos.
      assert (env' = env) by congruence. subst env'.
      assert (argv' = argv) by congruence. subst argv'.
      cbn. unfold child_outcome. rewrite Hos. repeat split.
    + intros env' argv' p out err He Ha Hos Hrc Hout Herr.
      assert (env' = env) by congruence. subst env'.
      assert (argv' = argv) by congruence. subst argv'.
      destruct (child_outcome_completed _ _ _ Hos) as [_ [_ [_ [H _]]]].
      cbn. exact (H out err Hout Hrc Herr).
    + cbn. apply child_outcome_error.
    + intros env' ex He Ha. congruence.
    + intros e w1 H. rewrite Hrun in H. discriminate H.
    + intros env' argv' p He Ha Hos.
      assert (env' = env) by congruence. subst env'.
      assert (argv' = argv) by congruence. subst argv'.
      destruct (child_outcome_completed _ _ _ Hos) as [H1 [H2 [H3 [_ H5]]]].
      cbn. split; [reflexivity|]. split; [exact H1|]. split; [exact H2|].
      split; [exact H3 | exact H5].
    + intros e w1 H. rewrite Hrun in H. inversion H; subst. repeat split.
    + intros shown H. discriminate H.
    + intros env' argv' e He Ha. congruence.
    + intros env' argv' p out err He Ha. congruence.
    + cbn. eauto.
    + intros env' ex' He Ha.
      assert (ex' = ex) by congruence. subst ex'.
      rewrite Hrun. repeat split.
    + intros e w1 H. rewrite Hrun in H. inversion H; subst.
      exists env. split; [reflexivity | exact Hargs].
    + intros env' argv' p He Ha. congruence.
  - assert (Hrun : run_environment engine command parsed_args w0
                   = (Ok (CommandResult.make false EmptyString
                            (Some ("Unsupported execution environment: " ++ shown)%string)),
                      w0))
      by (unfold Dispatcher.run_environment; rewrite Henv; reflexivity).
    eexists; eexists;
      refine (conj eq_refl
                (conj _ (conj _ (conj _ (conj _ (conj _ (conj _ (conj _ _)))))))).
    + intros e w1 H. rewrite Hrun in H. discriminate H.
    + intros shown' H. inversion H; subst. repeat split.
    + intros env argv e H. discriminate H.
    + intros env argv p out err H. discriminate H.
    + cbn. eauto.
    + intros env ex H. discriminate H.
    + intros e w1 H. rewrite Hrun in H. discriminate H.
    + intros env argv p H. discriminate H.
Qed.

(** *** The orchestrator *)

Lemma dispatch_no_candidates self user_input w mode :
  current_mode w = Ok mode ->
  CommandRegistry.find_matches (command_registry self) user_input mode = [] ->
  dispatch self user_input w = Ok (no_match, w).
Proof.
  intros Hmode Hnone. unfold Dispatcher.dispatch.
  rewrite Hmode. cbn [bind]. rewrite Hnone. reflexivity.
Qed.

Lemma dispatch_clarifies self user_input w mode matches :
  current_mode w = Ok mode ->
  CommandRegistry.find_matches (command_registry self) user_input mode = matches ->
  needs_clarification matches = true ->
  dispatch self user_input w
  = Ok (CommandResult.make false
          (clarify_command user_input (map fst (firstn 3 matches)))
          (Some "Command needs clarification"), w).
Proof.
  intros Hmode Hm Hc. unfold Dispatcher.dispatch.
  rewrite Hmode. cbn [bind]. rewrite Hm.
  destruct matches as [|[command confidence] rest]; [discriminate|].
  rewrite Hc. reflexivity.
Qed.

Lemma dispatch_selects_top self user_input w mode command confidence rest :
  current_mode w = Ok mode ->
  CommandRegistry.find_matches (command_registry self) user_input mode
  = (command, confidence) :: rest ->
  needs_clarification ((command, confidence) :: rest) = false ->
  let parsed_args :=
    if Command.ai_parsing command
    then Some (parse_command user_input command) else None in
  let run := execute_command (execution_engine self) command parsed_args w in
  dispatch self user_input w
  = Ok (fst run, add_to_history (Command.key command) user_input (fst run) (snd run)).
Proof.
  intros Hmode Hm Hc parsed_args run. unfold Dispatcher.dispatch.
  rewrite Hmode. cbn [bind]. rewrite Hm, Hc.
  fold parsed_args. fold run. destruct run. reflexivity.
Qed.

(** C5.  When no command of the catalog is a candidate for the input in
    the current mode, [dispatch] returns the failure with the fixed
    guidance texts and the world is the one it started from: no child
    was started, and neither the history nor the state file changed. *)
Theorem dispatch_no_match :
  forall (self : VoiceAssistantDispatcher) (user_input : string) (w : World)
         (mode : AssistantMode.t),
    current_mode w = Ok mode ->
    CommandRegistry.find_matches (command_registry self) user_input mode = [] ->
    exists result,
      dispatch self user_input w = Ok (result, w)
      /\ CommandResult.success result = false
      /\ CommandResult.output result = "No matching commands found"
      /\ CommandResult.error result
         = Some "Try saying 'help' or be more specific about what you want to do.".
Proof.
  intros self user_input w mode Hmode Hnone.
  exists no_match. split; [|repeat split].
  apply (dispatch_no_candidates self user_input w mode Hmode Hnone).
Qed.

Lemma abs_below_threshold x :
  (0.3 <=? abs x)%float = true -> (abs x <? 0.3)%float = false.
Proof.
  rewrite leb_spec, ltb_spec, abs_spec.
  assert (H03 : sf_nonneg (Prim2SF 0.3) = true) by reflexivity.
  assert (G : forall a, sf_nonneg a = true ->
                        SFleb (Prim2SF 0.3) a = true -> SFltb a (Prim2SF 0.3) = false).
  { intros a Ha H. rewrite (SFleb_nonneg a _ Ha H03) in H.
    apply negb_true_iff in H. exact H. }
  destruct (Prim2SF x) as [s|s| |s m e]; cbn [SFabs];
    try (apply G; reflexivity).
  intros H. vm_compute in H. discriminate H.
Qed.

(** What a dispatch that executes the first candidate does: the child
    of that command is the one call made, its outcome is the result, and
    the history receives the entry of that command. *)
Lemma dispatch_runs_top self user_input w mode command confidence rest :
  current_mode w = Ok mode ->
  CommandRegistry.find_matches (command_registry self) user_input mode
  = (command, confidence) :: rest ->
  needs_clarification ((command, confidence) :: rest) = false ->
  let parsed_args :=
    if Command.ai_parsing command
    then Some (parse_command user_input command) else None in
  let elapsed := (clock (S (clock_reads w)) - clock (clock_reads w))%Z in
  exists result w',
    dispatch self user_input w = Ok (result, w')
    /\ StateDoc.last_commands (state w')
       = Some (PyList.last_n 50
                 (history w
                  ++ [entry_of isoformat (clock (2 + clock_reads w))
                        (Command.key command) user_input result]))
    /\ state_file w' = Json (state w')
    /\ (forall env argv,
          Command.environment command = Env env ->
          launch_args json_dumps (execution_engine self) env command parsed_args
          = Ok argv ->
          exec_calls w' = exec_calls w ++ [argv]
          /\ result
             = CommandResult.with_execution_time
                 (child_outcome os_exec (List.length (exec_calls w)) argv) elapsed)
    /\ (forall env ex,
          Command.environment command = Env env ->
          launch_args json_dumps (execution_engine self) env command parsed_args
          = Raise ex ->
          exec_calls w' = exec_calls w
          /\ result
             = CommandResult.with_execution_time
                 (CommandResult.make false EmptyString (Some (exc_msg ex))) elapsed)
    /\ (forall shown,
          Command.environment command = Other shown ->
          exec_calls w' = exec_calls w
          /\ result
             = CommandResult.with_execution_time
                 (CommandResult.make false EmptyString
                    (Some ("Unsupported execution environment: " ++ shown)%string))
                 elapsed).
Proof.
  intros Hmode Hm Hc parsed_args elapsed.
  rewrite (dispatch_selects_top self user_input w mode command confidence rest
             Hmode Hm Hc).
  cbv zeta. fold parsed_args.
  set (run := execute_command (execution_engine self) command parsed_args w).
  exists (fst run), (add_to_history (Command.key command) user_input (fst run) (snd run)).
  split; [reflexivity|].
  destruct (add_to_history_state (Command.key command) user_input (fst run) (snd run))
    as [Hh [Hf [_ Hcalls]]].
  cbv zeta in Hh, Hf, Hcalls. rewrite Hh, Hcalls.
  assert (Hrun : run = execute_command (execution_engine self) command parsed_args w)
    by reflexivity.
  rewrite execute_command_unfolded in Hrun. cbv zeta in Hrun. fold elapsed in Hrun.
  split; [|split; [exact Hf|]].
  - destruct (Command.environment command) as [e|shown];
      [destruct (launch_args json_dumps (execution_engine self) e command parsed_args)|];
      rewrite Hrun; reflexivity.
  - split; [|split].
    + intros env argv He Ha. rewrite He, Ha in Hrun. rewrite Hrun. split; reflexivity.
    + intros env ex He Ha. rewrite He, Ha in Hrun. rewrite Hrun. split; reflexivity.
    + intros shown He. rewrite He in Hrun. rewrite Hrun. split; reflexivity.
Qed.

(** C2.  When [find_matches] returns two candidates or more: if the two
    highest scores differ by less than 0.3, [dispatch] returns a failure
    whose output is the question that names the first three candidates
    at most, and the world is unchanged (no child started, no history
    written); if they differ by 0.3 or more, [dispatch] executes the
    first candidate and records the outcome: the one child started is
    the one of the first candidate, with the argument vector of its
    environment, the result is the outcome of that child, and the
    history receives the entry of the first candidate with that
    result. *)
Theorem dispatch_disambiguates :
  forall (self : VoiceAssistantDispatcher) (user_input : string) (w : World)
         (mode : AssistantMode.t) (c0 c1 : Command.t) (s0 s1 : float)
         (rest : list (Command.t * float)),
    current_mode w = Ok mode ->
    CommandRegistry.find_matches (command_registry self) user_input mode
    = (c0, s0) :: (c1, s1) :: rest ->
    ((abs (s0 - s1) <? 0.3)%float = true ->
       let names := map Command.name (firstn 3 (c0 :: c1 :: map fst rest)) in
       dispatch self user_input w
       = Ok (CommandResult.make false
               ("I found multiple possible commands: " ++ PyStr.join ", " names
                  ++ ". Which one did you mean?")
               (Some "Command needs clarification"), w)
       /\ 2 <= List.length names <= 3)
    /\ ((0.3 <=? abs (s0 - s1))%float = true ->
        let parsed_args :=
          if Command.ai_parsing c0
          then Some (parse_command user_input c0) else None in
        let run := execute_command (execution_engine self) c0 parsed_args w in
        let elapsed := (clock (S (clock_reads w)) - clock (clock_reads w))%Z in
        dispatch self user_input w
        = Ok (fst run, add_to_history (Command.key c0) user_input (fst run) (snd run))
        /\ exists result w',
             dispatch self user_input w = Ok (result, w')
             /\ StateDoc.last_commands (state w')
                = Some (PyList.last_n 50
                          (history w
                           ++ [entry_of isoformat (clock (2 + clock_reads w))
                                 (Command.key c0) user_input result]))
             /\ state_file w' = Json (state w')
             /\ (forall env argv,
                   Command.environment c0 = Env env ->
                   launch_args json_dumps (execution_engine self) env c0 parsed_args
                   = Ok argv ->
                   exec_calls w' = exec_calls w ++ [argv]
                   /\ result
                      = CommandResult.with_execution_time
                          (child_outcome os_exec (List.length (exec_calls w)) argv)
                          elapsed)
             /\ (forall env ex,
                   Command.environment c0 = Env env ->
                   launch_args json_dumps (execution_engine self) env c0 parsed_args
                   = Raise ex ->
                   exec_calls w' = exec_calls w
                   /\ result
                      = CommandResult.with_execution_time
                          (CommandResult.make false EmptyString (Some (exc_msg ex)))
                          elapsed)
             /\ (forall shown,
                   Command.environment c0 = Other shown ->
                   exec_calls w' = exec_calls w
                   /\ result
                      = CommandResult.with_execution_time
                          (CommandResult.make false EmptyString
                             (Some ("Unsupported execution environment: "
                                      ++ shown)%string))
                          elapsed)).
Proof.
  intros self user_input w mode c0 c1 s0 s1 rest Hmode Hm. split.
  - intros Hclose names.
    assert (Hlen : 2 <= List.length names <= 3).
    { unfold names. rewrite length_map. destruct rest as [|? [|? ?]]; simpl; lia. }
    split; [|exact Hlen].
    rewrite (dispatch_clarifies self user_input w mode _ Hmode Hm Hclose).
    unfold clarify_command.
    assert (Hn : map Command.name (map fst (firstn 3 ((c0, s0) :: (c1, s1) :: rest)))
                 = names).
    { unfold names. f_equal. cbn [firstn map fst]. destruct rest; reflexivity. }
    rewrite Hn.
    assert (Hl : (1 <? List.length
                          (map fst (firstn 3 ((c0, s0) :: (c1, s1) :: rest))))%nat = true).
    { destruct rest; reflexivity. }
    rewrite Hl. reflexivity.
  - intros Hfar.
    assert (Hc : needs_clarification ((c0, s0) :: (c1, s1) :: rest) = false)
      by (cbn [needs_clarification]; apply abs_below_threshold, Hfar).
    split.
    + apply (dispatch_selects_top self user_input w mode c0 s0 ((c1, s1) :: rest)
               Hmode Hm Hc).
    + apply (dispatch_runs_top self user_input w mode c0 s0 ((c1, s1) :: rest)
               Hmode Hm Hc).
Qed.

(** *** The confirmation flag *)

Lemma scan_reflag flag text mode cmds :
  CommandRegistry.scan text mode
    (map (fun cmd => Command.with_requires_confirmation (flag cmd) cmd) cmds)
  = map (reflag_candidate flag) (CommandRegistry.scan text mode cmds).
Proof.
  induction cmds as [|cmd cmds IH]; [reflexivity|].
  cbn [map CommandRegistry.scan].
  change (CommandRegistry.skipped mode
            (Command.with_requires_confirmation (flag cmd) cmd))
    with (CommandRegistry.skipped mode cmd).
  change (CommandRegistry.score_of text
            (Command.with_requires_confirmation (flag cmd) cmd))
    with (CommandRegistry.score_of text cmd).
  destruct (CommandRegistry.skipped mode cmd); [exact IH|].
  destruct (0 <? CommandRegistry.score_of text cmd)%float; [|exact IH].
  cbn [map]. rewrite IH. reflexivity.
Qed.

Lemma insert_reflag flag x l :
  CommandRegistry.insert_by_score (reflag_candidate flag x)
    (map (reflag_candidate flag) l)
  = map (reflag_candidate flag) (CommandRegistry.insert_by_score x l).
Proof.
  induction l as [|y l IH]; [reflexivity|].
  cbn [map CommandRegistry.insert_by_score].
  change (snd (reflag_candidate flag x)) with (snd x).
  change (snd (reflag_candidate flag y)) with (snd y).
  destruct (snd x <? snd y)%float; cbn [map]; [rewrite IH|]; reflexivity.
Qed.

Lemma sort_reflag flag l :
  CommandRegistry.sort_by_score (map (reflag_candidate flag) l)
  = map (reflag_candidate flag) (CommandRegistry.sort_by_score l).
Proof.
  induction l as [|x l IH]; [reflexivity|].
  cbn [map CommandRegistry.sort_by_score]. rewrite IH. apply insert_reflag.
Qed.

Lemma find_matches_reflag flag commands user_input mode :
  CommandRegistry.find_matches (reflag flag commands) user_input mode
  = map (reflag_candidate flag)
      (CommandRegistry.find_matches commands user_input mode).
Proof.
  unfold CommandRegistry.find_matches, reflag, PyDict.values. cbv zeta.
  rewrite map_map. cbn [snd].
  rewrite <- (map_map snd (fun cmd => Command.with_requires_confirmation (flag cmd) cmd)).
  rewrite scan_reflag. apply sort_reflag.
Qed.

Lemma needs_clarification_reflag flag matches :
  needs_clarification (map (reflag_candidate flag) matches)
  = needs_clarification matches.
Proof. destruct matches as [|[c0 s0] [|[c1 s1] rest]]; reflexivity. Qed.

Lemma clarify_command_reflag flag user_input matches :
  clarify_command user_input
    (map fst (firstn 3 (map (reflag_candidate flag) matches)))
  = clarify_command user_input (map fst (firstn 3 matches)).
Proof.
  unfold clarify_command.
  rewrite firstn_map, !map_map, !length_map.
  reflexivity.
Qed.

Lemma dispatch_reflag flag self user_input w :
  dispatch (mkDispatcher (reflag flag (command_registry self)) (execution_engine self))
    user_input w
  = dispatch self user_input w.
Proof.
  unfold Dispatcher.dispatch. cbn [command_registry execution_engine].
  destruct (current_mode w) as [mode|e]; cbn [bind]; [|reflexivity].
  rewrite find_matches_reflag.
  destruct (CommandRegistry.find_matches (command_registry self) user_input mode)
    as [|[command confidence] rest] eqn:Hm; [reflexivity|].
  rewrite needs_clarification_reflag, clarify_command_reflag.
  cbn [map reflag_candidate fst snd].
  destruct (needs_clarification ((command, confidence) :: rest)); reflexivity.
Qed.

(** C8.  When the command that [dispatch] selects has
    [requires_confirmation] set, nothing waits for a confirmation: the
    command is executed and the outcome recorded as for any other
    command, and the result and the world after the call are those of
    the same call on a catalog whose confirmation flags are set in any
    other way, in particular all cleared. *)
Theorem confirmation_flag_is_not_enforced :
  forall (self : VoiceAssistantDispatcher) (user_input : string) (w : World)
         (mode : AssistantMode.t) (command : Command.t) (confidence : float)
         (rest : list (Command.t * float)),
    current_mode w = Ok mode ->
    CommandRegistry.find_matches (command_registry self) user_input mode
    = (command, confidence) :: rest ->
    needs_clarification ((command, confidence) :: rest) = false ->
    Command.requires_confirmation command = true ->
    let parsed_args :=
      if Command.ai_parsing command
      then Some (parse_command user_input command) else None in
    let run := execute_command (execution_engine self) command parsed_args w in
    dispatch self user_input w
    = Ok (fst run, add_to_history (Command.key command) user_input (fst run) (snd run))
    /\ (forall flag,
           dispatch (mkDispatcher (reflag flag (command_registry self))
                       (execution_engine self)) user_input w
           = dispatch self user_input w).
Proof.
  intros self user_input w mode command confidence rest Hmode Hm Hc _ parsed_args run.
  split.
  - apply (dispatch_selects_top self user_input w mode command confidence rest Hmode Hm Hc).
  - intros flag. apply dispatch_reflag.
Qed.

(** *** Mode filtering *)

(** C6.  A command whose mode list is not empty and does not contain a
    mode is absent from what [find_matches] returns for that mode,
    whatever the input, and from what [get_available_commands] lists for
    that mode, given explicitly or as the current mode. *)
Theorem mode_set_is_authoritative :
  forall (self : VoiceAssistantDispatcher) (cmd : Command.t)
         (mode : AssistantMode.t) (user_input : string) (w : World),
    Command.modes cmd <> [] ->
    ~ In mode (Command.modes cmd) ->
    ~ In cmd (map fst (CommandRegistry.find_matches (command_registry self)
                         user_input mode))
    /\ (exists listed,
           get_available_commands self (Some mode) w = Ok listed
           /\ ~ In cmd listed)
    /\ (current_mode w = Ok mode ->
        exists listed,
          get_available_commands self None w = Ok listed /\ ~ In cmd listed).
Proof.
  intros self cmd mode user_input w Hne Hnot.
  pose proof (not_offered mode cmd Hne Hnot) as Hoff.
  assert (Hlist : ~ In cmd (filter (fun c => match Command.modes c with
                                             | [] => true
                                             | modes => AssistantMode.mem mode modes
                                             end)
                              (PyDict.values (command_registry self)))).
  { intros Hin. apply filter_In in Hin. destruct Hin as [_ Hin].
    change (offered_inb mode cmd = true) in Hin. congruence. }
  split; [|split].
  - intros Hin. apply in_map_iff in Hin. destruct Hin as [[c s] [Hc Hin]].
    simpl in Hc. subst c.
    apply In_find_matches in Hin.
    destruct Hin as [_ [Hoffered _]].
    apply offered_inb_spec in Hoffered. congruence.
  - eexists. split; [reflexivity | exact Hlist].
  - intros Hmode. eexists. unfold get_available_commands. rewrite Hmode.
    split; [reflexivity | exact Hlist].
Qed.
End DispatcherFacts.

(** ** Concrete dispatches *)

Lemma dispatch_disambiguates_witness :
  Demo.dispatch "Play" Sample.world
  = Ok (CommandResult.make false
          "I found multiple possible commands: music, video. Which one did you mean?"
          (Some "Command needs clarification"),
        Sample.world)
  /\ (exists result w',
        Demo.dispatch "play music" Sample.world = Ok (result, w')
        /\ exec_calls w' = [["python"; "scripts/music.py"]]
        /\ result = CommandResult.mk true EmptyString None 1000 None
        /\ StateDoc.last_commands (state w')
           = Some [HistoryEntry.mk "us:2000" "music" "play music" true None]).
Proof.
  split.
  - exact (proj1 (proj1 (dispatch_disambiguates Sample.clock Sample.isoformat
                           Sample.os_exec Sample.json_dumps Demo.dispatcher "Play"
                           Sample.world AssistantMode.GENERAL Demo.music Demo.video
                           1.0%float 1.0%float [] eq_refl eq_refl) eq_refl)).
  - destruct (proj2 (proj2 (dispatch_disambiguates Sample.clock Sample.isoformat
                              Sample.os_exec Sample.json_dumps Demo.dispatcher
                              "play music" Sample.world AssistantMode.GENERAL
                              Demo.music Demo.video 1.3%float 0.8%float []
                              eq_refl eq_refl) eq_refl))
      as [result [w' [Hd [Hh [_ [Hrun _]]]]]].
    destruct (Hrun ExecutionEnvironment.PYTHON ["python"; "scripts/music.py"]
                eq_refl eq_refl) as [Hcalls Hres].
    exists result, w'. split; [exact Hd|]. split; [exact Hcalls|].
    split; [exact Hres|]. rewrite Hh, Hres. reflexivity.
Defined.

Example dispatch_executes_clear_winner :
  match Demo.dispatch "play music" Sample.world with
  | Ok (result, w) =>
      CommandResult.success result = true
      /\ exec_calls w = [["python"; "scripts/music.py"]]
      /\ option_map (map HistoryEntry.command) (StateDoc.last_commands (state w))
         = Some ["music"]
  | Raise _ => False
  end.
Proof. vm_compute. repeat split. Qed.

Lemma dispatch_no_match_witness :
  exists result,
    Demo.dispatch "build" Sample.world = Ok (result, Sample.world)
    /\ CommandResult.success result = false
    /\ CommandResult.output result = "No matching commands found"
    /\ CommandResult.error result
       = Some "Try saying 'help' or be more specific about what you want to do.".
Proof.
  exact (dispatch_no_match Sample.clock Sample.isoformat Sample.os_exec
           Sample.json_dumps Demo.dispatcher "build" Sample.world
           AssistantMode.GENERAL eq_refl eq_refl).
Defined.

Lemma confirmation_flag_is_not_enforced_witness :
  (exists result w,
      Demo.dispatch "build" Demo.coding_world = Ok (result, w)
      /\ CommandResult.success result = true
      /\ exec_calls w = [["make"; "all"]])
  /\ Dispatcher.dispatch Sample.clock Sample.isoformat Sample.os_exec Sample.json_dumps
       (mkDispatcher (reflag (fun _ => false) Demo.registry) Sample.engine)
       "build" Demo.coding_world
     = Demo.dispatch "build" Demo.coding_world.
Proof.
  destruct (confirmation_flag_is_not_enforced Sample.clock Sample.isoformat
              Sample.os_exec Sample.json_dumps Demo.dispatcher "build"
              Demo.coding_world AssistantMode.CODING Demo.build 1.0%float []
              eq_refl eq_refl eq_refl eq_refl) as [Hrun Hflag].
  split; [|exact (Hflag (fun _ => false))].
  eexists; eexists. split; [exact Hrun|]. split; reflexivity.
Defined.

Lemma mode_set_is_authoritative_witness :
  ~ In Demo.build
      (map fst (CommandRegistry.find_matches Demo.registry "build"
                  AssistantMode.GENERAL))
  /\ (exists listed,
         get_available_commands Demo.dispatcher (Some AssistantMode.GENERAL)
           Sample.world = Ok listed
         /\ ~ In Demo.build listed)
  /\ (current_mode Sample.world = Ok AssistantMode.GENERAL ->
      exists listed,
        get_available_commands Demo.dispatcher None Sample.world = Ok listed
        /\ ~ In Demo.build listed).
Proof.
  apply (mode_set_is_authoritative Demo.dispatcher Demo.build AssistantMode.GENERAL
           "build" Sample.world).
  - discriminate.
  - simpl. intros [H|[]]. discriminate H.
Defined.

Example build_is_listed_in_coding_mode :
  option_map (map Command.key)
    (match get_available_commands Demo.dispatcher None Demo.coding_world with
     | Ok listed => Some listed
     | Raise _ => None
     end)
  = Some ["music"; "video"; "build"; "broken"].
Proof. reflexivity. Qed.

Example missing_program_is_an_outcome :
  match Demo.dispatch "broken" Sample.world with
  | Ok (result, w) =>
      result = CommandResult.mk false EmptyString
                 (Some "[Errno 2] No such file or directory: 'missing'") 1000 None
      /\ exec_calls w = [["missing"; "--now"]]
      /\ option_map (map HistoryEntry.success) (StateDoc.last_commands (state w))
         = Some [false]
  | Raise _ => False
  end.
Proof. vm_compute. repeat split. Qed.

Example unsupported_environment_is_an_outcome :
  fst (execute_command Sample.clock Sample.os_exec Sample.json_dumps Sample.engine
         (Sample.command "ruby" ["ruby"] (Other "ruby") "x.rb" []) None Sample.world)
  = CommandResult.mk false EmptyString
      (Some "Unsupported execution environment: ruby") 1000 None.
Proof. reflexivity. Qed.

Example unencodable_arguments_are_an_outcome :
  execute_command Sample.clock Sample.os_exec Sample.json_dumps Sample.engine
    Demo.music (Some [("unserializable", "x")]) Sample.world
  = (CommandResult.mk false EmptyString
       (Some "Object of type set is not JSON serializable") 1000 None,
     mkWorld (state Sample.world) NoFile [] 2).
Proof. reflexivity. Qed.

Example threshold_uses_binary64 :
  (abs (0.8 - 0.5) <? 0.3)%float = false
  /\ (abs ((0.5 + 0.8 + 1.0) - (1.0 + 1.0)) <? 0.3)%float = true.
Proof. split; reflexivity. Qed.

(** Sixty outcomes recorded on an empty history: the fifty last ones
    are kept, the eleventh (number 10) being the oldest. *)
Example sixty_recorded_fifty_kept :
  let w := record_all Sample.clock Sample.isoformat (map Demo.outcome (seq 0 60))
             Sample.world in
  List.length (history w) = 50
  /\ option_map HistoryEntry.input (hd_error (history w)) = Some "us:10"
  /\ option_map HistoryEntry.input (hd_error (rev (history w))) = Some "us:59"
  /\ state_file w = Json (state w).
Proof. vm_compute. repeat split. Qed.

(** An output of 300 characters is stored as its first 200; an empty
    one is stored as [None]. *)
Example long_output_is_cut :
  let long := String.concat EmptyString (repeat "abc" 100) in
  let w := add_to_history Sample.clock Sample.isoformat "music" "play"
             (CommandResult.make true long None) Sample.world in
  String.length long = 300
  /\ option_map (fun e => option_map String.length (HistoryEntry.output e))
       (hd_error (history w)) = Some (Some 200)
  /\ option_map HistoryEntry.output
       (hd_error (history (add_to_history Sample.clock Sample.isoformat "music"
                             "play" (CommandResult.make true EmptyString None)
                             Sample.world)))
     = Some None.
Proof. vm_compute. repeat split. Qed.

(* ================================================================== *)
(** * Further properties *)
(* ================================================================== *)

(** ** The enumerations *)

Lemma mode_of_value_value m : AssistantMode.of_value (AssistantMode.value m) = Ok m.
Proof. destruct m; reflexivity. Qed.

Lemma mode_value_of_value v m :
  AssistantMode.of_value v = Ok m -> AssistantMode.value m = v.
Proof.
  unfold AssistantMode.of_value. destruct (find _ _) as [x|] eqn:E; [|discriminate].
  intros H. injection H as <-. apply find_some in E. destruct E as [_ E].
  apply String.eqb_eq, E.
Qed.

Lemma category_value_of_value v c :
  CommandCategory.of_value v = Ok c -> CommandCategory.value c = v.
Proof.
  unfold CommandCategory.of_value. destruct (find _ _) as [x|] eqn:E; [|discriminate].
  intros H. injection H as <-. apply find_some in E. destruct E as [_ E].
  apply String.eqb_eq, E.
Qed.

Lemma environment_value_of_value v e :
  ExecutionEnvironment.of_value v = Ok e -> ExecutionEnvironment.value e = v.
Proof.
  unfold ExecutionEnvironment.of_value.
  destruct (find _ _) as [x|] eqn:E; [|discriminate].
  intros H. injection H as <-. apply find_some in E. destruct E as [_ E].
  apply String.eqb_eq, E.
Qed.


(** ** The matcher *)

Lemma In_candidates commands user_input mode cmd :
  In cmd (map fst (CommandRegistry.find_matches commands user_input mode))
  <-> In cmd (PyDict.values commands) /\ offered_in mode cmd
      /\ existsb (hits (PyStr.lower user_input)) (Command.keywords cmd) = true.
Proof.
  rewrite <- score_positive_iff_hit, in_map_iff. split.
  - intros [[c s] [Hc Hin]]. simpl in Hc. subst c.
    apply In_find_matches in Hin. destruct Hin as [Hin [Hoff [Hs Hpos]]].
    subst s. rewrite score_of_accumulated. auto.
  - intros [Hin [Hoff Hpos]].
    exists (cmd, CommandRegistry.score_of (PyStr.lower user_input) cmd).
    split; [reflexivity|]. apply In_find_matches.
    rewrite <- score_of_accumulated. auto.
Qed.

(** X2.  A command is among the candidates [find_matches] returns exactly
    when it is in the catalog, is offered in the mode, and one of its
    keywords, lower-cased, occurs in the lower-cased input: the sum of
    the positive amounts added for such keywords is never zero, and
    nothing else adds to a score. *)
Theorem candidate_iff_keyword_occurs :
  forall (commands : PyDict.dict Command.t) (user_input : string)
         (mode : AssistantMode.t) (cmd : Command.t),
    In cmd (map fst (CommandRegistry.find_matches commands user_input mode))
    <-> In cmd (PyDict.values commands) /\ offered_in mode cmd
        /\ exists keyword,
             In keyword (Command.keywords cmd)
             /\ PyStr.contains (PyStr.lower keyword) (PyStr.lower user_input) = true.
Proof.
  intros commands user_input mode cmd.
  rewrite In_candidates, existsb_exists. reflexivity.
Qed.

Lemma contains_empty s : PyStr.contains EmptyString s = true.
Proof. destruct s; reflexivity. Qed.

Lemma contains_in_empty k : PyStr.contains k EmptyString = true <-> k = EmptyString.
Proof. destruct k; simpl; split; congruence. Qed.

Lemma lower_empty_iff k : PyStr.lower k = EmptyString <-> k = EmptyString.
Proof. destruct k; simpl; split; congruence. Qed.

(** X3.  The two edges of keyword containment.  A command that has the
    empty string among its keywords is a candidate for every input,
    since the empty string occurs in every string; and for the empty
    input the candidates are exactly the commands that have such a
    keyword. *)
Theorem empty_keyword_matches_everything :
  forall (commands : PyDict.dict Command.t) (mode : AssistantMode.t)
         (cmd : Command.t),
    In cmd (PyDict.values commands) ->
    offered_in mode cmd ->
    (In EmptyString (Command.keywords cmd) ->
     forall user_input,
       In cmd (map fst (CommandRegistry.find_matches commands user_input mode)))
    /\ (In cmd (map fst (CommandRegistry.find_matches commands EmptyString mode))
        <-> In EmptyString (Command.keywords cmd)).
Proof.
  intros commands mode cmd Hin Hoff. split.
  - intros Hk user_input. apply In_candidates.
    split; [exact Hin|]. split; [exact Hoff|].
    apply existsb_exists. exists EmptyString. split; [exact Hk|].
    apply contains_empty.
  - rewrite In_candidates, existsb_exists. split.
    + intros [_ [_ [k [Hk Hhit]]]]. unfold hits in Hhit. simpl PyStr.lower in Hhit.
      apply (proj1 (contains_in_empty _)) in Hhit.
      apply (proj1 (lower_empty_iff _)) in Hhit. subst k. exact Hk.
    + intros Hk. split; [exact Hin|]. split; [exact Hoff|].
      exists EmptyString. split; [exact Hk | reflexivity].
Qed.

(** ** Loading the registry *)

Lemma filter_twice {A} (f g : A -> bool) l :
  filter f (filter g l) = filter (fun a => g a && f a) l.
Proof.
  induction l as [|a l IH]; [reflexivity|]. simpl.
  destruct (g a); simpl; [destruct (f a)|]; rewrite IH; reflexivity.
Qed.

Lemma keys_store_all cmds : forall commands,
  PyDict.keys (store_all cmds commands)
  = PyDict.keys commands
    ++ filter (fun k => negb (existsb (String.eqb k) (PyDict.keys commands)))
         (first_appearances (map Command.key cmds)).
Proof.
  induction cmds as [|cmd cmds IH]; intros commands; cbn [store_all fold_left].
  - simpl. rewrite app_nil_r. reflexivity.
  - change (fold_left _ cmds ?d) with (store_all cmds d).
    rewrite IH, keys_set. cbn [map first_appearances filter].
    set (k := Command.key cmd). set (l := first_appearances (map Command.key cmds)).
    destruct (existsb (String.eqb k) (PyDict.keys commands)) eqn:E; cbn [negb].
    + f_equal. rewrite filter_twice. apply filter_ext. intros a.
      destruct (String.eqb a k) eqn:Ea; cbn [negb andb]; [|reflexivity].
      apply String.eqb_eq in Ea. subst a. rewrite E. reflexivity.
    + rewrite <- app_assoc. cbn [app]. f_equal. f_equal.
      rewrite filter_twice. apply filter_ext. intros a.
      rewrite existsb_app. cbn [existsb]. rewrite orb_false_r, negb_orb.
      apply andb_comm.
Qed.

Lemma first_appearances_NoDup keys : NoDup (first_appearances keys).
Proof.
  induction keys as [|k keys IH]; cbn [first_appearances]; constructor.
  - intros Hin. apply filter_In in Hin. destruct Hin as [_ Hin].
    rewrite String.eqb_refl in Hin. discriminate.
  - apply NoDup_filter, IH.
Qed.

Lemma first_appearances_In keys k : In k (first_appearances keys) <-> In k keys.
Proof.
  induction keys as [|k0 keys IH]; cbn [first_appearances]; [tauto|].
  simpl. rewrite filter_In, IH.
  destruct (String.eqb k k0) eqn:E.
  - apply String.eqb_eq in E. subst. tauto.
  - assert (k0 <> k) by (intros ->; rewrite String.eqb_refl in E; discriminate).
    simpl. tauto.
Qed.

Lemma set_own_key cmd commands :
  stored_under_own_key commands ->
  stored_under_own_key (PyDict.set (Command.key cmd) cmd commands).
Proof.
  unfold stored_under_own_key.
  induction commands as [|[k0 c0] commands IH]; intros H k c Hin; simpl in Hin.
  - destruct Hin as [Hin|[]]. injection Hin as <- <-. reflexivity.
  - destruct (String.eqb k0 (Command.key cmd)) eqn:E.
    + apply String.eqb_eq in E. destruct Hin as [Hin|Hin].
      * injection Hin as <- <-. symmetry. exact E.
      * apply H. right. exact Hin.
    + destruct Hin as [Hin|Hin].
      * apply H. left. exact Hin.
      * apply IH; [|exact Hin]. intros k' c' H'. apply H. right. exact H'.
Qed.

Lemma store_all_own_key cmds : forall commands,
  stored_under_own_key commands -> stored_under_own_key (store_all cmds commands).
Proof.
  induction cmds as [|cmd cmds IH]; intros commands H; [exact H|].
  apply IH, set_own_key, H.
Qed.

Lemma In_set_value {V} k (v : V) d k' v' :
  In (k', v') (PyDict.set k v d) -> v' = v \/ In (k', v') d.
Proof.
  induction d as [|[k0 v0] d IH]; simpl.
  - intros [H|[]]. injection H as _ <-. auto.
  - destruct (String.eqb k0 k); simpl.
    + intros [H|H]; [injection H as _ <-; auto | auto].
    + intros [H|H]; [auto|]. destruct (IH H); auto.
Qed.

Lemma In_store_all_value cmds : forall commands k cmd,
  In (k, cmd) (store_all cmds commands) -> In cmd cmds \/ In (k, cmd) commands.
Proof.
  induction cmds as [|c cmds IH]; intros commands k cmd H; [auto|].
  cbn [store_all fold_left] in H.
  change (fold_left _ cmds ?d) with (store_all cmds d) in H.
  destruct (IH _ _ _ H) as [H'|H']; [simpl; auto|].
  destruct (In_set_value _ _ _ _ _ H') as [->|H'']; simpl; auto.
Qed.

Lemma map_exn_In {A B} (f : A -> exn B) l : forall bs b,
  map_exn f l = Ok bs -> In b bs -> exists a, In a l /\ f a = Ok b.
Proof.
  induction l as [|a l IH]; intros bs b H Hin; simpl in H.
  - injection H as <-. destruct Hin.
  - destruct (f a) as [b0|] eqn:Ea; simpl in H; [|discriminate].
    destruct (map_exn f l) as [bs0|] eqn:El; simpl in H; [|discriminate].
    injection H as <-. destruct Hin as [<-|Hin].
    + exists a. simpl. auto.
    + destruct (IH _ _ eq_refl Hin) as [a' [Ha' Hf]]. exists a'. simpl. auto.
Qed.

Lemma load_records_inv records : forall commands loaded,
  CommandRegistry.load_records records commands = Ok loaded ->
  exists cmds, map_exn CommandRegistry.build_command records = Ok cmds
               /\ loaded = store_all cmds commands.
Proof.
  induction records as [|r records IH]; intros commands loaded H; simpl in H.
  - injection H as <-. exists []. split; reflexivity.
  - simpl. destruct (CommandRegistry.build_command r) as [cmd|]; simpl in *;
      [|discriminate].
    destruct (IH _ _ H) as [cmds [Hm ->]]. rewrite Hm. simpl.
    exists (cmd :: cmds). split; reflexivity.
Qed.

Lemma build_command_fields r cmd :
  CommandRegistry.build_command r = Ok cmd ->
  RawCommand.key r = Some (Command.key cmd)
  /\ (exists e, Command.environment cmd = Env e
                /\ RawCommand.environment r = Some (ExecutionEnvironment.value e))
  /\ RawCommand.category r = Some (CommandCategory.value (Command.category cmd))
  /\ map_exn AssistantMode.of_value (get_default (RawCommand.modes r) [])
     = Ok (Command.modes cmd)
  /\ Command.args cmd = get_default (RawCommand.args r) []
  /\ Command.requires_confirmation cmd
     = get_default (RawCommand.requires_confirmation r) false
  /\ Command.ai_parsing cmd = get_default (RawCommand.ai_parsing r) false.
Proof.
  unfold CommandRegistry.build_command.
  destruct (RawCommand.key r); simpl; [|discriminate].
  destruct (RawCommand.name r); simpl; [|discriminate].
  destruct (RawCommand.description r); simpl; [|discriminate].
  destruct (RawCommand.keywords r); simpl; [|discriminate].
  destruct (RawCommand.category r) as [cv|]; simpl; [|discriminate].
  destruct (CommandCategory.of_value cv) as [c|] eqn:Ec; simpl; [|discriminate].
  destruct (RawCommand.environment r) as [ev|]; simpl; [|discriminate].
  destruct (ExecutionEnvironment.of_value ev) as [e|] eqn:Ee; simpl; [|discriminate].
  destruct (RawCommand.script_path r); simpl; [|discriminate].
  destruct (map_exn AssistantMode.of_value (get_default (RawCommand.modes r) []))
    as [ms|] eqn:Em; simpl; [|discriminate].
  intros H. injection H as <-. cbn.
  apply category_value_of_value in Ec. apply environment_value_of_value in Ee.
  subst. repeat split. exists e. split; reflexivity.
Qed.

(** X4.  The order of a loaded catalog is the order in which the keys
    first appear in the document: a record that repeats a key replaces
    the command but keeps the place of the first record with that key. *)
Theorem catalog_order_is_first_appearance :
  forall (records : list RawCommand.t) (cmds : list Command.t),
    map_exn CommandRegistry.build_command records = Ok cmds ->
    exists commands,
      CommandRegistry._load_commands (RegistryData (Some records)) = Ok commands
      /\ PyDict.keys commands = first_appearances (map Command.key cmds).
Proof.
  intros records cmds H. exists (store_all cmds PyDict.empty). split.
  - simpl. apply load_records_store, H.
  - rewrite keys_store_all. simpl. apply filter_true.
Qed.

Lemma load_records_first_failure good : forall commands bad rest cmds e,
  map_exn CommandRegistry.build_command good = Ok cmds ->
  CommandRegistry.build_command bad = Raise e ->
  CommandRegistry.load_records (good ++ bad :: rest) commands = Raise e.
Proof.
  induction good as [|r good IH]; intros commands bad rest cmds e Hgood Hbad; simpl.
  - rewrite Hbad. reflexivity.
  - simpl in Hgood.
    destruct (CommandRegistry.build_command r) as [cmd|]; simpl in *; [|discriminate].
    destruct (map_exn CommandRegistry.build_command good) as [cs|] eqn:E;
      simpl in Hgood; [|discriminate].
    eapply IH; [reflexivity | exact Hbad].
Qed.

(** X5.  Loading stops at the first record that cannot be built: when
    the records before it are well formed, the exception that leaves
    [_load_commands] is the one that record raises, whatever follows it
    in the document. *)
Theorem load_reports_first_failure :
  forall (good : list RawCommand.t) (bad : RawCommand.t)
         (rest : list RawCommand.t) (cmds : list Command.t) (e : PyExc),
    map_exn CommandRegistry.build_command good = Ok cmds ->
    CommandRegistry.build_command bad = Raise e ->
    CommandRegistry._load_commands (RegistryData (Some (good ++ bad :: rest)))
    = Raise e.
Proof.
  intros good bad rest cmds e Hgood Hbad. simpl.
  eapply load_records_first_failure; eassumption.
Qed.

Lemma load_commands_inv file commands :
  CommandRegistry._load_commands file = Ok commands ->
  exists cmds, commands = store_all cmds PyDict.empty
               /\ Forall (fun cmd => exists r, CommandRegistry.build_command r = Ok cmd)
                    cmds.
Proof.
  intros H.
  assert (Hrec : exists records,
             CommandRegistry.load_records records PyDict.empty = Ok commands).
  { unfold CommandRegistry._load_commands in H.
    destruct file as [|msg|cs]; [eexists; exact H | discriminate | eexists; exact H]. }
  destruct Hrec as [records Hrec].
  destruct (load_records_inv _ _ _ Hrec) as [cmds [Hm ->]].
  exists cmds. split; [reflexivity|].
  apply Forall_forall. intros cmd Hin.
  destruct (map_exn_In _ _ _ _ Hm Hin) as [r [_ Hr]]. eauto.
Qed.

Lemma get_of_In {V} (d : PyDict.dict V) k v :
  NoDup (PyDict.keys d) -> In (k, v) d -> PyDict.get k d = Some v.
Proof.
  unfold PyDict.keys.
  induction d as [|[k0 v0] d IH]; intros Hnd Hin; [destruct Hin|].
  simpl in *. inversion Hnd as [|? ? Hnot Hnd']; subst.
  destruct Hin as [Hin|Hin].
  - injection Hin as -> ->. rewrite String.eqb_refl. reflexivity.
  - destruct (String.eqb k0 k) eqn:E; [|apply IH; assumption].
    apply String.eqb_eq in E. subst k0. exfalso. apply Hnot.
    apply in_map_iff. exists (k, v). split; [reflexivity | exact Hin].
Qed.

Lemma NoDup_values commands :
  NoDup (PyDict.keys commands) -> stored_under_own_key commands ->
  NoDup (PyDict.values commands).
Proof.
  unfold PyDict.keys, PyDict.values, stored_under_own_key.
  induction commands as [|[k c] commands IH]; intros Hnd Hown; simpl; constructor.
  - inversion Hnd as [|? ? Hnot _]; subst. intros Hin. apply Hnot.
    apply in_map_iff in Hin. destruct Hin as [[k' c'] [Hc Hin]]. simpl in Hc. subst c'.
    apply in_map_iff. exists (k', c). split; [|exact Hin]. simpl.
    rewrite <- (Hown k' c (or_intror Hin)). apply (Hown k c). left. reflexivity.
  - inversion Hnd; subst. apply IH; [assumption|].
    intros k' c' H'. apply Hown. right. exact H'.
Qed.

Lemma map_fst_eligible commands text mode :
  map fst (eligible commands text mode)
  = filter (fun cmd => offered_inb mode cmd
                       && (0 <? accumulated_score text cmd)%float)
      (PyDict.values commands).
Proof. unfold eligible. rewrite map_map. simpl. apply map_id. Qed.

(** X6.  Whatever the registry file holds, a catalog that loads is well
    formed: its keys are all different; each command is stored under its
    own key and is what a lookup of that key returns; its environment is
    a member of the enumeration, so that executing it never ends in the
    unsupported-environment failure; and for no input does [find_matches]
    return a command twice. *)
Theorem loaded_catalog_is_well_formed :
  forall (file : registry_file) (commands : PyDict.dict Command.t),
    CommandRegistry._load_commands file = Ok commands ->
    NoDup (PyDict.keys commands)
    /\ (forall k cmd,
           In (k, cmd) commands ->
           Command.key cmd = k
           /\ PyDict.get k commands = Some cmd
           /\ exists e, Command.environment cmd = Env e)
    /\ (forall user_input mode,
           NoDup (map fst (CommandRegistry.find_matches commands user_input mode))).
Proof.
  intros file commands H.
  destruct (load_commands_inv _ _ H) as [cmds [-> Hbuilt]].
  assert (Hnd : NoDup (PyDict.keys (store_all cmds PyDict.empty))).
  { apply NoDup_keys_store_all. constructor. }
  assert (Hown : stored_under_own_key (store_all cmds PyDict.empty)).
  { apply store_all_own_key. intros k cmd []. }
  split; [exact Hnd|]. split.
  - intros k cmd Hin. split; [apply Hown, Hin|].
    split; [apply get_of_In; assumption|].
    destruct (In_store_all_value _ _ _ _ Hin) as [Hc|[]].
    rewrite Forall_forall in Hbuilt. destruct (Hbuilt cmd Hc) as [r Hr].
    destruct (build_command_fields r cmd Hr) as [_ [[e [He _]] _]]. eauto.
  - intros user_input mode.
    eapply Permutation_NoDup.
    + apply Permutation_map. symmetry. rewrite find_matches_eligible.
      apply sort_by_score_perm.
    + rewrite map_fst_eligible. apply NoDup_filter, NoDup_values; assumption.
Qed.

Lemma map_of_value_values vs : forall ms,
  map_exn AssistantMode.of_value vs = Ok ms -> vs = map AssistantMode.value ms.
Proof.
  induction vs as [|v vs IH]; intros ms H; simpl in H.
  - injection H as <-. reflexivity.
  - destruct (AssistantMode.of_value v) as [m|] eqn:Ev; simpl in H; [|discriminate].
    destruct (map_exn AssistantMode.of_value vs) as [ms'|]; simpl in H; [|discriminate].
    injection H as <-. simpl. f_equal.
    + symmetry. apply mode_value_of_value, Ev.
    + apply IH. reflexivity.
Qed.

Lemma mode_value_injective m m' :
  AssistantMode.value m = AssistantMode.value m' -> m = m'.
Proof. destruct m, m'; solve [reflexivity | discriminate]. Qed.

(** X7.  The mode strings of a record decide where its command is
    offered: in every mode when the record has no [modes] entry or an
    empty one, and otherwise exactly in the modes whose value the entry
    lists. *)
Theorem document_modes_decide_offering :
  forall (r : RawCommand.t) (cmd : Command.t) (mode : AssistantMode.t),
    CommandRegistry.build_command r = Ok cmd ->
    let listed := get_default (RawCommand.modes r) [] in
    offered_in mode cmd <-> listed = [] \/ In (AssistantMode.value mode) listed.
Proof.
  intros r cmd mode H listed.
  destruct (build_command_fields r cmd H) as [_ [_ [_ [Hm _]]]].
  fold listed in Hm. apply map_of_value_values in Hm. rewrite Hm.
  unfold offered_in. split.
  - intros [->|Hin]; [left; reflexivity | right; apply in_map, Hin].
  - intros [Hnil|Hin].
    + left. destruct (Command.modes cmd); [reflexivity | discriminate].
    + right. apply in_map_iff in Hin. destruct Hin as [m [Hv Hin]].
      apply mode_value_injective in Hv. subst m. exact Hin.
Qed.

(** ** The state store and the orchestrator *)

Section DispatcherMore.

Variable clock : nat -> Z.
Variable isoformat : Z -> string.
Variable os_exec : nat -> list string -> exn Completed.
Variable json_dumps : PyDict.dict string -> exn string.

Abbreviation add_to_history := (add_to_history clock isoformat).
Abbreviation execute_command := (execute_command clock os_exec json_dumps).
Abbreviation run_environment := (run_environment os_exec json_dumps).
Abbreviation dispatch := (dispatch clock isoformat os_exec json_dumps).
Abbreviation _load_state := (_load_state isoformat).

Lemma execute_command_world engine command parsed_args w :
  let w' := snd (execute_command engine command parsed_args w) in
  state w' = state w /\ state_file w' = state_file w
  /\ clock_reads w' = S (S (clock_reads w))
  /\ (exec_calls w' = exec_calls w
      \/ exists argv, exec_calls w' = exec_calls w ++ [argv]).
Proof.
  rewrite execute_command_unfolded. cbv zeta.
  destruct (Command.environment command) as [e|shown];
    [destruct (launch_args json_dumps engine e command parsed_args)|];
    cbn; repeat split; eauto.
Qed.

Lemma execute_command_failure engine command parsed_args w :
  let r := fst (execute_command engine command parsed_args w) in
  CommandResult.success r = false -> exists msg, CommandResult.error r = Some msg.
Proof.
  rewrite execute_command_unfolded. cbv zeta.
  destruct (Command.environment command) as [e|shown];
    [destruct (launch_args json_dumps engine e command parsed_args)|];
    cbn; eauto.
  apply child_outcome_error.
Qed.

Lemma child_outcome_success n argv :
  let r := child_outcome os_exec n argv in
  CommandResult.success r = true ->
  exists process out,
    os_exec n argv = Ok process /\ returncode process = 0%Z
    /\ stdout_decoded process = Ok out
    /\ CommandResult.output r = PyStr.strip out
    /\ CommandResult.error r = None.
Proof.
  unfold child_outcome.
  destruct (os_exec n argv) as [p|e]; simpl; [|discriminate].
  destruct (stdout_decoded p) as [out|e] eqn:Eout; simpl; [|discriminate].
  destruct (returncode p =? 0)%Z eqn:E; simpl.
  - intros _. exists p, out. apply Z.eqb_eq in E. auto.
  - destruct (stderr_decoded p); discriminate.
Qed.

Lemma execute_command_success engine command parsed_args w :
  let run := execute_command engine command parsed_args w in
  CommandResult.success (fst run) = true ->
  exists argv process out,
    exec_calls (snd run) = exec_calls w ++ [argv]
    /\ os_exec (List.length (exec_calls w)) argv = Ok process
    /\ returncode process = 0%Z
    /\ stdout_decoded process = Ok out
    /\ CommandResult.output (fst run) = PyStr.strip out
    /\ CommandResult.error (fst run) = None.
Proof.
  rewrite execute_command_unfolded. cbv zeta.
  destruct (Command.environment command) as [e|shown];
    [destruct (launch_args json_dumps engine e command parsed_args) as [argv|]|];
    cbn; try discriminate.
  intros H. destruct (child_outcome_success _ _ H) as [p [out Hp]].
  exists argv, p, out. split; [reflexivity | exact Hp].
Qed.

(** The three ways a dispatch can end well. *)
Lemma dispatch_cases self user_input w r w' :
  dispatch self user_input w = Ok (r, w') ->
  exists mode,
    current_mode w = Ok mode
    /\ let matches :=
         CommandRegistry.find_matches (command_registry self) user_input mode in
       (matches = [] /\ r = no_match /\ w' = w)
       \/ (needs_clarification matches = true
           /\ r = CommandResult.make false
                    (clarify_command user_input (map fst (firstn 3 matches)))
                    (Some "Command needs clarification")
           /\ w' = w)
       \/ (exists command confidence rest,
              matches = (command, confidence) :: rest
              /\ needs_clarification matches = false
              /\ let parsed_args :=
                   if Command.ai_parsing command
                   then Some (parse_command user_input command) else None in
                 let run :=
                   execute_command (execution_engine self) command parsed_args w in
                 r = fst run
                 /\ w' = add_to_history (Command.key command) user_input
                           (fst run) (snd run)).
Proof.
  unfold Dispatcher.dispatch.
  destruct (current_mode w) as [mode|e]; cbn [bind]; [|discriminate].
  intros H. exists mode. split; [reflexivity|]. cbv zeta.
  destruct (CommandRegistry.find_matches (command_registry self) user_input mode)
    as [|[command confidence] rest] eqn:Hm.
  - left. injection H as <- <-. auto.
  - right. destruct (needs_clarification ((command, confidence) :: rest)) eqn:Hc.
    + left. injection H as <- <-. auto.
    + right. exists command, confidence, rest.
      destruct (execute_command _ _ _ _) as [result w1] eqn:Hrun.
      injection H as <- <-. auto.
Qed.

Lemma add_to_history_frame command_key input_text result w :
  let w' := add_to_history command_key input_text result w in
  StateDoc.current_mode (state w') = StateDoc.current_mode (state w)
  /\ StateDoc.aliases (state w') = StateDoc.aliases (state w)
  /\ StateDoc.user_preferences (state w') = StateDoc.user_preferences (state w)
  /\ StateDoc.session_start (state w') = StateDoc.session_start (state w).
Proof. cbv zeta. repeat split. Qed.

(** X8.  [set_mode] and the [current_mode] property are inverse to each
    other through the state document: after [set_mode(mode)] the current
    mode is [mode], whatever the document held before, also a string that
    is no mode; the file is rewritten with the document; and the history
    and the child processes are not touched. *)
Theorem set_mode_round_trip :
  forall (mode : AssistantMode.t) (w : World),
    let w' := set_mode mode w in
    current_mode w' = Ok mode
    /\ in_sync w'
    /\ StateDoc.last_commands (state w') = StateDoc.last_commands (state w)
    /\ StateDoc.aliases (state w') = StateDoc.aliases (state w)
    /\ exec_calls w' = exec_calls w
    /\ clock_reads w' = clock_reads w.
Proof.
  intros mode w w'. split; [|repeat split].
  unfold w', current_mode, set_mode, set_current_mode. cbn.
  apply mode_of_value_value.
Qed.

Lemma current_mode_unknown w v :
  StateDoc.current_mode (state w) = Some v -> unknown_mode v ->
  current_mode w = Raise (not_a_valid v "AssistantMode").
Proof.
  intros Hv Hu. unfold current_mode. rewrite Hv. cbn [get_default].
  apply mode_of_unknown, Hu.
Qed.

(** X9.  When the state document holds a [current_mode] that is the value
    of no mode, every operation that reads the current mode raises the
    [ValueError] of the enumeration and does nothing else: [dispatch],
    [get_available_commands] without a mode and [get_stats].  Listing the
    commands of a mode given explicitly still works, and after a
    [set_mode] a dispatch returns again. *)
Theorem unknown_stored_mode_raises :
  forall (self : VoiceAssistantDispatcher) (user_input : string) (w : World)
         (v : string),
    StateDoc.current_mode (state w) = Some v ->
    unknown_mode v ->
    let e := not_a_valid v "AssistantMode" in
    dispatch self user_input w = Raise e
    /\ get_available_commands self None w = Raise e
    /\ get_stats w = Raise e
    /\ (forall mode, exists listed,
           get_available_commands self (Some mode) w = Ok listed)
    /\ (forall mode, exists r w',
           dispatch self user_input (set_mode mode w) = Ok (r, w')).
Proof.
  intros self user_input w v Hv Hu e.
  pose proof (current_mode_unknown w v Hv Hu) as Hm. fold e in Hm.
  split; [unfold Dispatcher.dispatch; rewrite Hm; reflexivity|].
  split; [unfold get_available_commands; rewrite Hm; reflexivity|].
  split; [unfold get_stats; rewrite Hm; reflexivity|].
  split; [intros mode; eexists; reflexivity|].
  intros mode. unfold Dispatcher.dispatch.
  assert (Hs : current_mode (set_mode mode w) = Ok mode).
  { unfold current_mode, set_mode, set_current_mode. cbn. apply mode_of_value_value. }
  rewrite Hs. cbn [bind].
  destruct (CommandRegistry.find_matches _ _ _) as [|[command confidence] rest];
    [eauto|].
  destruct (needs_clarification _); [eauto|].
  destruct (execute_command _ _ _ _). eauto.
Qed.

Lemma dispatch_in_sync self user_input w r w' :
  in_sync w -> dispatch self user_input w = Ok (r, w') -> in_sync w'.
Proof.
  intros Hw H. destruct (dispatch_cases _ _ _ _ _ H) as [mode [_ Hc]].
  cbv zeta in Hc.
  destruct Hc as [[_ [_ ->]]|[[_ [_ ->]]|[c [s [rest [_ [_ [_ ->]]]]]]]];
    [exact Hw | exact Hw | reflexivity].
Qed.

(** X10.  Persistence is write-through.  Each mutation ([set_mode],
    [add_alias], [add_to_history]) leaves the state file holding exactly
    the dictionary in memory; a dispatch keeps the two equal when they
    were; and loading such a file, as a restart does, gives the same
    dictionary back. *)
Theorem state_file_follows_memory :
  (forall mode w, in_sync (set_mode mode w))
  /\ (forall alias command_key w, in_sync (add_alias alias command_key w))
  /\ (forall command_key input_text result w,
         in_sync (add_to_history command_key input_text result w))
  /\ (forall self user_input w r w',
         in_sync w -> dispatch self user_input w = Ok (r, w') -> in_sync w')
  /\ (forall w now, in_sync w -> _load_state (state_file w) now = state w).
Proof.
  split; [reflexivity|]. split; [reflexivity|]. split; [reflexivity|].
  split; [apply dispatch_in_sync|].
  intros w now H. unfold in_sync in H. rewrite H. reflexivity.
Qed.

(** X11.  What a dispatch never touches.  Whatever the input and the
    catalog, the world after a dispatch has the same mode, aliases,
    preferences and session start; the calls made before it are all
    still there, in order, followed by one new call at most; and the
    clock has been read three times or not at all. *)
Theorem dispatch_frame :
  forall (self : VoiceAssistantDispatcher) (user_input : string) (w : World)
         (r : CommandResult.t) (w' : World),
    dispatch self user_input w = Ok (r, w') ->
    StateDoc.current_mode (state w') = StateDoc.current_mode (state w)
    /\ StateDoc.aliases (state w') = StateDoc.aliases (state w)
    /\ StateDoc.user_preferences (state w') = StateDoc.user_preferences (state w)
    /\ StateDoc.session_start (state w') = StateDoc.session_start (state w)
    /\ (exec_calls w' = exec_calls w
        \/ exists argv, exec_calls w' = exec_calls w ++ [argv])
    /\ (clock_reads w' = clock_reads w \/ clock_reads w' = 3 + clock_reads w).
Proof.
  intros self user_input w r w' H.
  destruct (dispatch_cases _ _ _ _ _ H) as [mode [_ Hc]]. cbv zeta in Hc.
  destruct Hc as [[_ [_ ->]]|[[_ [_ ->]]|[c [s [rest [_ [_ [_ ->]]]]]]]];
    try (repeat split; auto; fail).
  set (args := if Command.ai_parsing c then _ else _).
  set (run := execute_command (execution_engine self) c args w).
  destruct (execute_command_world (execution_engine self) c args w)
    as [Hs [_ [Hc Hcalls]]].
  cbv zeta in Hs, Hc, Hcalls. fold run in Hs, Hc, Hcalls.
  destruct (add_to_history_frame (Command.key c) user_input (fst run) (snd run))
    as [F1 [F2 [F3 F4]]].
  destruct (add_to_history_state clock isoformat (Command.key c) user_input
              (fst run) (snd run)) as [_ [_ [G1 G2]]].
  cbv zeta in F1, F2, F3, F4, G1, G2.
  rewrite F1, F2, F3, F4, G1, G2, Hs, Hc. repeat split; auto.
Qed.

(** X12.  A dispatch changes the world only by executing a command, and
    then it records exactly that: either the world is the one it
    started from and the result is a failure, or the history is the
    former one with one new entry at its end (cut to its last 50) whose
    command is the key of the first candidate, whose input is the text
    as it was typed and whose success flag is the one of the result. *)
Theorem dispatch_records_what_it_ran :
  forall (self : VoiceAssistantDispatcher) (user_input : string) (w : World)
         (r : CommandResult.t) (w' : World),
    dispatch self user_input w = Ok (r, w') ->
    (w' = w /\ CommandResult.success r = false)
    \/ (exists mode command confidence rest entry,
           current_mode w = Ok mode
           /\ CommandRegistry.find_matches (command_registry self) user_input mode
              = (command, confidence) :: rest
           /\ StateDoc.last_commands (state w')
              = Some (PyList.last_n 50 (history w ++ [entry]))
           /\ HistoryEntry.command entry = Command.key command
           /\ HistoryEntry.input entry = user_input
           /\ HistoryEntry.success entry = CommandResult.success r
           /\ HistoryEntry.output entry = stored_output (CommandResult.output r)).
Proof.
  intros self user_input w r w' H.
  destruct (dispatch_cases _ _ _ _ _ H) as [mode [Hmode Hc]]. cbv zeta in Hc.
  destruct Hc as [[_ [-> ->]]|[[_ [-> ->]]|[c [s [rest [Hm [_ [-> ->]]]]]]]];
    [left; split; reflexivity | left; split; reflexivity |].
  right. set (args := if Command.ai_parsing c then _ else _).
  set (run := execute_command (execution_engine self) c args w).
  destruct (execute_command_world (execution_engine self) c args w) as [Hs _].
  cbv zeta in Hs. fold run in Hs.
  exists mode, c, s, rest.
  eexists. split; [exact Hmode|]. split; [exact Hm|].
  destruct (add_to_history_state clock isoformat (Command.key c) user_input
              (fst run) (snd run)) as [G _].
  cbv zeta in G. split; [rewrite G; unfold history; rewrite Hs; reflexivity|].
  repeat split.
Qed.

(** X13.  What the result of a dispatch says about the child.  A result
    with [success = True] means that one child process was started by
    this dispatch, ended with exit status 0, and that the output is its
    decoded standard output without the white space around it, with no
    error text; a result with [success = False], for whatever reason,
    carries an error text. *)
Theorem dispatch_result_meaning :
  forall (self : VoiceAssistantDispatcher) (user_input : string) (w : World)
         (r : CommandResult.t) (w' : World),
    dispatch self user_input w = Ok (r, w') ->
    (CommandResult.success r = true ->
     exists argv process out,
       exec_calls w' = exec_calls w ++ [argv]
       /\ os_exec (List.length (exec_calls w)) argv = Ok process
       /\ returncode process = 0%Z
       /\ stdout_decoded process = Ok out
       /\ CommandResult.output r = PyStr.strip out
       /\ CommandResult.error r = None)
    /\ (CommandResult.success r = false ->
        exists msg, CommandResult.error r = Some msg).
Proof.
  intros self user_input w r w' H.
  destruct (dispatch_cases _ _ _ _ _ H) as [mode [_ Hc]]. cbv zeta in Hc.
  destruct Hc as [[_ [-> ->]]|[[_ [-> ->]]|[c [s [rest [_ [_ [-> ->]]]]]]]];
    try (split; [discriminate | cbn; eauto]; fail).
  set (args := if Command.ai_parsing c then _ else _).
  split.
  - intros Hok.
    destruct (execute_command_success (execution_engine self) c args w Hok)
      as [argv [p [out [Hcalls Hrest]]]].
    exists argv, p, out. split; [exact Hcalls | exact Hrest].
  - apply execute_command_failure.
Qed.

Lemma launch_args_python_only engine e command parsed_args :
  e <> ExecutionEnvironment.PYTHON ->
  launch_args json_dumps engine e command parsed_args
  = launch_args json_dumps engine e command None.
Proof. intros H. destruct e; solve [reflexivity | contradiction H; reflexivity]. Qed.

(** X14.  The parsed arguments reach Python scripts only.  For a command
    of any other environment, and for an empty dictionary of arguments,
    [execute_command] does exactly what it does without arguments; for a
    Python script and a dictionary that is not empty the child is started
    with the declared arguments followed by [--parsed-args] and the JSON
    text. *)
Theorem parsed_args_reach_python_only :
  forall (engine : ExecutionEngine) (command : Command.t) (w : World),
    (forall parsed_args,
        Command.environment command <> Env ExecutionEnvironment.PYTHON ->
        execute_command engine command parsed_args w
        = execute_command engine command None w)
    /\ execute_command engine command (Some PyDict.empty) w
       = execute_command engine command None w
    /\ (forall kv rest encoded,
           Command.environment command = Env ExecutionEnvironment.PYTHON ->
           json_dumps (kv :: rest) = Ok encoded ->
           exec_calls (snd (execute_command engine command (Some (kv :: rest)) w))
           = exec_calls w
             ++ [[python_path engine; Command.script_path command]
                 ++ Command.args command ++ ["--parsed-args"; encoded]]).
Proof.
  intros engine command w. split; [|split].
  - intros parsed_args Hne. rewrite !execute_command_unfolded. cbv zeta.
    destruct (Command.environment command) as [e|shown]; [|reflexivity].
    rewrite (launch_args_python_only engine e command parsed_args); [reflexivity|].
    intros ->. apply Hne. reflexivity.
  - rewrite !execute_command_unfolded. cbv zeta.
    destruct (Command.environment command) as [e|shown]; [|reflexivity].
    destruct e; reflexivity.
  - intros kv rest encoded Henv Hjson. rewrite execute_command_unfolded. cbv zeta.
    rewrite Henv. cbn [launch_args]. rewrite Hjson. reflexivity.
Qed.

(** X15.  Aliases are stored and never consulted.  A dispatch in a world
    to which an alias has been added finds the same candidates, starts
    the same child and returns the same result as without the alias; the
    two worlds after it differ by the alias alone. *)
Theorem dispatch_ignores_aliases :
  forall (self : VoiceAssistantDispatcher) (user_input alias command_key : string)
         (w : World),
    dispatch self user_input (add_alias alias command_key w)
    = keep_alias alias command_key (dispatch self user_input w).
Proof.
  intros self user_input alias command_key w.
  unfold Dispatcher.dispatch.
  change (current_mode (add_alias alias command_key w)) with (current_mode w).
  destruct (current_mode w) as [mode|e]; cbn [bind keep_alias]; [|reflexivity].
  destruct (CommandRegistry.find_matches _ _ _) as [|[command confidence] rest];
    [reflexivity|].
  destruct (needs_clarification _); [reflexivity|].
  rewrite !execute_command_unfolded. cbv zeta.
  destruct (Command.environment command) as [e|shown];
    [destruct (launch_args _ _ _ _ _)|]; reflexivity.
Qed.

Lemma skipn_slice {A} (k : Z) (l : list A) :
  (k < 0)%Z ->
  PySeq.slice_from k l = PyList.last_n (Z.to_nat (- k)) l.
Proof.
  intros Hk. unfold PySeq.slice_from, PyList.last_n.
  destruct (Z.ltb_spec k 0); [|lia]. f_equal. lia.
Qed.

Lemma last_n_length_min {A} (n : nat) (l : list A) :
  List.length (PyList.last_n n l) = Nat.min n (List.length l).
Proof. unfold PyList.last_n. rewrite length_skipn. lia. Qed.

Lemma last_n_app_one {A} (l : list A) (x : A) :
  PyList.last_n 1 (l ++ [x]) = [x].
Proof.
  unfold PyList.last_n. rewrite length_app. cbn [List.length].
  replace (List.length l + 1 - 1) with (List.length l + 0) by lia.
  rewrite skipn_app, Nat.add_0_r, skipn_all.
  replace (List.length l - List.length l) with 0 by lia. reflexivity.
Qed.

Lemma last_n_last_n {A} (n m : nat) (l : list A) :
  n <= m -> PyList.last_n n (PyList.last_n m l) = PyList.last_n n l.
Proof.
  intros H. unfold PyList.last_n. rewrite length_skipn, skipn_skipn. f_equal. lia.
Qed.

(** X16.  [get_command_history(limit)] returns the last [limit] entries of
    the history when [limit] is positive: at most [limit] of them, all of
    them when there are fewer.  With [limit = 0] it returns the whole
    history and not the empty list, and a negative [limit] drops that many
    entries from the front.  Right after a command has been recorded,
    [get_command_history(1)] is the entry of that command. *)
Theorem get_command_history_slices :
  forall (limit : Z) (w : World),
    ((0 < limit)%Z ->
       get_command_history limit w = PyList.last_n (Z.to_nat limit) (history w)
       /\ List.length (get_command_history limit w)
          = Nat.min (Z.to_nat limit) (List.length (history w)))
    /\ (limit = 0%Z -> get_command_history limit w = history w)
    /\ ((limit < 0)%Z ->
          get_command_history limit w = skipn (Z.to_nat (- limit)) (history w))
    /\ (forall command_key input_text result,
          get_command_history 1 (add_to_history command_key input_text result w)
          = [entry_of isoformat (clock (clock_reads w)) command_key input_text result]).
Proof.
  intros limit w. unfold Dispatcher.get_command_history. fold (history w).
  split; [|split; [|split]].
  - intros H. rewrite skipn_slice by lia. rewrite Z.opp_involutive.
    split; [reflexivity | apply last_n_length_min].
  - intros ->. unfold PySeq.slice_from. cbn [Z.opp Z.ltb Z.compare].
    rewrite Z.min_l by lia. reflexivity.
  - intros H. unfold PySeq.slice_from.
    destruct (Z.ltb_spec (- limit) 0); [lia|].
    destruct (Z.min_spec (- limit) (Z.of_nat (List.length (history w))))
      as [[Hlt ->]|[Hge ->]]; [reflexivity|].
    rewrite Nat2Z.id. rewrite skipn_all. symmetry. apply skipn_all2. lia.
  - intros command_key input_text result.
    destruct (add_to_history_state clock isoformat command_key input_text result w)
      as [Hh _].
    cbv zeta in Hh. rewrite skipn_slice by lia.
    change (Z.to_nat (- - (1))) with 1.
    rewrite Hh. cbn [get_default].
    rewrite last_n_last_n by lia. apply last_n_app_one.
Qed.

Lemma filter_length_le {A} (f : A -> bool) (l : list A) :
  List.length (filter f l) <= List.length l.
Proof. induction l as [|x l IH]; simpl; [lia|]. destruct (f x); simpl; lia. Qed.

Lemma filter_length_all {A} (f : A -> bool) (l : list A) :
  List.length (filter f l) = List.length l <-> Forall (fun x => f x = true) l.
Proof.
  induction l as [|x l IH]; simpl.
  - split; [constructor | reflexivity].
  - pose proof (filter_length_le f l) as Hle.
    destruct (f x) eqn:E; simpl; split; intros H.
    + constructor; [exact E | apply IH; lia].
    + inversion H; subst. f_equal. apply IH. assumption.
    + lia.
    + inversion H; subst. congruence.
Qed.

Lemma filter_length_none {A} (f : A -> bool) (l : list A) :
  List.length (filter f l) = 0 <-> Forall (fun x => f x = false) l.
Proof.
  induction l as [|x l IH]; simpl.
  - split; [constructor | reflexivity].
  - destruct (f x) eqn:E; simpl; split; intros H.
    + discriminate H.
    + inversion H; subst. congruence.
    + constructor; [exact E | apply IH; exact H].
    + inversion H; subst. apply IH. assumption.
Qed.

Lemma rate_in_range_table :
  forallb (fun t => forallb (fun s => rate_in_range (S t) s) (seq 0 (S (S t))))
    (seq 0 50) = true.
Proof. vm_compute. reflexivity. Qed.

Lemma rate_in_range_50 (total successful : nat) :
  0 < total <= 50 -> successful <= total -> rate_in_range total successful = true.
Proof.
  intros Ht Hs. destruct total as [|t]; [lia|].
  pose proof rate_in_range_table as H.
  rewrite forallb_forall in H. specialize (H t).
  rewrite forallb_forall in H. apply H; apply in_seq; lia.
Qed.

(** X17.  The figures of [get_stats], for a history of at most 50 entries
    (the length [add_to_history] keeps it to).  The total is the length of
    the history and the successful commands are never more.  With an empty
    history the rate is the integer 0; otherwise it is a float between 0
    and 1, equal to 1 exactly when every recorded command succeeded and to
    0 exactly when none did.  The mode reported is the stored one. *)
Theorem get_stats_figures :
  forall (w : World) (stats : Stats.t),
    get_stats w = Ok stats ->
    List.length (history w) <= 50 ->
    Stats.total_commands stats = List.length (history w)
    /\ Stats.successful_commands stats <= Stats.total_commands stats
    /\ (history w = [] -> Stats.success_rate stats = PyInt 0)
    /\ (history w <> [] ->
          exists x : float,
            Stats.success_rate stats = PyFloat x
            /\ (0 <=? x)%float = true /\ (x <=? 1)%float = true
            /\ ((x =? 1)%float = true
                <-> Forall (fun e => HistoryEntry.success e = true) (history w))
            /\ ((x =? 0)%float = true
                <-> Forall (fun e => HistoryEntry.success e = false) (history w)))
    /\ (exists mode, current_mode w = Ok mode
                     /\ Stats.current_mode stats = AssistantMode.value mode)
    /\ Stats.session_start stats = StateDoc.session_start (state w).
Proof.
  intros w stats H Hlen. unfold Dispatcher.get_stats in H. cbv zeta in H.
  fold (history w) in H.
  destruct (current_mode w) as [mode|e]; [|discriminate H].
  cbn [bind] in H. injection H as <-. cbn [Stats.total_commands
    Stats.successful_commands Stats.success_rate Stats.current_mode
    Stats.session_start].
  pose proof (filter_length_le HistoryEntry.success (history w)) as Hle.
  split; [reflexivity|]. split; [exact Hle|].
  split; [intros ->; reflexivity|].
  split; [|split; [exists mode; split; reflexivity | reflexivity]].
  intros Hne.
  assert (Hpos : 0 < List.length (history w))
    by (destruct (history w); [contradiction Hne; reflexivity | simpl; lia]).
  destruct (Nat.ltb_spec 0 (List.length (history w))) as [_|]; [|lia].
  eexists. split; [reflexivity|].
  pose proof (rate_in_range_50 (List.length (history w))
                (List.length (filter HistoryEntry.success (history w)))
                (conj Hpos Hlen) Hle) as Hr.
  unfold rate_in_range in Hr. cbv zeta in Hr.
  apply andb_prop in Hr. destruct Hr as [Hr H0].
  apply andb_prop in Hr. destruct Hr as [Hr H1].
  apply andb_prop in Hr. destruct Hr as [Hlo Hhi].
  apply Bool.eqb_prop in H0, H1.
  split; [exact Hlo|]. split; [exact Hhi|]. split.
  - rewrite H1, Nat.eqb_eq. apply filter_length_all.
  - rewrite H0, Nat.eqb_eq. apply filter_length_none.
Qed.
End DispatcherMore.

(** ** The constructor of the execution engine *)

Section ProbeFacts.

Variable subprocess_run : list string -> exn Z.
Variable path_exists : string -> bool.

Lemma find_python_in_spec (paths : list string) :
  match find_python_in subprocess_run paths with
  | Ok path =>
      first_such (answers subprocess_run) (declines subprocess_run) paths path
      \/ (path = "python" /\ Forall (declines subprocess_run) paths)
  | Raise e =>
      exists path,
        first_such (fun p => breaks subprocess_run e [p; "--version"])
          (declines subprocess_run) paths path
  end.
Proof.
  induction paths as [|p rest IH]; cbn [find_python_in].
  - right. split; [reflexivity | constructor].
  - destruct (subprocess_run [p; "--version"]) as [status|e] eqn:Erun.
    + destruct (Z.eqb_spec status 0) as [->|Hne].
      * left. exists [], rest. repeat split; [constructor | exact Erun].
      * assert (Hd : declines subprocess_run p)
          by (left; exists status; split; assumption).
        destruct (find_python_in subprocess_run rest) as [path|e'].
        -- destruct IH as [[before [after [-> [Hq Hp]]]]|[-> Hall]].
           ++ left. exists (p :: before), after.
              repeat split; [constructor; assumption | exact Hp].
           ++ right. split; [reflexivity | constructor; assumption].
        -- destruct IH as [path [before [after [-> [Hq Hp]]]]].
           exists path, (p :: before), after.
           repeat split; solve [constructor; assumption | apply Hp].
    + destruct (exc_type e) eqn:Ety;
        try (exists p, [], rest; repeat split;
             [constructor | exact Erun | rewrite Ety; discriminate]).
      assert (Hd : declines subprocess_run p)
        by (right; exists e; split; assumption).
      destruct (find_python_in subprocess_run rest) as [path|e'].
      * destruct IH as [[before [after [-> [Hq Hp]]]]|[-> Hall]].
        -- left. exists (p :: before), after.
           repeat split; [constructor; assumption | exact Hp].
        -- right. split; [reflexivity | constructor; assumption].
      * destruct IH as [path [before [after [-> [Hq Hp]]]]].
        exists path, (p :: before), after.
        repeat split; solve [constructor; assumption | apply Hp].
Qed.

(** X18.  [_find_python_executable] returns the first of [python],
    [python3] and [py] whose [--version] exits with status 0, the ones
    before it having exited with another status or not been found; it
    returns [python] when all three decline.  It raises only the exception
    of a candidate that could not be started for a reason other than
    [FileNotFoundError], the candidates before that one having declined. *)
Theorem find_python_executable_spec :
  match _find_python_executable subprocess_run with
  | Ok path =>
      In path ["python"; "python3"; "py"]
      /\ (first_such (answers subprocess_run) (declines subprocess_run)
            ["python"; "python3"; "py"] path
          \/ (path = "python"
              /\ Forall (declines subprocess_run) ["python"; "python3"; "py"]))
  | Raise e =>
      exists path,
        first_such (fun p => breaks subprocess_run e [p; "--version"])
          (declines subprocess_run) ["python"; "python3"; "py"] path
  end.
Proof.
  unfold Dispatcher._find_python_executable.
  pose proof (find_python_in_spec ["python"; "python3"; "py"]) as H.
  destruct (find_python_in subprocess_run _) as [path|e]; [|exact H].
  split; [|exact H].
  destruct H as [[before [after [Heq _]]]|[-> _]]; [|left; reflexivity].
  rewrite Heq. apply in_elt.
Qed.

Lemma find_ahk_in_spec (paths : list string) :
  match find_ahk_in subprocess_run path_exists paths with
  | Ok path =>
      first_such (present subprocess_run path_exists)
        (missing subprocess_run path_exists) paths path
      \/ (path = "autohotkey.exe"
          /\ Forall (missing subprocess_run path_exists) paths)
  | Raise e =>
      exists path,
        first_such (fun p => path_exists p = false /\ breaks subprocess_run e [p])
          (missing subprocess_run path_exists) paths path
  end.
Proof.
  induction paths as [|p rest IH]; cbn [find_ahk_in].
  - right. split; [reflexivity | constructor].
  - destruct (path_exists p) eqn:Eex.
    + left. exists [], rest. repeat split; [constructor | left; exact Eex].
    + unfold Dispatcher._command_exists.
      destruct (subprocess_run [p]) as [status|e] eqn:Erun; cbn [bind].
      * left. exists [], rest.
        repeat split; [constructor | right; split; [exact Eex | exists status; exact Erun]].
      * destruct (exc_type e) eqn:Ety; cbn [bind];
          try (exists p, [], rest; repeat split;
               [constructor | exact Eex | exact Erun | rewrite Ety; discriminate]).
        assert (Hd : missing subprocess_run path_exists p)
          by (split; [exact Eex | exists e; split; assumption]).
        destruct (find_ahk_in subprocess_run path_exists rest) as [path|e'].
        -- destruct IH as [[before [after [-> [Hq Hp]]]]|[-> Hall]].
           ++ left. exists (p :: before), after.
              repeat split; [constructor; assumption | exact Hp].
           ++ right. split; [reflexivity | constructor; assumption].
        -- destruct IH as [path [before [after [-> [Hq Hp]]]]].
           exists path, (p :: before), after.
           repeat split; solve [constructor; assumption | apply Hp].
Qed.

(** X19.  [_find_ahk_executable] returns the first of its four paths that
    is a file or that can be started as a program, whatever status the
    program exits with; every path before it is no file and no program.
    It returns [autohotkey.exe] when all four are missing, and raises only
    the exception of a path that is no file and could not be started for a
    reason other than [FileNotFoundError]. *)
Theorem find_ahk_executable_spec :
  match _find_ahk_executable subprocess_run path_exists with
  | Ok path =>
      In path ahk_common_paths
      /\ (first_such (present subprocess_run path_exists)
            (missing subprocess_run path_exists) ahk_common_paths path
          \/ (path = "autohotkey.exe"
              /\ Forall (missing subprocess_run path_exists) ahk_common_paths))
  | Raise e =>
      exists path,
        first_such (fun p => path_exists p = false /\ breaks subprocess_run e [p])
          (missing subprocess_run path_exists) ahk_common_paths path
  end.
Proof.
  unfold Dispatcher._find_ahk_executable.
  pose proof (find_ahk_in_spec ahk_common_paths) as H.
  destruct (find_ahk_in subprocess_run path_exists _) as [path|e]; [|exact H].
  split; [|exact H].
  destruct H as [[before [after [Heq _]]]|[-> _]].
  - rewrite Heq. apply in_elt.
  - right. right. left. reflexivity.
Qed.

(** X27.  The constructor of the engine.  When it returns, the Python
    path is one of the three candidates and the AutoHotkey path one of
    the four, while the Java and Node paths are [java] and [node]
    whatever is installed: these two are not looked for.  When it raises,
    the exception is one that starting a probe raised and that is no
    [FileNotFoundError]; a failing Python probe ends the constructor
    before AutoHotkey is looked for. *)
Theorem new_engine_paths :
  match new_engine subprocess_run path_exists with
  | Ok engine =>
      In (python_path engine) ["python"; "python3"; "py"]
      /\ In (ahk_path engine) ahk_common_paths
      /\ java_path engine = "java"
      /\ node_path engine = "node"
      /\ _find_python_executable subprocess_run = Ok (python_path engine)
      /\ _find_ahk_executable subprocess_run path_exists = Ok (ahk_path engine)
  | Raise e =>
      (exists argv, breaks subprocess_run e argv)
      /\ (_find_python_executable subprocess_run = Raise e
          \/ (exists python,
                 _find_python_executable subprocess_run = Ok python
                 /\ _find_ahk_executable subprocess_run path_exists = Raise e))
  end.
Proof.
  unfold Dispatcher.new_engine, Dispatcher._find_python_executable,
    Dispatcher._find_ahk_executable.
  pose proof (find_python_in_spec ["python"; "python3"; "py"]) as Hp.
  pose proof (find_ahk_in_spec ahk_common_paths) as Ha.
  destruct (find_python_in subprocess_run _) as [python|e]; cbn [bind].
  - destruct (find_ahk_in subprocess_run path_exists _) as [ahk|e]; cbn [bind].
    + cbn [python_path ahk_path java_path node_path].
      split; [|split; [|repeat split]].
      * destruct Hp as [[before [after [Heq _]]]|[-> _]]; [|left; reflexivity].
        rewrite Heq. apply in_elt.
      * destruct Ha as [[before [after [Heq _]]]|[-> _]].
        -- rewrite Heq. apply in_elt.
        -- right. right. left. reflexivity.
    + destruct Ha as [path [before [after [_ [_ [_ Hb]]]]]].
      split; [exists [path]; exact Hb|]. right. exists python. split; reflexivity.
  - destruct Hp as [path [before [after [_ [_ Hb]]]]].
    split; [exists [path; "--version"]; exact Hb|]. left. reflexivity.
Qed.

End ProbeFacts.

(** ** What help lists and what an input can reach *)

Lemma contains_refl s : PyStr.contains s s = true.
Proof. apply contains_of_startswith, startswith_refl. Qed.

(** X20.  The commands [get_available_commands] lists for the current
    mode are the ones an input can reach in that mode: every candidate of
    every input is listed, and a listed command is a candidate for the
    input that is one of its keywords.  A listed command that has no
    keyword is a candidate for no input. *)
Theorem listed_commands_are_the_reachable_ones :
  forall (self : VoiceAssistantDispatcher) (w : World) (mode : AssistantMode.t),
    current_mode w = Ok mode ->
    exists listed,
      get_available_commands self None w = Ok listed
      /\ get_available_commands self (Some mode) w = Ok listed
      /\ (forall user_input cmd,
             In cmd (map fst (CommandRegistry.find_matches (command_registry self)
                                user_input mode)) ->
             In cmd listed)
      /\ (forall cmd keyword,
             In cmd listed -> In keyword (Command.keywords cmd) ->
             In cmd (map fst (CommandRegistry.find_matches (command_registry self)
                                keyword mode)))
      /\ (forall cmd user_input,
             In cmd listed -> Command.keywords cmd = [] ->
             ~ In cmd (map fst (CommandRegistry.find_matches (command_registry self)
                                  user_input mode))).
Proof.
  intros self w mode Hmode. unfold Dispatcher.get_available_commands.
  rewrite Hmode. cbn [bind]. eexists. split; [reflexivity|]. split; [reflexivity|].
  assert (Hoff : forall cmd, offered_inb mode cmd = true <-> offered_in mode cmd).
  { intros cmd. unfold offered_inb, offered_in. destruct (Command.modes cmd) as [|m ms].
    - split; auto.
    - rewrite mem_In. split; [intros H; right; exact H|].
      intros [H|H]; [discriminate H | exact H]. }
  split; [|split].
  - intros user_input cmd H. apply In_candidates in H. destruct H as [Hin [Ho _]].
    apply filter_In. split; [exact Hin | apply Hoff, Ho].
  - intros cmd keyword H Hk. apply filter_In in H. destruct H as [Hin Ho].
    apply In_candidates. split; [exact Hin|]. split; [apply Hoff, Ho|].
    apply existsb_exists. exists keyword. split; [exact Hk|].
    unfold hits. apply contains_refl.
  - intros cmd user_input H Hk Hc. apply In_candidates in Hc.
    destruct Hc as [_ [_ Hc]]. rewrite Hk in Hc. discriminate Hc.
Qed.

(** ** The text front end *)

Section AssistantFacts.

Variable clock : nat -> Z.
Variable isoformat : Z -> string.
Variable os_exec : nat -> list string -> exn Completed.
Variable json_dumps : PyDict.dict string -> exn string.
Variable speaker : string.
Variable check_mark : string.
Variable cross_mark : string.
Variable clipboard : string.
Variable bar_chart : string.
Variable bullet : string.
Variable format_percent : py_number -> string.

Abbreviation dispatch := (dispatch clock isoformat os_exec json_dumps).
Abbreviation handle_mode_switch := (Assistant.handle_mode_switch speaker).
Abbreviation show_help := (Assistant.show_help clipboard bullet).
Abbreviation show_status :=
  (Assistant.show_status check_mark cross_mark bar_chart format_percent).
Abbreviation apology := (Assistant.apology cross_mark).
Abbreviation process_text_input :=
  (Assistant.process_text_input clock isoformat os_exec json_dumps speaker
     check_mark cross_mark clipboard bar_chart bullet format_percent).

Lemma process_switch self text w :
  is_switch text = true ->
  process_text_input self text w = handle_mode_switch text w.
Proof.
  intros H. unfold Assistant.process_text_input.
  unfold is_switch in H. rewrite H. reflexivity.
Qed.

Lemma handle_mode_switch_named text w :
  handle_mode_switch text w
  = match named_mode text with
    | Some mode =>
        (set_mode mode w,
         [(speaker ++ " Switched to " ++ AssistantMode.value mode ++ " mode")%string])
    | None =>
        (w, [(speaker ++ " Available modes: coding, study, streaming, general")%string])
    end.
Proof.
  unfold Assistant.handle_mode_switch, named_mode, switch_order. cbv zeta.
  cbn [find AssistantMode.value].
  destruct (PyStr.contains "coding" (PyStr.lower text)); [reflexivity|].
  destruct (PyStr.contains "study" (PyStr.lower text)); [reflexivity|].
  destruct (PyStr.contains "streaming" (PyStr.lower text)); [reflexivity|].
  destruct (PyStr.contains "general" (PyStr.lower text)); reflexivity.
Qed.

Lemma switch_text_named text mode :
  PyStr.lower text = switch_text mode ->
  is_switch text = true /\ named_mode text = Some mode.
Proof.
  intros H. unfold is_switch, named_mode. rewrite H.
  destruct mode; split; reflexivity.
Qed.

(** X21.  A text that starts with [switch to] and holds [mode] is never
    dispatched.  It sets the first of coding, study, streaming and
    general whose name occurs anywhere in the lower-cased text, and
    announces it; when no name occurs the world is left as it is and the
    modes are listed.  In particular [switch to <mode> mode], in any
    letter case, sets that mode for each of the four modes, after which
    [current_mode] is that mode. *)
Theorem switch_text_sets_named_mode :
  forall (self : VoiceAssistantDispatcher) (text : string) (w : World),
    is_switch text = true ->
    process_text_input self text w
    = match named_mode text with
      | Some mode =>
          (set_mode mode w,
           [(speaker ++ " Switched to " ++ AssistantMode.value mode ++ " mode")%string])
      | None =>
          (w, [(speaker ++ " Available modes: coding, study, streaming, general")%string])
      end
    /\ (forall mode,
          PyStr.lower text = switch_text mode ->
          named_mode text = Some mode
          /\ current_mode (fst (process_text_input self text w)) = Ok mode).
Proof.
  intros self text w Hs. rewrite (process_switch self text w Hs).
  split; [apply handle_mode_switch_named|].
  intros mode Hm. destruct (switch_text_named text mode Hm) as [_ Hn].
  split; [exact Hn|]. rewrite handle_mode_switch_named, Hn. cbn [fst].
  destruct mode; reflexivity.
Qed.

Lemma handle_mode_switch_frame text w :
  let w' := fst (handle_mode_switch text w) in
  exec_calls w' = exec_calls w /\ history w' = history w
  /\ clock_reads w' = clock_reads w.
Proof.
  cbv zeta. rewrite handle_mode_switch_named.
  destruct (named_mode text) as [mode|]; repeat split.
Qed.

(** X22.  The texts the front end treats itself never reach the
    dispatcher, whatever the catalog holds: after a mode switch, [help],
    [what can you do] or [status], in any letter case, no child process
    has been started, the history is the same and the clock has not been
    read; the last three leave the world exactly as it was.  A command
    whose keyword is one of these words cannot be run by saying
    the word alone. *)
Theorem special_texts_bypass_the_dispatcher :
  forall (self : VoiceAssistantDispatcher) (text : string) (w : World),
    is_special text = true ->
    let w' := fst (process_text_input self text w) in
    exec_calls w' = exec_calls w
    /\ history w' = history w
    /\ clock_reads w' = clock_reads w
    /\ (is_switch text = false -> w' = w).
Proof.
  intros self text w Hs. cbv zeta.
  destruct (is_switch text) eqn:Hsw.
  - rewrite (process_switch self text w Hsw).
    destruct (handle_mode_switch_frame text w) as [H1 [H2 H3]]. cbv zeta in *.
    repeat split; solve [assumption | discriminate].
  - unfold is_special in Hs. rewrite Hsw in Hs. cbn [orb] in Hs.
    unfold Assistant.process_text_input.
    unfold is_switch in Hsw. rewrite Hsw.
    unfold asks_help, asks_status in Hs. cbn [existsb].
    rewrite Bool.orb_false_r.
    destruct (String.eqb (PyStr.lower text) "help"
              || String.eqb (PyStr.lower text) "what can you do").
    + repeat split.
    + cbn [orb] in Hs. rewrite Hs. repeat split.
Qed.

(** X23.  With a state document whose [current_mode] is the value of no
    mode, every text that is not a mode switch is answered by the one
    line of apology that carries the [ValueError] of the enumeration, and
    the world is left as it was: nothing is listed, reported or run.  A
    text [switch to <mode> mode] is the way out: after it the current
    mode is that mode. *)
Theorem unknown_mode_is_answered_by_an_apology :
  forall (self : VoiceAssistantDispatcher) (text : string) (w : World) (v : string),
    StateDoc.current_mode (state w) = Some v ->
    unknown_mode v ->
    (is_switch text = false ->
     process_text_input self text w
     = (w, [apology (not_a_valid v "AssistantMode")]))
    /\ (forall mode,
          PyStr.lower text = switch_text mode ->
          current_mode (fst (process_text_input self text w)) = Ok mode).
Proof.
  intros self text w v Hv Hu.
  pose proof (current_mode_unknown w v Hv Hu) as Hmode.
  split.
  - intros Hsw. unfold Assistant.process_text_input.
    unfold is_switch in Hsw. rewrite Hsw.
    destruct (existsb _ _).
    + unfold Assistant.show_help, Dispatcher.get_available_commands.
      rewrite Hmode. reflexivity.
    + destruct (String.eqb _ _).
      * unfold Assistant.show_status, Dispatcher.get_stats.
        rewrite Hmode. reflexivity.
      * unfold Dispatcher.dispatch. rewrite Hmode. reflexivity.
  - intros mode Hm. destruct (switch_text_named text mode Hm) as [Hs Hn].
    rewrite (process_switch self text w Hs), handle_mode_switch_named, Hn.
    cbn [fst]. destruct mode; reflexivity.
Qed.

(** X24.  What is read after a text that is dispatched.  When no command
    matches, the world is left as it was and two lines are printed: the
    hint to say help, as error details, and then the failure.  When the
    result is a success, one line is printed: the check mark with what
    the child wrote to its standard output, without the white space
    around it, or with [Done.] when that is empty. *)
Theorem reply_after_dispatch :
  forall (self : VoiceAssistantDispatcher) (text : string) (w : World),
    is_special text = false ->
    (forall mode,
        current_mode w = Ok mode ->
        CommandRegistry.find_matches (command_registry self) text mode = [] ->
        process_text_input self text w
        = (w, [ "   Error details: Try saying 'help' or be more specific about what you want to do.";
                (speaker ++ " " ++ cross_mark ++ " No matching commands found")%string ]))
    /\ (forall r w',
          dispatch self text w = Ok (r, w') ->
          CommandResult.success r = true ->
          exists argv process out,
            os_exec (List.length (exec_calls w)) argv = Ok process
            /\ returncode process = 0%Z
            /\ stdout_decoded process = Ok out
            /\ process_text_input self text w
               = (w', [ (speaker ++ " " ++ check_mark ++ " "
                          ++ (if PyStr.truthy (PyStr.strip out)
                              then PyStr.strip out else "Done."))%string ])).
Proof.
  intros self text w Hs.
  unfold is_special, asks_help, asks_status, is_switch in Hs.
  apply Bool.orb_false_elim in Hs. destruct Hs as [Hs Hstatus].
  apply Bool.orb_false_elim in Hs. destruct Hs as [Hsw Hhelp].
  assert (Hrun : process_text_input self text w
                 = match dispatch self text w with
                   | Raise e => (w, [apology e])
                   | Ok (result, w1) =>
                       if CommandResult.success result then
                         (w1, [(speaker ++ " "
                                  ++ (if PyStr.truthy (CommandResult.output result)
                                      then (check_mark ++ " "
                                              ++ CommandResult.output result)%string
                                      else (check_mark ++ " Done.")%string))%string])
                       else
                         (w1,
                          match CommandResult.error result with
                          | Some error =>
                              if PyStr.truthy error
                              then [("   Error details: " ++ error)%string]
                              else []
                          | None => []
                          end
                          ++ [(speaker ++ " "
                                 ++ (cross_mark ++ " "
                                       ++ (if PyStr.truthy (CommandResult.output result)
                                           then CommandResult.output result
                                           else "Command failed.")))%string])
                   end).
  { unfold Assistant.process_text_input. rewrite Hsw. cbn [existsb].
    rewrite Bool.orb_false_r, Hhelp, Hstatus. reflexivity. }
  split.
  - intros mode Hmode Hnone. rewrite Hrun.
    rewrite (dispatch_no_candidates clock isoformat os_exec json_dumps
               self text w mode Hmode Hnone).
    reflexivity.
  - intros r w' Hd Hok. rewrite Hrun, Hd, Hok.
    destruct (dispatch_cases clock isoformat os_exec json_dumps self text w r w' Hd)
      as [mode [Hmode Hcases]].
    cbv zeta in Hcases.
    destruct Hcases as [[_ [-> _]]|[[_ [-> _]]|[c [conf [rest [_ [_ [Hr _]]]]]]]];
      try discriminate Hok.
    rewrite Hr in Hok.
    destruct (execute_command_success clock os_exec json_dumps _ _ _ _ Hok)
      as [argv [process [out [_ [Hp [Hrc [Hout [Hres _]]]]]]]].
    exists argv, process, out.
    split; [exact Hp|]. split; [exact Hrc|]. split; [exact Hout|].
    rewrite Hr, Hres. destruct (PyStr.truthy (PyStr.strip out)); reflexivity.
Qed.

(** *** The help text *)

Lemma get_None_keys {V} (d : PyDict.dict V) k :
  PyDict.get k d = None <-> existsb (String.eqb k) (PyDict.keys d) = false.
Proof.
  unfold PyDict.keys. induction d as [|[k' v'] d IH]; simpl; [tauto|].
  rewrite (String.eqb_sym k k'). destruct (String.eqb k' k); simpl; [|exact IH].
  split; discriminate.
Qed.

Lemma first_appearances_snoc keys k :
  first_appearances (keys ++ [k])
  = if existsb (String.eqb k) keys then first_appearances keys
    else first_appearances keys ++ [k].
Proof.
  induction keys as [|a keys IH]; [reflexivity|].
  cbn [app first_appearances existsb]. rewrite IH.
  destruct (existsb (String.eqb k) keys).
  - rewrite Bool.orb_true_r. reflexivity.
  - rewrite Bool.orb_false_r, filter_app. cbn [filter].
    destruct (String.eqb k a); cbn [negb]; [rewrite app_nil_r|]; reflexivity.
Qed.

Lemma existsb_first_appearances keys k :
  existsb (String.eqb k) (first_appearances keys) = existsb (String.eqb k) keys.
Proof.
  apply Bool.eq_iff_eq_true. rewrite !existsb_exists.
  split; intros [x [Hin He]]; exists x; (split; [|exact He]);
    apply first_appearances_In; exact Hin.
Qed.

Lemma group_by_category_snoc commands cmd :
  Assistant.group_by_category (commands ++ [cmd])
  = let by_category := Assistant.group_by_category commands in
    let category := CommandCategory.value (Command.category cmd) in
    let by_category :=
      match PyDict.get category by_category with
      | None => PyDict.set category [] by_category
      | Some _ => by_category
      end in
    PyDict.set category
      (get_default (PyDict.get category by_category) [] ++ [cmd]) by_category.
Proof. unfold Assistant.group_by_category. rewrite fold_left_app. reflexivity. Qed.

Lemma of_category_snoc category commands cmd :
  of_category category (commands ++ [cmd])
  = of_category category commands
    ++ (if String.eqb (CommandCategory.value (Command.category cmd)) category
        then [cmd] else []).
Proof. unfold of_category. rewrite filter_app. reflexivity. Qed.

Lemma group_by_category_get commands :
  let groups := Assistant.group_by_category commands in
  PyDict.keys groups
  = first_appearances
      (map (fun cmd => CommandCategory.value (Command.category cmd)) commands)
  /\ forall category,
       PyDict.get category groups
       = match of_category category commands with
         | [] => None
         | cmd_list => Some cmd_list
         end.
Proof.
  cbv zeta. induction commands as [|c l IH] using rev_ind; [split; reflexivity|].
  destruct IH as [Hk Hg]. rewrite group_by_category_snoc. cbv zeta.
  set (d := Assistant.group_by_category l) in *.
  set (k0 := CommandCategory.value (Command.category c)).
  rewrite map_app. cbn [map]. fold k0. rewrite first_appearances_snoc.
  rewrite <- existsb_first_appearances, <- Hk.
  destruct (PyDict.get k0 d) as [v|] eqn:E.
  - cbn [get_default].
    assert (Hin : existsb (String.eqb k0) (PyDict.keys d) = true).
    { destruct (existsb (String.eqb k0) (PyDict.keys d)) eqn:Ex; [reflexivity|].
      apply get_None_keys in Ex. congruence. }
    rewrite keys_set, Hin. split; [reflexivity|].
    intros k. rewrite get_set, of_category_snoc. fold k0.
    destruct (String.eqb k0 k) eqn:Ek.
    + apply String.eqb_eq in Ek. subst k. specialize (Hg k0). rewrite E in Hg.
      destruct (of_category k0 l) as [|x xs]; [discriminate Hg|].
      injection Hg as ->. try rewrite E. reflexivity.
    + rewrite app_nil_r. apply Hg.
  - assert (Hout : existsb (String.eqb k0) (PyDict.keys d) = false)
      by (apply get_None_keys, E).
    rewrite get_set, String.eqb_refl. cbn [get_default app].
    rewrite !keys_set, Hout, existsb_app. cbn [existsb].
    rewrite String.eqb_refl, Bool.orb_true_r. split; [reflexivity|].
    intros k. rewrite !get_set, of_category_snoc. fold k0.
    destruct (String.eqb k0 k) eqn:Ek.
    + apply String.eqb_eq in Ek. subst k. specialize (Hg k0). rewrite E in Hg.
      destruct (of_category k0 l) as [|x xs]; [reflexivity | discriminate Hg].
    + rewrite app_nil_r. apply Hg.
Qed.

Lemma concat_values_set_new {A} k (v : list A) d :
  PyDict.get k d = None ->
  List.concat (PyDict.values (PyDict.set k v d)) = List.concat (PyDict.values d) ++ v.
Proof.
  unfold PyDict.values. induction d as [|[k' v'] d IH]; simpl; intros H.
  - apply app_nil_r.
  - destruct (String.eqb k' k); [discriminate H|].
    simpl. rewrite IH by exact H. apply app_assoc.
Qed.

Lemma concat_values_set_more {A} k (old more : list A) d :
  PyDict.get k d = Some old ->
  Permutation (List.concat (PyDict.values (PyDict.set k (old ++ more) d)))
    (List.concat (PyDict.values d) ++ more).
Proof.
  unfold PyDict.values. induction d as [|[k' v'] d IH]; simpl; intros H.
  - discriminate H.
  - destruct (String.eqb k' k).
    + injection H as ->. simpl. rewrite <- !app_assoc.
      apply Permutation_app_head, Permutation_app_comm.
    + simpl. rewrite <- app_assoc. apply Permutation_app_head, IH, H.
Qed.

Lemma group_by_category_perm commands :
  Permutation (List.concat (PyDict.values (Assistant.group_by_category commands)))
    commands.
Proof.
  induction commands as [|c l IH] using rev_ind; [constructor|].
  rewrite group_by_category_snoc. cbv zeta.
  set (d := Assistant.group_by_category l) in *.
  set (k0 := CommandCategory.value (Command.category c)).
  destruct (PyDict.get k0 d) as [v|] eqn:E.
  - rewrite ?E. cbn [get_default]. rewrite (concat_values_set_more k0 v [c] d E).
    apply Permutation_app_tail, IH.
  - rewrite get_set, String.eqb_refl. cbn [get_default].
    rewrite (concat_values_set_more k0 [] [c] (PyDict.set k0 [] d))
      by (rewrite get_set, String.eqb_refl; reflexivity).
    rewrite (concat_values_set_new k0 [] d E), app_nil_r.
    apply Permutation_app_tail, IH.
Qed.

Lemma In_dict_get {V} (d : PyDict.dict V) k v :
  In (k, v) d -> NoDup (PyDict.keys d) -> PyDict.get k d = Some v.
Proof. intros Hin Hnd. apply get_of_In; assumption. Qed.

Lemma help_lines_length (by_category : PyDict.dict (list Command.t)) :
  List.length
    (flat_map
       (fun item =>
          (Assistant.newline ++ Assistant.upper (fst item) ++ ":")%string
          :: map (Assistant.help_line bullet) (snd item))
       by_category)
  = List.length by_category + List.length (List.concat (PyDict.values by_category)).
Proof.
  unfold PyDict.values.
  induction by_category as [|[k v] d IH]; [reflexivity|].
  cbn [flat_map map List.concat fst snd]. cbn [app List.length].
  rewrite !length_app, length_map, IH. lia.
Qed.

(** X25.  The help text groups the commands by category.  The categories
    come in the order in which their first command is listed; under each
    category stand exactly the listed commands of that category, in the
    order of the list, and no category is empty; so every listed command
    appears once.  When the stored mode is valid, [show_help] ends well
    and prints four lines, one line for each category and one for each
    command [get_available_commands] returns. *)
Theorem help_groups_commands_by_category :
  forall (commands : list Command.t),
    let groups := Assistant.group_by_category commands in
    PyDict.keys groups
    = first_appearances
        (map (fun cmd => CommandCategory.value (Command.category cmd)) commands)
    /\ (forall category cmd_list,
          In (category, cmd_list) groups ->
          cmd_list = of_category category commands /\ cmd_list <> [])
    /\ Permutation (List.concat (PyDict.values groups)) commands
    /\ (forall self w mode,
          current_mode w = Ok mode ->
          get_available_commands self None w = Ok commands ->
          exists printed,
            show_help self w = (printed, Ok tt)
            /\ List.length printed
               = 4 + List.length groups + List.length commands).
Proof.
  intros commands. cbv zeta.
  destruct (group_by_category_get commands) as [Hk Hg]. cbv zeta in Hk, Hg.
  split; [exact Hk|]. split; [|split; [apply group_by_category_perm|]].
  - intros category cmd_list Hin.
    assert (Hnd : NoDup (PyDict.keys (Assistant.group_by_category commands)))
      by (rewrite Hk; apply first_appearances_NoDup).
    pose proof (In_dict_get _ _ _ Hin Hnd) as Hget. rewrite Hg in Hget.
    destruct (of_category category commands) as [|x xs]; [discriminate Hget|].
    injection Hget as <-. split; [reflexivity | discriminate].
  - intros self w mode Hmode Hlisted. unfold Assistant.show_help.
    rewrite Hlisted, Hmode. eexists. split; [reflexivity|].
    rewrite !length_app, help_lines_length.
    rewrite (Permutation_length (group_by_category_perm commands)).
    cbn [List.length]. lia.
Qed.

(** *** The status text *)

Lemma last_n_nil_iff {A} (n : nat) (l : list A) :
  0 < n -> (PyList.last_n n l = [] <-> l = []).
Proof.
  intros Hn. split; [|intros ->; reflexivity].
  intros H. apply (f_equal (@List.length A)) in H.
  rewrite last_n_length_min in H. destruct l; [reflexivity | simpl in H; lia].
Qed.

(** X26.  [show_status] prints nothing and raises when [get_stats] does.
    Otherwise it ends well: it prints six lines of figures and then,
    unless the history is empty, a heading and the last three commands of
    the history, oldest first (fewer when the history is shorter), each
    with the mark of its success; ten lines at most. *)
Theorem status_shows_last_three :
  forall (w : World),
    match get_stats w with
    | Raise e => show_status w = ([], Raise e)
    | Ok stats =>
        exists figures,
          List.length figures = 6
          /\ show_status w
             = (figures
                ++ match history w with
                   | [] => []
                   | _ =>
                       (Assistant.newline ++ "Recent Commands:")%string
                       :: map (Assistant.recent_line check_mark cross_mark)
                            (PyList.last_n 3 (history w))
                   end,
                Ok tt)
          /\ List.length (fst (show_status w)) <= 10
    end.
Proof.
  intros w. unfold Assistant.show_status.
  destruct (get_stats w) as [stats|e]; [|reflexivity].
  cbv zeta. unfold Dispatcher.get_command_history. fold (history w).
  rewrite skipn_slice by lia. change (Z.to_nat (- - (5))) with 5.
  eexists. split; [|split].
  2: { destruct (PyList.last_n 5 (history w)) as [|x xs] eqn:E.
       - apply last_n_nil_iff in E; [|lia]. rewrite E, app_nil_r. reflexivity.
       - rewrite <- E. rewrite skipn_slice by lia.
         change (Z.to_nat (- (-3))) with 3. rewrite last_n_last_n by lia.
         destruct (history w) as [|y ys]; [discriminate E | reflexivity]. }
  - reflexivity.
  - destruct (PyList.last_n 5 (history w)) as [|x xs] eqn:E; cbn [fst].
    + cbn [List.length]. lia.
    + rewrite <- E. rewrite skipn_slice by lia.
      change (Z.to_nat (- (-3))) with 3. rewrite last_n_last_n by lia.
      rewrite length_app. cbn [List.length]. rewrite length_map.
      pose proof (last_n_length 3 (history w)). lia.
Qed.

End AssistantFacts.

(** ** The properties above on concrete inputs *)

Lemma empty_keyword_matches_everything_witness :
  (In EmptyString (Command.keywords Cases.always) ->
   forall user_input,
     In Cases.always
       (map fst (CommandRegistry.find_matches Cases.registry user_input
                   AssistantMode.STUDY)))
  /\ (In Cases.always
        (map fst (CommandRegistry.find_matches Cases.registry EmptyString
                    AssistantMode.STUDY))
      <-> In EmptyString (Command.keywords Cases.always)).
Proof.
  apply (empty_keyword_matches_everything Cases.registry AssistantMode.STUDY
           Cases.always).
  - simpl. do 4 right. left. reflexivity.
  - left. reflexivity.
Defined.

Lemma catalog_order_is_first_appearance_witness :
  exists commands,
    CommandRegistry._load_commands (RegistryData (Some records_with_repeated_key))
    = Ok commands
    /\ PyDict.keys commands = ["timer"; "notes"].
Proof.
  exact (catalog_order_is_first_appearance records_with_repeated_key
           Cases.built eq_refl).
Defined.

Lemma load_reports_first_failure_witness :
  CommandRegistry._load_commands
    (RegistryData (Some (CommandRegistry.default_commands
                           ++ record_with_unknown_category
                              :: records_with_repeated_key)))
  = Raise (not_a_valid "gaming" "CommandCategory").
Proof.
  exact (load_reports_first_failure CommandRegistry.default_commands
           record_with_unknown_category records_with_repeated_key
           (match map_exn CommandRegistry.build_command
                    CommandRegistry.default_commands with
            | Ok cmds => cmds
            | Raise _ => []
            end)
           (not_a_valid "gaming" "CommandCategory") eq_refl eq_refl).
Defined.

Lemma loaded_catalog_is_well_formed_witness :
  NoDup (PyDict.keys Cases.catalog)
  /\ (forall k cmd,
         In (k, cmd) Cases.catalog ->
         Command.key cmd = k
         /\ PyDict.get k Cases.catalog = Some cmd
         /\ exists e, Command.environment cmd = Env e)
  /\ (forall user_input mode,
         NoDup (map fst (CommandRegistry.find_matches Cases.catalog user_input mode))).
Proof.
  exact (loaded_catalog_is_well_formed
           (RegistryData (Some records_with_repeated_key)) Cases.catalog eq_refl).
Defined.

Lemma document_modes_decide_offering_witness :
  offered_in AssistantMode.STUDY Cases.notes
  <-> ["study"] = [] \/ In (AssistantMode.value AssistantMode.STUDY) ["study"].
Proof.
  exact (document_modes_decide_offering Cases.notes_record Cases.notes
           AssistantMode.STUDY eq_refl).
Defined.

Lemma unknown_stored_mode_raises_witness :
  let e := not_a_valid "gaming" "AssistantMode" in
  Demo.dispatch "play music" Cases.corrupted = Raise e
  /\ get_available_commands Demo.dispatcher None Cases.corrupted = Raise e
  /\ get_stats Cases.corrupted = Raise e
  /\ (forall mode, exists listed,
         get_available_commands Demo.dispatcher (Some mode) Cases.corrupted
         = Ok listed)
  /\ (forall mode, exists r w',
         Demo.dispatch "play music" (set_mode mode Cases.corrupted) = Ok (r, w')).
Proof.
  apply (unknown_stored_mode_raises Sample.clock Sample.isoformat Sample.os_exec
           Sample.json_dumps Demo.dispatcher "play music" Cases.corrupted "gaming").
  - reflexivity.
  - intros m. destruct m; discriminate.
Defined.

Lemma dispatch_frame_witness :
  StateDoc.current_mode (state (snd Cases.played)) = Some "general"
  /\ StateDoc.aliases (state (snd Cases.played)) = Some []
  /\ StateDoc.user_preferences (state (snd Cases.played)) = Some []
  /\ StateDoc.session_start (state (snd Cases.played)) = Some "start"
  /\ (exec_calls (snd Cases.played) = []
      \/ exists argv, exec_calls (snd Cases.played) = [] ++ [argv])
  /\ (clock_reads (snd Cases.played) = 0 \/ clock_reads (snd Cases.played) = 3 + 0).
Proof.
  exact (dispatch_frame Sample.clock Sample.isoformat Sample.os_exec
           Sample.json_dumps Demo.dispatcher "play music" Sample.world
           (fst Cases.played) (snd Cases.played) eq_refl).
Defined.

Lemma dispatch_records_what_it_ran_witness :
  (snd Cases.played = Sample.world /\ CommandResult.success (fst Cases.played) = false)
  \/ (exists mode command confidence rest entry,
         current_mode Sample.world = Ok mode
         /\ CommandRegistry.find_matches Demo.registry "play music" mode
            = (command, confidence) :: rest
         /\ StateDoc.last_commands (state (snd Cases.played))
            = Some (PyList.last_n 50 (history Sample.world ++ [entry]))
         /\ HistoryEntry.command entry = Command.key command
         /\ HistoryEntry.input entry = "play music"
         /\ HistoryEntry.success entry = CommandResult.success (fst Cases.played)
         /\ HistoryEntry.output entry
            = stored_output (CommandResult.output (fst Cases.played))).
Proof.
  exact (dispatch_records_what_it_ran Sample.clock Sample.isoformat Sample.os_exec
           Sample.json_dumps Demo.dispatcher "play music" Sample.world
           (fst Cases.played) (snd Cases.played) eq_refl).
Defined.

Lemma dispatch_result_meaning_witness :
  exists argv process out,
    exec_calls (snd Cases.played) = exec_calls Sample.world ++ [argv]
    /\ Sample.os_exec (List.length (exec_calls Sample.world)) argv = Ok process
    /\ returncode process = 0%Z
    /\ stdout_decoded process = Ok out
    /\ CommandResult.output (fst Cases.played) = PyStr.strip out
    /\ CommandResult.error (fst Cases.played) = None.
Proof.
  exact (proj1 (dispatch_result_meaning Sample.clock Sample.isoformat Sample.os_exec
                  Sample.json_dumps Demo.dispatcher "play music" Sample.world
                  (fst Cases.played) (snd Cases.played) eq_refl) eq_refl).
Defined.

Lemma get_stats_figures_witness :
  exists stats,
    get_stats Cases.played_and_failed = Ok stats
    /\ Stats.total_commands stats = 2
    /\ Stats.successful_commands stats = 1
    /\ Stats.success_rate stats = PyFloat 0.5
    /\ (exists x : float,
          Stats.success_rate stats = PyFloat x
          /\ (0 <=? x)%float = true /\ (x <=? 1)%float = true
          /\ ((x =? 1)%float = true
              <-> Forall (fun e => HistoryEntry.success e = true)
                    (history Cases.played_and_failed))
          /\ ((x =? 0)%float = true
              <-> Forall (fun e => HistoryEntry.success e = false)
                    (history Cases.played_and_failed))).
Proof.
  eexists. split; [reflexivity|].
  split; [reflexivity|]. split; [reflexivity|]. split; [reflexivity|].
  refine (proj1 (proj2 (proj2 (proj2
            (get_stats_figures Cases.played_and_failed _ eq_refl _)))) _).
  - vm_compute. lia.
  - discriminate.
Defined.

Lemma listed_commands_are_the_reachable_ones_witness :
  exists listed,
    get_available_commands Demo.dispatcher None Demo.coding_world = Ok listed
    /\ get_available_commands Demo.dispatcher (Some AssistantMode.CODING)
         Demo.coding_world = Ok listed
    /\ (forall user_input cmd,
           In cmd (map fst (CommandRegistry.find_matches Demo.registry user_input
                              AssistantMode.CODING)) ->
           In cmd listed)
    /\ (forall cmd keyword,
           In cmd listed -> In keyword (Command.keywords cmd) ->
           In cmd (map fst (CommandRegistry.find_matches Demo.registry keyword
                              AssistantMode.CODING)))
    /\ (forall cmd user_input,
           In cmd listed -> Command.keywords cmd = [] ->
           ~ In cmd (map fst (CommandRegistry.find_matches Demo.registry user_input
                                AssistantMode.CODING))).
Proof.
  exact (listed_commands_are_the_reachable_ones Demo.dispatcher Demo.coding_world
           AssistantMode.CODING eq_refl).
Defined.

Lemma switch_text_sets_named_mode_witness :
  Cases.process_text_input "Switch to Coding mode" Sample.world
  = (set_mode AssistantMode.CODING Sample.world, ["(speaker) Switched to coding mode"])
  /\ (forall mode,
        PyStr.lower "Switch to Coding mode" = switch_text mode ->
        named_mode "Switch to Coding mode" = Some mode
        /\ current_mode (fst (Cases.process_text_input "Switch to Coding mode"
                                Sample.world)) = Ok mode).
Proof.
  exact (switch_text_sets_named_mode Sample.clock Sample.isoformat Sample.os_exec
           Sample.json_dumps "(speaker)" "(done)" "(failed)" "(list)" "(chart)" "*"
           Cases.format_percent Demo.dispatcher "Switch to Coding mode"
           Sample.world eq_refl).
Defined.

Lemma special_texts_bypass_the_dispatcher_witness :
  let w' := fst (Cases.process_text_input "HELP" (snd Cases.played)) in
  exec_calls w' = exec_calls (snd Cases.played)
  /\ history w' = history (snd Cases.played)
  /\ clock_reads w' = clock_reads (snd Cases.played)
  /\ (is_switch "HELP" = false -> w' = snd Cases.played).
Proof.
  exact (special_texts_bypass_the_dispatcher Sample.clock Sample.isoformat
           Sample.os_exec Sample.json_dumps "(speaker)" "(done)" "(failed)" "(list)"
           "(chart)" "*" Cases.format_percent Demo.dispatcher "HELP"
           (snd Cases.played) eq_refl).
Defined.

Lemma unknown_mode_is_answered_by_an_apology_witness :
  Cases.process_text_input "status" Cases.corrupted
  = (Cases.corrupted,
     ["(failed) Sorry, something went wrong: 'gaming' is not a valid AssistantMode"]).
Proof.
  refine (proj1 (unknown_mode_is_answered_by_an_apology Sample.clock Sample.isoformat
                   Sample.os_exec Sample.json_dumps "(speaker)" "(done)" "(failed)"
                   "(list)" "(chart)" "*" Cases.format_percent Demo.dispatcher
                   "status" Cases.corrupted "gaming" eq_refl _) eq_refl).
  intros m. destruct m; discriminate.
Defined.

Lemma reply_after_dispatch_witness :
  Cases.process_text_input "build" Sample.world
  = (Sample.world,
     [ "   Error details: Try saying 'help' or be more specific about what you want to do.";
       "(speaker) (failed) No matching commands found" ]).
Proof.
  exact (proj1 (reply_after_dispatch Sample.clock Sample.isoformat Sample.os_exec
                  Sample.json_dumps "(speaker)" "(done)" "(failed)" "(list)"
                  "(chart)" "*" Cases.format_percent Demo.dispatcher "build"
                  Sample.world eq_refl)
           AssistantMode.GENERAL eq_refl eq_refl).
Defined.

Example help_text_of_the_samples :
  Assistant.show_help "(list)" "*" Demo.dispatcher Demo.coding_world
  = ([ (Assistant.newline ++ "(list) Available Commands:")%string;
       "==================================================";
       (Assistant.newline ++ "UTILITY:")%string;
       "  * music: play, music";
       "  * video: play";
       "  * build: build";
       "  * broken: broken";
       (Assistant.newline ++ "Current mode: coding")%string;
       "Say 'switch to [mode] mode' to change modes" ],
     Ok tt).
Proof. reflexivity. Qed.

Example status_text_of_the_samples :
  fst (Assistant.show_status "(done)" "(failed)" "(chart)" Cases.format_percent
         Cases.played_and_failed)
  = [ (Assistant.newline ++ "(chart) Assistant Status:")%string;
      "==============================";
      "Current Mode: general";
      "Commands Executed: 2";
      "Success Rate: (float)%";
      "Session Start: start";
      (Assistant.newline ++ "Recent Commands:")%string;
      "  (done) music";
      "  (failed) broken" ].
Proof. reflexivity. Qed.
